(** * Tarif EDF: the tariff resolution engine of [coordinator.py]

    A shallow embedding of
    [custom_components/tarif_edf/coordinator.py]: the time helpers, the
    tariff table resolver [_parse_tariff_csv], the Tempo colour cache
    [get_tempo_day] and the refresh cycle [_async_update_data], followed by
    the properties of the specification that they decide, and by further
    properties of the code, among them what the entities of [sensor.py] and
    [binary_sensor.py] find in the snapshot.

    Python values are modelled as follows.
    - [str] is [string]; the helpers below act on its characters.
    - [datetime.time] and [datetime.date] are records of their integer
      fields, compared field by field as Python compares them.
    - a [dict] with string keys is a [gmap string _]; [d.get(k)] is a lookup.
    - an exception is an [exn] carried by [outcome]; state that the source
      mutates in place survives a raise. *)

From stdpp Require Import gmap strings list.
From Stdlib Require Import ZArith Lia Ascii String.

Local Open Scope string_scope.
Local Open Scope Z_scope.

(** ** Exceptions *)

Inductive exn : Type :=
  | ValueError
  | TypeError
  | AttributeError
  | KeyError
  | IndexError
  | OverflowError
  | ClientError          (* aiohttp.ClientError *)
  | OtherError           (* any other Exception, e.g. TimeoutError *)
  | UpdateFailed.        (* homeassistant UpdateFailed *)

Inductive outcome (A : Type) : Type :=
  | Return (a : A)
  | Raise (e : exn).
Arguments Return {A} a.
Arguments Raise {A} e.

(** ** Characters and strings *)

Definition code (a : ascii) : Z := Z.of_N (N_of_ascii a).

(** A decimal digit and its value ([\d] of the patterns, over ASCII). *)
Definition digit (a : ascii) : option Z :=
  let n := code a in
  if (48 <=? n) && (n <=? 57) then Some (n - 48) else None.

(** [str.isspace] over ASCII: tab, LF, VT, FF, CR, FS, GS, RS, US, space. *)
Definition isspace (a : ascii) : bool :=
  let n := code a in
  ((9 <=? n) && (n <=? 13)) || ((28 <=? n) && (n <=? 32)).

Fixpoint lstrip (s : string) : string :=
  match s with
  | String a s' => if isspace a then lstrip s' else s
  | EmptyString => EmptyString
  end.

(** [s.strip()] *)
Definition strip (s : string) : string :=
  String.rev (lstrip (String.rev (lstrip s))).

(** [s.split(sep)] for a one-character separator: never an empty list. *)
Fixpoint split_go (sep : ascii) (cur : string) (s : string) : list string :=
  match s with
  | EmptyString => [String.rev cur]
  | String a s' =>
      if Ascii.eqb a sep then String.rev cur :: split_go sep EmptyString s'
      else split_go sep (String a cur) s'
  end.

Definition split (sep : ascii) (s : string) : list string :=
  split_go sep EmptyString s.

(** [s.replace(",", ".")] *)
Fixpoint replace_comma (s : string) : string :=
  match s with
  | EmptyString => EmptyString
  | String a s' =>
      String (if Ascii.eqb a ","%char then "."%char else a) (replace_comma s')
  end.

Definition chars (s : string) : list ascii := list_ascii_of_string s.

(** Python truthiness of a [str]. *)
Definition nonempty (s : string) : bool :=
  match s with EmptyString => false | _ => true end.

(** ** [datetime.time] *)

Record time : Type := mk_time {
  hour : Z;
  minute : Z;
  second : Z;
  microsecond : Z
}.

(** Python compares two times as the tuples of their fields. *)
Definition time_cmp (a b : time) : comparison :=
  match hour a ?= hour b with
  | Eq =>
      match minute a ?= minute b with
      | Eq =>
          match second a ?= second b with
          | Eq => microsecond a ?= microsecond b
          | c => c
          end
      | c => c
      end
  | c => c
  end.

Definition time_ltb (a b : time) : bool :=
  match time_cmp a b with Lt => true | _ => false end.
Definition time_leb (a b : time) : bool :=
  match time_cmp a b with Gt => false | _ => true end.
Definition time_gtb (a b : time) : bool :=
  match time_cmp a b with Gt => true | _ => false end.
Definition time_geb (a b : time) : bool :=
  match time_cmp a b with Lt => false | _ => true end.

Declare Scope time_scope.
Delimit Scope time_scope with time.
Notation "a < b" := (time_ltb a b = true) : time_scope.
Notation "a <= b" := (time_leb a b = true) : time_scope.
Notation "a > b" := (time_gtb a b = true) : time_scope.
Notation "a >= b" := (time_geb a b = true) : time_scope.
Notation "a <= b < c" :=
  (time_leb a b = true /\ time_ltb b c = true) : time_scope.

(** [str_to_time]: [datetime.strptime(time_str, "%H:%M").time()].

    [%H] is [2[0-3]|[0-1]\d|\d] and [%M] is [[0-5]\d|\d]; the whole string
    has to be consumed.  Both groups hold digits only, so the string matches
    exactly when it splits at its colons into an hour and a minute. *)
Definition parse_H (cs : list ascii) : option Z :=
  match cs with
  | [a] => digit a
  | [a; b] =>
      match digit a, digit b with
      | Some x, Some y =>
          if ((x =? 2) && (y <=? 3)) || (x <=? 1) then Some (10 * x + y)
          else None
      | _, _ => None
      end
  | _ => None
  end.

Definition parse_M (cs : list ascii) : option Z :=
  match cs with
  | [a] => digit a
  | [a; b] =>
      match digit a, digit b with
      | Some x, Some y => if x <=? 5 then Some (10 * x + y) else None
      | _, _ => None
      end
  | _ => None
  end.

(** [None] stands for the [ValueError] of [strptime]. *)
Definition str_to_time (time_str : string) : option time :=
  match split ":" time_str with
  | [h; m] =>
      match parse_H (chars h), parse_M (chars m) with
      | Some hh, Some mm => Some (mk_time hh mm 0 0)
      | _, _ => None
      end
  | _ => None
  end.

(** [time_in_between] *)
Definition time_in_between (now start end_ : time) : bool :=
  if time_leb start end_ then time_leb start now && time_ltb now end_
  else time_leb start now || time_ltb now end_.

(** ** [datetime.date] *)

Record date : Type := mk_date {
  year : Z;
  month : Z;
  day : Z
}.

Definition date_cmp (a b : date) : comparison :=
  match year a ?= year b with
  | Eq =>
      match month a ?= month b with
      | Eq => day a ?= day b
      | c => c
      end
  | c => c
  end.

Definition date_ltb (a b : date) : bool :=
  match date_cmp a b with Lt => true | _ => false end.
Definition date_gtb (a b : date) : bool :=
  match date_cmp a b with Gt => true | _ => false end.
Definition date_leb (a b : date) : bool :=
  match date_cmp a b with Gt => false | _ => true end.
Definition date_eqb (a b : date) : bool :=
  (year a =? year b) && (month a =? month b) && (day a =? day b).

Definition is_leap (y : Z) : bool :=
  ((y mod 4 =? 0) && negb (y mod 100 =? 0)) || (y mod 400 =? 0).

Definition days_in_month (y m : Z) : Z :=
  if m =? 2 then (if is_leap y then 29 else 28)
  else if (m =? 4) || (m =? 6) || (m =? 9) || (m =? 11) then 30
  else 31.

(** The groups of ["%d/%m/%Y"]: [%d] is [3[0-1]|[1-2]\d|0[1-9]|[1-9]| [1-9]],
    [%m] is [1[0-2]|0[1-9]|[1-9]] and [%Y] is four digits. *)
Definition parse_d (cs : list ascii) : option Z :=
  match cs with
  | [a] => match digit a with Some x => if 1 <=? x then Some x else None | None => None end
  | [a; b] =>
      match digit b with
      | Some y =>
          if Ascii.eqb a " "%char then (if 1 <=? y then Some y else None)
          else
            match digit a with
            | Some x =>
                let v := 10 * x + y in
                if (1 <=? v) && (v <=? 31) then Some v else None
            | None => None
            end
      | None => None
      end
  | _ => None
  end.

Definition parse_m (cs : list ascii) : option Z :=
  match cs with
  | [a] => match digit a with Some x => if 1 <=? x then Some x else None | None => None end
  | [a; b] =>
      match digit a, digit b with
      | Some x, Some y =>
          let v := 10 * x + y in
          if (1 <=? v) && (v <=? 12) then Some v else None
      | _, _ => None
      end
  | _ => None
  end.

Definition parse_Y (cs : list ascii) : option Z :=
  match cs with
  | [a; b; c; d] =>
      match digit a, digit b, digit c, digit d with
      | Some w, Some x, Some y, Some z => Some (1000 * w + 100 * x + 10 * y + z)
      | _, _, _, _ => None
      end
  | _ => None
  end.

(** [str_to_date]: [datetime.strptime(date_str, "%d/%m/%Y").date()];
    [None] stands for its [ValueError] (no match, text left over, year 0,
    or a day the month does not have). *)
Definition str_to_date (date_str : string) : option date :=
  match split "/" date_str with
  | [d; m; y] =>
      match parse_d (chars d), parse_m (chars m), parse_Y (chars y) with
      | Some dd, Some mm, Some yy =>
          if (1 <=? yy) && (dd <=? days_in_month yy mm)
          then Some (mk_date yy mm dd) else None
      | _, _, _ => None
      end
  | _ => None
  end.

(** ** The schedule pattern of [re.match] *)

(** Regular expressions over characters, as far as the pattern of the
    off-peak schedule needs them. *)
Inductive regex : Type :=
  | Void
  | Eps
  | Rng (lo hi : ascii)            (* [lo-hi] *)
  | Seq (r1 r2 : regex)
  | Alt (r1 r2 : regex).

Definition Chr (a : ascii) : regex := Rng a a.
Definition Opt (r : regex) : regex := Alt r Eps.

Fixpoint nullable (r : regex) : bool :=
  match r with
  | Void => false
  | Eps => true
  | Rng _ _ => false
  | Seq r1 r2 => nullable r1 && nullable r2
  | Alt r1 r2 => nullable r1 || nullable r2
  end.

Fixpoint deriv (a : ascii) (r : regex) : regex :=
  match r with
  | Void => Void
  | Eps => Void
  | Rng lo hi => if (code lo <=? code a) && (code a <=? code hi) then Eps else Void
  | Seq r1 r2 =>
      if nullable r1 then Alt (Seq (deriv a r1) r2) (deriv a r2)
      else Seq (deriv a r1) r2
  | Alt r1 r2 => Alt (deriv a r1) (deriv a r2)
  end.

(** [re.match(r, s)] is truthy when some prefix of [s] matches [r]: the match
    is anchored at the start of the string only. *)
Fixpoint re_match (r : regex) (s : string) : bool :=
  nullable r ||
  match s with
  | EmptyString => false
  | String a s' => re_match (deriv a r) s'
  end.

(** [([0-1]?[0-9]|2[0-3]):[0-5][0-9]-([0-1]?[0-9]|2[0-3]):[0-5][0-9]] *)
Definition HH : regex :=
  Alt (Seq (Opt (Rng "0" "1")) (Rng "0" "9")) (Seq (Chr "2") (Rng "0" "3")).
Definition MM : regex := Seq (Rng "0" "5") (Rng "0" "9").
Definition RANGE_PATTERN : regex :=
  Seq HH (Seq (Chr ":") (Seq MM (Seq (Chr "-") (Seq HH (Seq (Chr ":") MM))))).

(** The loop of [_async_update_data] over
    [off_peak_hours_ranges.split(",")]: [Return true] when it leaves by
    [break], [Return false] when it runs to its end.  [str_to_time] is
    called on the two first pieces of an entry that passed [re.match]; its
    [ValueError] is caught nowhere. *)
Fixpoint scan_ranges (now : time) (ranges : list string) : outcome bool :=
  match ranges with
  | [] => Return false
  | time_range :: rest =>
      let time_range := strip time_range in
      if negb (re_match RANGE_PATTERN time_range) then scan_ranges now rest
      else
        match split "-" time_range with
        | h0 :: h1 :: _ =>
            match str_to_time h0 with
            | None => Raise ValueError
            | Some start_at =>
                match str_to_time h1 with
                | None => Raise ValueError
                | Some end_at =>
                    if time_in_between now start_at end_at then Return true
                    else scan_ranges now rest
                end
            end
        | _ => Raise IndexError
        end
  end.

(** ** Dates as text, and the day before and after *)

Definition digit_char (n : Z) : ascii := ascii_of_N (Z.to_N (48 + n mod 10)).

Definition pad2 (n : Z) : string :=
  String (digit_char (n / 10)) (String (digit_char n) EmptyString).

Definition pad4 (n : Z) : string :=
  String (digit_char (n / 1000)) (String (digit_char (n / 100)) (pad2 n)).

(** [d.isoformat()], which is also [d.strftime("%Y-%m-%d")] from year 1000
    on: ["YYYY-MM-DD"]. *)
Definition isoformat (d : date) : string :=
  pad4 (year d) +:+ "-" +:+ pad2 (month d) +:+ "-" +:+ pad2 (day d).

Definition MINYEAR : Z := 1.
Definition MAXYEAR : Z := 9999.

(** [d + timedelta(days=1)] and [d - timedelta(days=1)]; [None] stands for
    the [OverflowError] past [date.max] or [date.min]. *)
Definition date_add_day (d : date) : option date :=
  if day d <? days_in_month (year d) (month d)
  then Some (mk_date (year d) (month d) (day d + 1))
  else if month d <? 12 then Some (mk_date (year d) (month d + 1) 1)
  else if year d <? MAXYEAR then Some (mk_date (year d + 1) 1 1)
  else None.

Definition date_sub_day (d : date) : option date :=
  if 1 <? day d then Some (mk_date (year d) (month d) (day d - 1))
  else if 1 <? month d
  then Some (mk_date (year d) (month d - 1) (days_in_month (year d) (month d - 1)))
  else if MINYEAR <? year d then Some (mk_date (year d - 1) 12 31)
  else None.

(** An aware [datetime]: the instant it denotes, in microseconds, with the
    calendar date and the wall-clock time it shows ([.date()], [.time()]). *)
Record datetime : Type := mk_datetime {
  instant : Z;
  dt_date : date;
  dt_time : time
}.

Definition MICROSECONDS_PER_DAY : Z := 86400000000.

(** The days from 1970-01-01 to a date of the civil calendar. *)
Definition days_from_civil (d : date) : Z :=
  let y := if month d <=? 2 then year d - 1 else year d in
  let era := y / 400 in
  let yoe := y - era * 400 in
  let mp := if 2 <? month d then month d - 3 else month d + 9 in
  let doy := (153 * mp + 2) / 5 + day d - 1 in
  let doe := yoe * 365 + yoe / 4 - yoe / 100 + doy in
  era * 146097 + doe - 719468.

(** [d.toordinal()]: 0001-01-01 is day 1, and [date.max], 9999-12-31, is
    day [MAXORDINAL]. *)
Definition toordinal (d : date) : Z := days_from_civil d + 719163.
Definition MAXORDINAL : Z := 3652059.

(** [timedelta(days=n)] for an [int]: a [timedelta] holds at most
    999999999 days either way, and [OverflowError] is raised beyond. *)
Definition MAX_DELTA_DAYS : Z := 999999999.
Definition timedelta_days (n : Z) : outcome Z :=
  if Z.abs n <=? MAX_DELTA_DAYS then Return n else Raise OverflowError.

(** [now - delta] for a [delta] of whole days, as an instant: the date moves
    by the days and the time of the day stays; a date before [date.min] or
    after [date.max] is an [OverflowError]. *)
Definition datetime_sub_days (now : datetime) (days : Z) : outcome Z :=
  let o := toordinal (dt_date now) - days in
  if (1 <=? o) && (o <=? MAXORDINAL)
  then Return (instant now - days * MICROSECONDS_PER_DAY)
  else Raise OverflowError.

(** ** Python floats

    The rates are Python floats.  Their type, [float(s)] (with [None] for
    its [ValueError]), the division by an integer and [0.0] are taken as
    given. *)
Class PyFloat : Type := {
  float : Type;
  float_of_str : string -> option float;
  float_div : float -> Z -> float;
  float_zero : float
}.

(** ** Constants of [const.py]

    [const.py] is not among the sources.  Its URLs, its default schedule and
    its default refresh interval are parameters; its two clock times, which
    the source reads through [str_to_time], are given as the times they
    denote. *)
Record Const : Type := {
  DEFAULT_REFRESH_INTERVAL : Z;
  TARIF_BASE_URL : string;
  TARIF_HPHC_URL : string;
  TARIF_TEMPO_URL : string;
  TEMPO_COLOR_API_URL : string;
  TEMPO_DAY_START_AT : time;
  TEMPO_TOMRROW_AVAILABLE_AT : time;
  TEMPO_OFFPEAK_HOURS : string
}.

(** Modelled from the spec: the three contract types of [const.py], which
    section 3 of the specification names base, hphc and tempo. *)
Definition CONTRACT_TYPE_BASE : string := "base".
Definition CONTRACT_TYPE_HPHC : string := "hphc".
Definition CONTRACT_TYPE_TEMPO : string := "tempo".

(** Modelled from the spec: the colour table of [const.py]; the glossary
    gives the codes 0 to 3, and the rate fields [tempo_variable_hp_bleu_ttc]
    and the like, which [_async_update_data] looks up by colour name, give
    the names. *)
Definition TEMPO_COLORS_MAPPING : list (Z * string) :=
  [(0, "indéterminé"); (1, "bleu"); (2, "blanc"); (3, "rouge")].

Definition INDETERMINE : string := "indéterminé".

(** [dict.get] on the colour table. *)
Fixpoint mapping_get (m : list (Z * string)) (code : Z) : option string :=
  match m with
  | [] => None
  | (c, name) :: m' => if c =? code then Some name else mapping_get m' code
  end.

(** [get_tempo_color_from_code] *)
Definition get_tempo_color_from_code (code : Z) : string :=
  default INDETERMINE (mapping_get TEMPO_COLORS_MAPPING code).

(** [code_jour in [1, 2, 3]] *)
Definition in_123 (code : Z) : bool :=
  (code =? 1) || (code =? 2) || (code =? 3).

(** ** The Tempo colour cache *)

(** A day of the colour API, as far as the code reads it: a [dict] that
    may hold [dateJour] and [codeJour] (an integer, as the API gives it). *)
Record tempo_day : Type := mk_tempo_day {
  dateJour : option string;
  codeJour : option Z
}.

(** What [response.json()] gives: a [dict], or JSON of another shape. *)
Inductive json : Type :=
  | JNotDict
  | JDict (d : tempo_day).

Definition unknown_day (date_str : string) : tempo_day :=
  mk_tempo_day (Some date_str) (Some 0).

(** [price.get("codeJour", 0)] *)
Definition code_of (price : tempo_day) : Z := default 0 (codeJour price).

(** The test of the cache loop of [get_tempo_day] on one cached record. *)
Definition cache_usable (check_limit now : time) (date_str : string)
    (price : tempo_day) : bool :=
  let code_jour := code_of price in
  bool_decide (dateJour price = Some date_str)
  && (in_123 code_jour || ((code_jour =? 0) && time_ltb now check_limit)).

(** ** The coordinator and its surroundings *)

(** A row of [csv.DictReader]: a [dict] from the column names of the header
    to the fields of the line.  A field that the line does not have is
    [None] ([restval]), which is not a [str]. *)
Abbreviation row := (gmap string (option string)).

(** The bytes of a tariff table: text that [decode("utf-8")] and
    [csv.DictReader] turn into rows, or bytes that do not decode. *)
Inductive content : Type :=
  | Csv (rows : list row)
  | NotUtf8.

(** [config_entry]: [data] holds the contract, [options] may hold the
    refresh interval and the off-peak schedule. *)
Record config : Type := mk_config {
  contract_type : string;
  contract_power : string;
  refresh_interval : option Z;
  off_peak_hours_ranges : option string
}.

(** What one cycle finds outside: each reading [dt_util.now()] of the clock,
    named after the place that reads it, and the answers of the network. *)
Record env : Type := mk_env {
  now_limit : datetime;            (* fresh_data_limit *)
  now_csv : datetime;              (* today, in _parse_tariff_csv *)
  now_refresh : datetime;          (* the new last_refresh_at *)
  now_tempo : datetime;            (* today_date *)
  now_cache_yesterday : datetime;  (* get_tempo_day(yesterday) *)
  now_cache_today : datetime;      (* get_tempo_day(today_date) *)
  now_cache_tomorrow : datetime;   (* get_tempo_day(tomorrow) *)
  now_day_start : datetime;        (* the test against TEMPO_DAY_START_AT *)
  now_off_peak : datetime;         (* the off-peak test *)
  http_csv : string -> outcome content;
  http_json : string -> outcome json
}.

Section Engine.

Context {F : PyFloat} (K : Const).

(** The values of the snapshot [self.data]. *)
Inductive value : Type :=
  | VNone
  | VStr (s : string)
  | VFloat (x : float)
  | VBool (b : bool)
  | VDatetime (t : datetime).

(** [d.get(k)] *)
Definition dget (d : gmap string value) (k : string) : value :=
  default VNone (d !! k).

(** [v == s] for a [str] [s] *)
Definition is_str (v : value) (s : string) : bool :=
  match v with
  | VStr s' => String.eqb s' s
  | _ => false
  end.

(** [v is not None] *)
Definition is_not_none (v : value) : bool :=
  match v with
  | VNone => false
  | _ => true
  end.

(** [k in d] *)
Definition has_key (d : gmap string value) (k : string) : bool :=
  match d !! k with
  | Some _ => true
  | None => false
  end.

(** The coordinator: [self.data] ([None] until the first cycle),
    [self.tempo_prices], the two fields of the in-memory fallback, and the
    URLs that [_async_fetch_url] was asked for, oldest first. *)
Record coordinator : Type := mk_coordinator {
  data : option (gmap string value);
  tempo_prices : list tempo_day;
  _previous_demain_color : option string;
  _previous_demain_date : option date;
  requests : list string
}.

Definition the_data (st : coordinator) : gmap string value :=
  default ∅ (data st).

Definition set_data (d : gmap string value) (st : coordinator) : coordinator :=
  mk_coordinator (Some d) (tempo_prices st) (_previous_demain_color st)
    (_previous_demain_date st) (requests st).

Definition log_request (url : string) (st : coordinator) : coordinator :=
  mk_coordinator (data st) (tempo_prices st) (_previous_demain_color st)
    (_previous_demain_date st) (requests st ++ [url]).

Definition append_price (price : tempo_day) (st : coordinator) : coordinator :=
  mk_coordinator (data st) (tempo_prices st ++ [price])
    (_previous_demain_color st) (_previous_demain_date st) (requests st).

Definition set_previous_demain (color : string) (d : date) (st : coordinator)
    : coordinator :=
  mk_coordinator (data st) (tempo_prices st) (Some color) (Some d)
    (requests st).

(** [__init__] *)
Definition init_coordinator : coordinator :=
  mk_coordinator None [] None None [].

(** *** [get_tempo_day] *)

Definition get_tempo_day (E : env) (clock : datetime) (target_date : date)
    (st : coordinator) : outcome tempo_day * coordinator :=
  let date_str := isoformat target_date in
  let now := dt_time clock in
  let check_limit := TEMPO_TOMRROW_AVAILABLE_AT K in
  (* Check cache first *)
  match find (cache_usable check_limit now date_str) (tempo_prices st) with
  | Some price => (Return price, st)
  | None =>
      (* Fetch from API *)
      let url := TEMPO_COLOR_API_URL K +:+ "/" +:+ date_str in
      let st := log_request url st in
      match http_json E url with
      | Return response_json =>
          (* Validate response *)
          let response_json :=
            match response_json with
            | JNotDict => unknown_day date_str
            | JDict d =>
                match codeJour d with
                | None => unknown_day date_str
                | Some _ => d
                end
            end in
          (* Ensure dateJour is set *)
          let response_json :=
            match dateJour response_json with
            | None => mk_tempo_day (Some date_str) (codeJour response_json)
            | Some _ => response_json
            end in
          (* Cache the result *)
          (Return response_json, append_price response_json st)
      | Raise ClientError => (Return (unknown_day date_str), st)
      | Raise _ => (Return (unknown_day date_str), st)
      end
  end.

(** *** [_parse_tariff_csv] *)

(** [row.get(key, default)]: the field, which may be [None], or the
    default. *)
Definition cell_get (r : row) (key : string) (default : option string)
    : option string :=
  match r !! key with
  | Some c => c
  | None => default
  end.

(** The two variables of the loop. *)
Record best : Type := mk_best {
  best_match : option row;
  best_date : option date
}.

(** The body of the [try] for one row.  [.strip()] on a field that is
    [None] raises [AttributeError]; [str_to_date] raises [ValueError]. *)
Definition row_body (today : date) (contract_power : string) (b : best)
    (r : row) : outcome best :=
  match cell_get r "DATE_DEBUT" (Some "") with
  | None => Raise AttributeError
  | Some c =>
      let date_debut := strip c in
      match cell_get r "P_SOUSCRITE" (cell_get r "PUISSANCE" (Some "")) with
      | None => Raise AttributeError
      | Some p =>
          let puissance := strip p in
          if negb (nonempty date_debut)
             || negb (String.eqb puissance contract_power)
          then Return b
          else
            match str_to_date date_debut with
            | None => Raise ValueError
            | Some start_date =>
                if date_gtb start_date today then Return b
                else
                  match cell_get r "DATE_FIN" (Some "") with
                  | None => Raise AttributeError
                  | Some f =>
                      let date_fin := strip f in
                      let expired :=
                        if nonempty date_fin then
                          match str_to_date date_fin with
                          | None => Raise ValueError
                          | Some end_date => Return (date_ltb end_date today)
                          end
                        else Return false in
                      match expired with
                      | Raise e => Raise e
                      | Return true => Return b
                      | Return false =>
                          if match best_date b with
                             | None => true
                             | Some bd => date_gtb start_date bd
                             end
                          then Return (mk_best (Some r) (Some start_date))
                          else Return b
                      end
                  end
            end
      end
  end.

(** One turn of the loop: [except (ValueError, KeyError): continue]. *)
Definition row_step (today : date) (contract_power : string) (b : best)
    (r : row) : outcome best :=
  match row_body today contract_power b r with
  | Raise ValueError => Return b
  | Raise KeyError => Return b
  | o => o
  end.

Fixpoint rows_loop (today : date) (contract_power : string) (b : best)
    (rows : list row) : outcome best :=
  match rows with
  | [] => Return b
  | r :: rows' =>
      match row_step today contract_power b r with
      | Return b' => rows_loop today contract_power b' rows'
      | Raise e => Raise e
      end
  end.

(** [parse_price] *)
Definition parse_price (v : option string) : outcome float :=
  match v with
  | None => Return float_zero
  | Some s =>
      if nonempty s then
        match float_of_str (replace_comma s) with
        | Some x => Return x
        | None => Raise ValueError
        end
      else Return float_zero
  end.

(** [result[key] = parse_price(best_match.get(column, "0"))], for each
    [(key, column)] in turn. *)
Fixpoint parse_fields (best_match : row) (fields : list (string * string))
    (result : gmap string value) : outcome (gmap string value) :=
  match fields with
  | [] => Return result
  | (key, column) :: fields' =>
      match parse_price (cell_get best_match column (Some "0")) with
      | Return x => parse_fields best_match fields' (<[key := VFloat x]> result)
      | Raise e => Raise e
      end
  end.

(** [result[abonnement] = result[fixe] / 12] *)
Definition add_abonnement (fixe abonnement : string)
    (result : gmap string value) : gmap string value :=
  match result !! fixe with
  | Some (VFloat x) => <[abonnement := VFloat (float_div x 12)]> result
  | _ => result
  end.

Definition BASE_FIELDS : list (string * string) :=
  [("base_fixe_ttc", "PART_FIXE_TTC");
   ("base_variable_ttc", "PART_VARIABLE_TTC")].

Definition HPHC_FIELDS : list (string * string) :=
  [("hphc_fixe_ttc", "PART_FIXE_TTC");
   ("hphc_variable_hc_ttc", "PART_VARIABLE_HC_TTC");
   ("hphc_variable_hp_ttc", "PART_VARIABLE_HP_TTC")].

Definition TEMPO_FIELDS : list (string * string) :=
  [("tempo_fixe_ttc", "PART_FIXE_TTC");
   ("tempo_variable_hc_bleu_ttc", "PART_VARIABLE_HCBleu_TTC");
   ("tempo_variable_hp_bleu_ttc", "PART_VARIABLE_HPBleu_TTC");
   ("tempo_variable_hc_blanc_ttc", "PART_VARIABLE_HCBlanc_TTC");
   ("tempo_variable_hp_blanc_ttc", "PART_VARIABLE_HPBlanc_TTC");
   ("tempo_variable_hc_rouge_ttc", "PART_VARIABLE_HCRouge_TTC");
   ("tempo_variable_hp_rouge_ttc", "PART_VARIABLE_HPRouge_TTC")].

(** The rates of the winning row, by contract type. *)
Definition extract_rates (best_match : row) (contract_type : string)
    : outcome (gmap string value) :=
  if String.eqb contract_type CONTRACT_TYPE_BASE then
    match parse_fields best_match BASE_FIELDS ∅ with
    | Return result =>
        Return (add_abonnement "base_fixe_ttc" "base_abonnement_ttc" result)
    | Raise e => Raise e
    end
  else if String.eqb contract_type CONTRACT_TYPE_HPHC then
    match parse_fields best_match HPHC_FIELDS ∅ with
    | Return result =>
        Return (add_abonnement "hphc_fixe_ttc" "hphc_abonnement_ttc" result)
    | Raise e => Raise e
    end
  else if String.eqb contract_type CONTRACT_TYPE_TEMPO then
    match parse_fields best_match TEMPO_FIELDS ∅ with
    | Return result =>
        Return (add_abonnement "tempo_fixe_ttc" "tempo_abonnement_ttc" result)
    | Raise e => Raise e
    end
  else Return ∅.

(** The row that the loop of [_parse_tariff_csv] selects. *)
Definition select_row (today : date) (contract_power : string)
    (rows : list row) : outcome (option row) :=
  match rows_loop today contract_power (mk_best None None) rows with
  | Return b => Return (best_match b)
  | Raise e => Raise e
  end.

Definition _parse_tariff_csv (today : date) (c : content)
    (contract_power contract_type : string)
    : outcome (option (gmap string value)) :=
  match c with
  | NotUtf8 => Raise ValueError      (* UnicodeDecodeError *)
  | Csv rows =>
      match select_row today contract_power rows with
      | Raise e => Raise e
      | Return None => Return None
      | Return (Some best_match) =>
          match extract_rates best_match contract_type with
          | Return result => Return (Some result)
          | Raise e => Raise e
          end
      end
  end.

(** *** [_get_color_code_from_name] *)

Fixpoint code_from_name (m : list (Z * string)) (color_name : value) : Z :=
  match m with
  | [] => 0
  | (code, name) :: m' =>
      if is_str color_name name then code else code_from_name m' color_name
  end.

Definition _get_color_code_from_name (color_name : value) : Z :=
  code_from_name TEMPO_COLORS_MAPPING color_name.

(** *** [_async_update_data] *)

(** The snapshot of a coordinator that has none yet. *)
Definition initial_data (cfg : config) : gmap string value :=
  <["tarif_actuel_ttc" := VNone]>
    (<["last_refresh_at" := VNone]>
       (<["contract_type" := VStr (contract_type cfg)]>
          (<["contract_power" := VStr (contract_power cfg)]> ∅))).

Definition ensure_data (cfg : config) (st : coordinator) : coordinator :=
  match data st with
  | None => set_data (initial_data cfg) st
  | Some _ => st
  end.

(** [tarif_needs_update]; comparing something that is no [datetime] with
    [fresh_data_limit] raises [TypeError]. *)
Definition tarif_needs_update (d : gmap string value) (fresh_data_limit : Z)
    : outcome bool :=
  match dget d "last_refresh_at" with
  | VNone => Return true
  | VDatetime t => Return (instant t <? fresh_data_limit)
  | _ => Raise TypeError
  end.

(** The URL of the table of a contract type; [None] where the source
    raises [UpdateFailed]. *)
Definition tarif_url (contract_type : string) : option string :=
  if String.eqb contract_type CONTRACT_TYPE_BASE then Some (TARIF_BASE_URL K)
  else if String.eqb contract_type CONTRACT_TYPE_HPHC then Some (TARIF_HPHC_URL K)
  else if String.eqb contract_type CONTRACT_TYPE_TEMPO then Some (TARIF_TEMPO_URL K)
  else None.

(** Python truthiness of the result of [_parse_tariff_csv]. *)
Definition truthy_rates (rates : option (gmap string value)) : bool :=
  match rates with
  | None => false
  | Some r => negb (bool_decide (map_to_list r = []))
  end.

(** [fresh_data_limit = dt_util.now() - timedelta(days=refresh_interval)],
    as an instant.  The statement stands outside every [try]: the
    [OverflowError] of a [timedelta] of too many days, and that of a limit
    outside the dates of the calendar, leave the cycle. *)
Definition fresh_data_limit (cfg : config) (E : env) : outcome Z :=
  match timedelta_days
          (default (DEFAULT_REFRESH_INTERVAL K) (refresh_interval cfg)) with
  | Return days => datetime_sub_days (now_limit E) days
  | Raise e => Raise e
  end.

(** The limit, then the test against it: the statements from
    [refresh_interval = ...] to [tarif_needs_update = ...]. *)
Definition needs_update (cfg : config) (E : env) (d : gmap string value)
    : outcome bool :=
  match fresh_data_limit cfg E with
  | Return limit => tarif_needs_update d limit
  | Raise e => Raise e
  end.

(** The two first statements of the [try] of the refresh: the table is
    fetched, then resolved. *)
Definition fetch_rates (cfg : config) (E : env) (url : string)
    : outcome (option (gmap string value)) :=
  match http_csv E url with
  | Return c =>
      _parse_tariff_csv (dt_date (now_csv E)) c
        (contract_power cfg) (contract_type cfg)
  | Raise e => Raise e
  end.

(** The refresh of the tariff table: from [refresh_interval = ...] to the
    end of [if tarif_needs_update:]. *)
Definition refresh_step (cfg : config) (E : env) (st : coordinator)
    : outcome unit * coordinator :=
  match needs_update cfg E (the_data st) with
  | Raise e => (Raise e, st)
  | Return false => (Return tt, st)
  | Return true =>
      match tarif_url (contract_type cfg) with
      | None => (Raise UpdateFailed, st)
      | Some url =>
          let st := log_request url st in
          match fetch_rates cfg E url with
          | Return rates =>
              if truthy_rates rates then
                (Return tt,
                 set_data
                   (<["last_refresh_at" := VDatetime (now_refresh E)]>
                      (default ∅ rates ∪ the_data st)) st)
              else (Return tt, st)
          | Raise ClientError => (Raise UpdateFailed, st)
          | Raise _ => (Raise UpdateFailed, st)
          end
      end
  end.

(** The colour of today after the fallbacks: the [if today_color ==
    "indéterminé":] of the source. *)
Definition resolve_today (today_date : date) (today_color : string)
    (st : coordinator) : value :=
  if String.eqb today_color INDETERMINE then
    if match _previous_demain_date st with
       | Some d => date_eqb d today_date
       | None => false
       end
       && match _previous_demain_color st with
          | Some c => negb (String.eqb c INDETERMINE)
          | None => false
          end
    then VStr (default INDETERMINE (_previous_demain_color st))
    else if is_not_none (dget (the_data st) "_fallback_today_color")
            && is_str (dget (the_data st) "_fallback_today_date")
                 (isoformat today_date)
    then dget (the_data st) "_fallback_today_color"
    else VStr today_color
  else VStr today_color.

(** [if tomorrow_color != "indéterminé":], the store of the next fallback. *)
Definition store_fallback (tomorrow : date) (tomorrow_color : string)
    (st : coordinator) : coordinator :=
  if negb (String.eqb tomorrow_color INDETERMINE) then
    let st := set_previous_demain tomorrow_color tomorrow st in
    set_data
      (<["_fallback_today_date" := VStr (isoformat tomorrow)]>
         (<["_fallback_today_color" := VStr tomorrow_color]> (the_data st)))
      st
  else st.

(** [f"tempo_variable_hp_{color}_ttc"] and [f"tempo_variable_hc_{color}_ttc"] *)
Definition tempo_hp_key (color : string) : string :=
  "tempo_variable_hp_" +:+ color +:+ "_ttc".
Definition tempo_hc_key (color : string) : string :=
  "tempo_variable_hc_" +:+ color +:+ "_ttc".

(** [# Set current Tempo rates] *)
Definition set_current_rates (current_color_code : Z)
    (d : gmap string value) : gmap string value :=
  if in_123 current_color_code then
    let color := get_tempo_color_from_code current_color_code in
    let d := <["tempo_couleur" := VStr color]> d in
    let hp_key := tempo_hp_key color in
    let hc_key := tempo_hc_key color in
    if has_key d hp_key && has_key d hc_key then
      let d := <["tempo_variable_hp_ttc" := dget d hp_key]> d in
      <["tempo_variable_hc_ttc" := dget d hc_key]> d
    else d
  else
    let d := <["tempo_couleur" := VStr INDETERMINE]> d in
    let d :=
      if has_key d "tempo_variable_hp_ttc" then d
      else <["tempo_variable_hp_ttc" := VNone]> d in
    if has_key d "tempo_variable_hc_ttc" then d
    else <["tempo_variable_hc_ttc" := VNone]> d.

(** The [try] of the Tempo part after its three calls of [get_tempo_day]:
    from [yesterday_color = ...] to the end of [# Set current Tempo rates]. *)
Definition tempo_resolve (E : env) (today_date tomorrow : date)
    (tempo_yesterday tempo_today tempo_tomorrow : tempo_day)
    (st : coordinator) : coordinator :=
  let yesterday_color := get_tempo_color_from_code (code_of tempo_yesterday) in
  let today_color := get_tempo_color_from_code (code_of tempo_today) in
  let tomorrow_color := get_tempo_color_from_code (code_of tempo_tomorrow) in
  let st :=
    set_data
      (<["tempo_couleur_demain" := VStr tomorrow_color]>
         (<["tempo_couleur_hier" := VStr yesterday_color]> (the_data st)))
      st in
  let today_color := resolve_today today_date today_color st in
  let st :=
    set_data (<["tempo_couleur_aujourdhui" := today_color]> (the_data st)) st in
  let st := store_fallback tomorrow tomorrow_color st in
  (* Determine current color based on time of day *)
  let current_color_code :=
    if time_geb (dt_time (now_day_start E)) (TEMPO_DAY_START_AT K)
    then _get_color_code_from_name today_color
    else code_of tempo_yesterday in
  set_data (set_current_rates current_color_code (the_data st)) st.

(** The body of the [try] of the Tempo part. *)
Definition tempo_body (E : env) (yesterday today_date tomorrow : date)
    (st : coordinator) : outcome unit * coordinator :=
  match get_tempo_day E (now_cache_yesterday E) yesterday st with
  | (Raise e, st) => (Raise e, st)
  | (Return tempo_yesterday, st) =>
  match get_tempo_day E (now_cache_today E) today_date st with
  | (Raise e, st) => (Raise e, st)
  | (Return tempo_today, st) =>
  match get_tempo_day E (now_cache_tomorrow E) tomorrow st with
  | (Raise e, st) => (Raise e, st)
  | (Return tempo_tomorrow, st) =>
      (Return tt,
       tempo_resolve E today_date tomorrow
         tempo_yesterday tempo_today tempo_tomorrow st)
  end end end.

(** [d.setdefault(k, v)] *)
Definition setdefault (k : string) (v : value) (d : gmap string value)
    : gmap string value :=
  if has_key d k then d else <[k := v]> d.

(** The [except Exception:] of the Tempo part. *)
Definition tempo_defaults (d : gmap string value) : gmap string value :=
  setdefault "tempo_variable_hc_ttc" VNone
    (setdefault "tempo_variable_hp_ttc" VNone
       (setdefault "tempo_couleur_demain" (VStr INDETERMINE)
          (setdefault "tempo_couleur_aujourdhui" (VStr INDETERMINE)
             (setdefault "tempo_couleur_hier" (VStr INDETERMINE)
                (setdefault "tempo_couleur" (VStr INDETERMINE) d))))).

(** [# Handle Tempo-specific data]; the two dates next to today are
    computed before the [try]. *)
Definition tempo_step (E : env) (st : coordinator)
    : outcome unit * coordinator :=
  let today_date := dt_date (now_tempo E) in
  match date_sub_day today_date, date_add_day today_date with
  | Some yesterday, Some tomorrow =>
      match tempo_body E yesterday today_date tomorrow st with
      | (Return _, st) => (Return tt, st)
      | (Raise _, st) => (Return tt, set_data (tempo_defaults (the_data st)) st)
      end
  | _, _ => (Raise OverflowError, st)
  end.

(** [# Calculate current tariff based on time of day] *)
Definition offpeak_step (cfg : config) (E : env) (st : coordinator)
    : outcome unit * coordinator :=
  let d := the_data st in
  let default_offpeak_hours :=
    if String.eqb (contract_type cfg) CONTRACT_TYPE_TEMPO
    then Some (TEMPO_OFFPEAK_HOURS K) else None in
  let off_peak_hours_ranges :=
    match off_peak_hours_ranges cfg with
    | Some s => Some s
    | None => default_offpeak_hours
    end in
  if String.eqb (contract_type cfg) CONTRACT_TYPE_BASE then
    (Return tt,
     set_data
       (<["is_off_peak" := VBool false]>
          (<["tarif_actuel_ttc" := dget d "base_variable_ttc"]> d)) st)
  else if String.eqb (contract_type cfg) CONTRACT_TYPE_HPHC
          || String.eqb (contract_type cfg) CONTRACT_TYPE_TEMPO then
    let contract_type_key :=
      if String.eqb (contract_type cfg) CONTRACT_TYPE_HPHC
      then "hphc" else "tempo" in
    let hp_key := contract_type_key +:+ "_variable_hp_ttc" in
    let hc_key := contract_type_key +:+ "_variable_hc_ttc" in
    let in_off_peak :=
      match off_peak_hours_ranges with
      | Some s =>
          if nonempty s
          then scan_ranges (dt_time (now_off_peak E)) (split "," s)
          else Return false
      | None => Return false
      end in
    match in_off_peak with
    | Raise e => (Raise e, st)
    | Return is_off_peak =>
        let tarif_actuel := if is_off_peak then dget d hc_key else dget d hp_key in
        (Return tt,
         set_data
           (<["is_off_peak" := VBool is_off_peak]>
              (<["tarif_actuel_ttc" := tarif_actuel]> d)) st)
    end
  else (Return tt, st).

Definition _async_update_data (cfg : config) (E : env) (st : coordinator)
    : outcome (gmap string value) * coordinator :=
  let st := ensure_data cfg st in
  match refresh_step cfg E st with
  | (Raise e, st) => (Raise e, st)
  | (Return _, st) =>
      match (if String.eqb (contract_type cfg) CONTRACT_TYPE_TEMPO
             then tempo_step E st else (Return tt, st)) with
      | (Raise e, st) => (Raise e, st)
      | (Return _, st) =>
          match offpeak_step cfg E st with
          | (Raise e, st) => (Raise e, st)
          | (Return _, st) => (Return (the_data st), st)
          end
      end
  end.

(** ** Notions of the specification *)

(** *** The colour cache *)

(** A colour code is known when it is 1, 2 or 3. *)
Definition known (code : Z) : Prop := code = 1 \/ code = 2 \/ code = 3.

(** A cached record can be served for a date at a clock time: it is a
    record of that date, and its colour is known, or it is unknown and the
    clock is before the time at which tomorrow's colour is available. *)
Definition servable (now : time) (date_str : string) (p : tempo_day) : Prop :=
  dateJour p = Some date_str
  /\ (known (code_of p)
      \/ (code_of p = 0 /\ (now < TEMPO_TOMRROW_AVAILABLE_AT K)%time)).

(** [p] is the first record of the cache that can be served. *)
Definition first_servable (now : time) (date_str : string)
    (cache : list tempo_day) (p : tempo_day) : Prop :=
  exists l1 l2,
    cache = (l1 ++ p :: l2)%list
    /\ servable now date_str p
    /\ Forall (fun q => ~ servable now date_str q) l1.

(** A response of the colour API is malformed when it is no [dict] or has
    no [codeJour]. *)
Definition malformed (j : json) : Prop :=
  j = JNotDict \/ exists d, j = JDict d /\ codeJour d = None.

(** The URL that [get_tempo_day] asks for. *)
Definition tempo_url (target_date : date) : string :=
  TEMPO_COLOR_API_URL K +:+ "/" +:+ isoformat target_date.

(** *** The tariff table *)

(** A row is whole when the three fields that the resolver strips are
    text: the line was not shorter than the header. *)
Definition whole (r : row) : Prop :=
  is_Some (cell_get r "DATE_DEBUT" (Some ""))
  /\ is_Some (cell_get r "P_SOUSCRITE" (cell_get r "PUISSANCE" (Some "")))
  /\ is_Some (cell_get r "DATE_FIN" (Some "")).

(** The text of a field, without the white space around it. *)
Definition date_debut_of (r : row) : string :=
  strip (default "" (cell_get r "DATE_DEBUT" (Some ""))).
Definition puissance_of (r : row) : string :=
  strip (default "" (cell_get r "P_SOUSCRITE" (cell_get r "PUISSANCE" (Some "")))).
Definition date_fin_of (r : row) : string :=
  strip (default "" (cell_get r "DATE_FIN" (Some ""))).

Definition date_le (a b : date) : Prop := date_leb a b = true.
Definition date_lt (a b : date) : Prop := date_ltb a b = true.

(** A row is a candidate, with start date [s]: its start-date field is not
    empty, its power is the target power, its start date is [s], no later
    than today, and its end date is absent or no earlier than today. *)
Definition candidate (today : date) (power : string) (r : row) (s : date)
    : Prop :=
  date_debut_of r <> ""
  /\ puissance_of r = power
  /\ str_to_date (date_debut_of r) = Some s
  /\ date_le s today
  /\ (date_fin_of r = ""
      \/ exists e, str_to_date (date_fin_of r) = Some e /\ date_le today e).

(** The same, as a function: the start date of a candidate. *)
Definition candidate_start (today : date) (power : string) (r : row)
    : option date :=
  if nonempty (date_debut_of r) && String.eqb (puissance_of r) power then
    match str_to_date (date_debut_of r) with
    | Some s =>
        if date_leb s today then
          if nonempty (date_fin_of r) then
            match str_to_date (date_fin_of r) with
            | Some e => if date_leb today e then Some s else None
            | None => None
            end
          else Some s
        else None
    | None => None
    end
  else None.

(** [r] is the candidate with the latest start date, the first one in file
    order among those that start on that date. *)
Definition latest_first (today : date) (power : string) (rows : list row)
    (r : row) : Prop :=
  exists l1 l2 s,
    rows = (l1 ++ r :: l2)%list
    /\ candidate today power r s
    /\ (forall r' s', r' ∈ l1 -> candidate today power r' s' -> date_lt s' s)
    /\ (forall r' s', r' ∈ l2 -> candidate today power r' s' -> date_le s' s).

(** [r] is the candidate with the latest start date, the last one in file
    order among those that start on that date. *)
Definition latest_last (today : date) (power : string) (rows : list row)
    (r : row) : Prop :=
  exists l1 l2 s,
    rows = (l1 ++ r :: l2)%list
    /\ candidate today power r s
    /\ (forall r' s', r' ∈ l1 -> candidate today power r' s' -> date_le s' s)
    /\ (forall r' s', r' ∈ l2 -> candidate today power r' s' -> date_lt s' s).

Definition no_candidate (today : date) (power : string) (rows : list row)
    : Prop :=
  forall r s, r ∈ rows -> ~ candidate today power r s.

(** What the loop does with the start date of a candidate. *)
Definition keep_latest (b : best) (r : row) (s : date) : best :=
  if match best_date b with
     | None => true
     | Some bd => date_gtb s bd
     end
  then mk_best (Some r) (Some s) else b.

(** What the loop has found in the rows it has read. *)
Definition found (today : date) (power : string) (seen : list row) (b : best)
    : Prop :=
  match best_match b, best_date b with
  | None, None => no_candidate today power seen
  | Some r, Some s =>
      exists l1 l2,
        seen = (l1 ++ r :: l2)%list
        /\ candidate today power r s
        /\ (forall r' s', r' ∈ l1 -> candidate today power r' s' -> date_lt s' s)
        /\ (forall r' s', r' ∈ l2 -> candidate today power r' s' -> date_le s' s)
  | _, _ => False
  end.

(** *** The refresh cycle *)

(** The fields of the snapshot that come from the tariff table: the rates
    of the three contract types and the time of the last refresh. *)
Definition TABLE_FIELDS : list string :=
  ["last_refresh_at"; "base_abonnement_ttc"; "hphc_abonnement_ttc";
   "tempo_abonnement_ttc"]
  ++ map fst BASE_FIELDS ++ map fst HPHC_FIELDS ++ map fst TEMPO_FIELDS.

(** A refresh of the table is due at the start of a cycle. *)
Definition refresh_due (cfg : config) (E : env) (st : coordinator) : Prop :=
  needs_update cfg E (the_data (ensure_data cfg st))
  = Return true.

(** The table is fresh at the start of a cycle. *)
Definition refresh_not_due (cfg : config) (E : env) (st : coordinator) : Prop :=
  needs_update cfg E (the_data (ensure_data cfg st))
  = Return false.

Definition known_contract_type (t : string) : Prop :=
  t = CONTRACT_TYPE_BASE \/ t = CONTRACT_TYPE_HPHC \/ t = CONTRACT_TYPE_TEMPO.

(** The fields that the Tempo part and the off-peak part write. *)
Definition TEMPO_WRITTEN : list string :=
  ["tempo_couleur_hier"; "tempo_couleur_demain"; "tempo_couleur_aujourdhui";
   "_fallback_today_color"; "_fallback_today_date"; "tempo_couleur";
   "tempo_variable_hp_ttc"; "tempo_variable_hc_ttc"].

Definition OFFPEAK_WRITTEN : list string :=
  ["tarif_actuel_ttc"; "is_off_peak"].

(** *** The states that cycles reach *)

Inductive reachable : coordinator -> Prop :=
  | reachable_init : reachable init_coordinator
  | reachable_cycle (cfg : config) (E : env) (st : coordinator) :
      reachable st -> reachable (_async_update_data cfg E st).2.

Definition COLORS : list string := ["bleu"; "blanc"; "rouge"].

(** [d.get(k)] is [None] *)
Definition is_none (v : value) : bool := negb (is_not_none v).

(** The in-memory fallback has a date only together with a colour. *)
Definition memory_ok (st : coordinator) : bool :=
  match _previous_demain_date st with
  | Some _ =>
      match _previous_demain_color st with
      | Some c => negb (String.eqb c INDETERMINE)
      | None => false
      end
  | None => true
  end.

(** The snapshot has a fallback date only together with a fallback
    colour. *)
Definition snapshot_ok (d : gmap string value) : bool :=
  if has_key d "_fallback_today_date"
  then is_not_none (dget d "_fallback_today_color")
  else true.

(** The snapshot has the rates of all colours, or of none, and then no
    current rates either. *)
Definition all_rates (d : gmap string value) : bool :=
  forallb (fun c => has_key d (tempo_hp_key c) && has_key d (tempo_hc_key c))
    COLORS.

Definition no_rates (d : gmap string value) : bool :=
  forallb
    (fun c => negb (has_key d (tempo_hp_key c))
              && negb (has_key d (tempo_hc_key c)))
    COLORS.

Definition rates_ok (d : gmap string value) : bool :=
  all_rates d
  || (no_rates d
      && is_none (dget d "tempo_variable_hp_ttc")
      && is_none (dget d "tempo_variable_hc_ttc")).

Definition inv (st : coordinator) : bool :=
  memory_ok st && snapshot_ok (the_data st) && rates_ok (the_data st).

(** The fields on which [snapshot_ok] and [rates_ok] depend. *)
Definition WATCHED : list string :=
  ["_fallback_today_color"; "_fallback_today_date";
   "tempo_variable_hp_ttc"; "tempo_variable_hc_ttc"]
  ++ map tempo_hp_key COLORS ++ map tempo_hc_key COLORS.

(** *** The off-peak schedule *)

(** The strict reading of the pattern: the whole string matches it. *)
Fixpoint re_fullmatch (r : regex) (s : string) : bool :=
  match s with
  | EmptyString => nullable r
  | String a s' => re_fullmatch (deriv a r) s'
  end.

(** An entry of the schedule is read as the range from [start] to [end_]:
    without the white space around it, it passes the pattern, and its two
    first pieces are the two times. *)
Definition entry_range (entry : string) (start end_ : time) : Prop :=
  re_match RANGE_PATTERN (strip entry) = true
  /\ exists h0 h1 rest,
       split "-" (strip entry) = h0 :: h1 :: rest
       /\ str_to_time h0 = Some start
       /\ str_to_time h1 = Some end_.

(** An entry is sound when it fails the pattern or is read as a range. *)
Definition entry_sound (entry : string) : Prop :=
  re_match RANGE_PATTERN (strip entry) = false
  \/ exists start end_, entry_range entry start end_.

(** The clock is within some range of the schedule. *)
Definition within_schedule (now : time) (entries : list string) : Prop :=
  exists entry start end_,
    entry ∈ entries
    /\ entry_range entry start end_
    /\ time_in_between now start end_ = true.

(** The schedule of a cycle: the option, or the default of the contract
    type. *)
Definition schedule_of (cfg : config) : option string :=
  match off_peak_hours_ranges cfg with
  | Some s => Some s
  | None =>
      if String.eqb (contract_type cfg) CONTRACT_TYPE_TEMPO
      then Some (TEMPO_OFFPEAK_HOURS K) else None
  end.

(** Two states agree on the in-memory fallback. *)
Definition same_memory (st st' : coordinator) : Prop :=
  _previous_demain_color st' = _previous_demain_color st
  /\ _previous_demain_date st' = _previous_demain_date st.

(** Two states agree on the snapshot and on the in-memory fallback. *)
Definition same_store (st st' : coordinator) : Prop :=
  data st' = data st /\ same_memory st st'.

(** *** The Tempo part, step by step *)

(** The snapshot after the three colours are written. *)
Definition colours_written (today_date : date) (ty tt_ tm : tempo_day)
    (st : coordinator) : gmap string value :=
  <["tempo_couleur_aujourdhui" :=
      resolve_today today_date (get_tempo_color_from_code (code_of tt_)) st]>
    (<["tempo_couleur_demain" := VStr (get_tempo_color_from_code (code_of tm))]>
       (<["tempo_couleur_hier" := VStr (get_tempo_color_from_code (code_of ty))]>
          (the_data st))).

(** The code of the effective current colour: that of today's colour after
    the fallbacks from the start of the Tempo day on, that of yesterday's
    record before. *)
Definition effective_code (E : env) (today_color : value) (ty : tempo_day) : Z :=
  if time_geb (dt_time (now_day_start E)) (TEMPO_DAY_START_AT K)
  then _get_color_code_from_name today_color
  else code_of ty.

End Engine.

(** ** Data of the examples *)

(** Floats of the examples: the text that was read, divisions left as they
    are written. *)
Inductive sym_float : Type :=
  | Lit (s : string)
  | Div (x : sym_float) (n : Z)
  | Zero.

Definition all_numeric (s : string) : bool :=
  forallb
    (fun a =>
       match digit a with
       | Some _ => true
       | None => Ascii.eqb a "."%char
       end)
    (chars s).

Definition F0 : PyFloat := {|
  float := sym_float;
  float_of_str s := if all_numeric s then Some (Lit s) else None;
  float_div := Div;
  float_zero := Zero
|}.

Definition K0 : Const := {|
  DEFAULT_REFRESH_INTERVAL := 1;
  TARIF_BASE_URL := "https://tarifs.example/base.csv";
  TARIF_HPHC_URL := "https://tarifs.example/hphc.csv";
  TARIF_TEMPO_URL := "https://tarifs.example/tempo.csv";
  TEMPO_COLOR_API_URL := "https://couleur.example/jourTempo";
  TEMPO_DAY_START_AT := mk_time 6 0 0 0;
  TEMPO_TOMRROW_AVAILABLE_AT := mk_time 11 0 0 0;
  TEMPO_OFFPEAK_HOURS := "22:00-06:00"
|}.

(** A line of a table, from the names of its columns and its fields. *)
Definition line (l : list (string * string)) : row :=
  list_to_map (map (fun p => (p.1, Some p.2)) l).

(** The clock at [h]:[m] of a day, with no offset from UTC. *)
Definition at_time (d : date) (h m : Z) : datetime :=
  mk_datetime
    (((days_from_civil d * 24 + h) * 60 + m) * 60000000)
    d (mk_time h m 0 0).

(** A cycle in which every reading of the clock shows the same time. *)
Definition env_at (now : datetime) (csv : string -> outcome content)
    (api : string -> outcome json) : env :=
  mk_env now now now now now now now now now csv api.

Definition no_csv : string -> outcome content := fun _ => Raise ClientError.
Definition no_api : string -> outcome json := fun _ => Raise ClientError.

Definition day1 : date := mk_date 2024 7 1.
Definition day0 : date := mk_date 2024 6 30.
Definition day2 : date := mk_date 2024 7 2.

(** Two lines of a base table that start on the same day, and one that
    starts later. *)
Definition row_a : row :=
  line [("DATE_DEBUT", "01/02/2024"); ("DATE_FIN", ""); ("PUISSANCE", "6");
        ("PART_FIXE_TTC", "150,00"); ("PART_VARIABLE_TTC", "0,2516")].
Definition row_b : row :=
  line [("DATE_DEBUT", "01/02/2024"); ("DATE_FIN", ""); ("PUISSANCE", "6");
        ("PART_FIXE_TTC", "151,20"); ("PART_VARIABLE_TTC", "0,2276")].
Definition row_c : row :=
  line [("DATE_DEBUT", "01/06/2024"); ("DATE_FIN", ""); ("PUISSANCE", "6");
        ("PART_FIXE_TTC", "152,40"); ("PART_VARIABLE_TTC", "0,2016")].

(** A line of an hphc table and one of a tempo table. *)
Definition row_h : row :=
  line [("DATE_DEBUT", "01/02/2024"); ("DATE_FIN", ""); ("PUISSANCE", "6");
        ("PART_FIXE_TTC", "160,00"); ("PART_VARIABLE_HC_TTC", "0,2068");
        ("PART_VARIABLE_HP_TTC", "0,2700")].
Definition row_t : row :=
  line [("DATE_DEBUT", "01/02/2024"); ("DATE_FIN", ""); ("P_SOUSCRITE", "6");
        ("PART_FIXE_TTC", "155,00");
        ("PART_VARIABLE_HCBleu_TTC", "0,1296");
        ("PART_VARIABLE_HPBleu_TTC", "0,1609");
        ("PART_VARIABLE_HCBlanc_TTC", "0,1486");
        ("PART_VARIABLE_HPBlanc_TTC", "0,1894");
        ("PART_VARIABLE_HCRouge_TTC", "0,1568");
        ("PART_VARIABLE_HPRouge_TTC", "0,7562")].

Definition base_csv : string -> outcome content :=
  fun _ => Return (Csv [row_a; row_b; row_c]).
Definition hphc_csv : string -> outcome content :=
  fun _ => Return (Csv [row_h]).
Definition tempo_csv : string -> outcome content :=
  fun _ => Return (Csv [row_t]).

Definition cfg_base : config := mk_config "base" "6" None None.
Definition cfg_base_9 : config := mk_config "base" "9" None None.
Definition cfg_other : config := mk_config "autre" "6" None None.

(** Refresh intervals out of range: one day more than a [timedelta] holds,
    and from 2024-07-01, which is day 739068, to the day before the first
    day of the calendar; the interval that leads to that first day is in
    range. *)
Definition cfg_base_far : config :=
  mk_config "base" "6" (Some 1000000000) None.
Definition cfg_other_far : config :=
  mk_config "autre" "6" (Some 1000000000) None.
Definition cfg_base_early : config := mk_config "base" "6" (Some 739068) None.
Definition cfg_base_first : config := mk_config "base" "6" (Some 739067) None.
Definition cfg_hphc : config := mk_config "hphc" "6" None (Some "22:00-06:00").
Definition cfg_hphc_trailing : config :=
  mk_config "hphc" "6" None (Some "22:00-06:00x").
Definition cfg_tempo : config := mk_config "tempo" "6" None None.

(** The coordinator of a base contract after a first cycle, at noon. *)
Definition after_base_cycle : coordinator (F := F0) :=
  (_async_update_data K0 cfg_base
     (env_at (at_time day1 12 0) base_csv no_api) init_coordinator).2.

(** The colour API on three occasions: in the morning of 2024-06-30 it does
    not know the colour of the next day yet, at noon it gives it as red,
    and in the night that follows it knows no colour. *)
Definition api_morning : string -> outcome json :=
  fun url =>
    if String.eqb url "https://couleur.example/jourTempo/2024-07-01"
    then Return (JDict (mk_tempo_day (Some "2024-07-01") (Some 0)))
    else Return (JDict (mk_tempo_day None (Some 1))).
Definition api_noon : string -> outcome json :=
  fun url =>
    if String.eqb url "https://couleur.example/jourTempo/2024-07-01"
    then Return (JDict (mk_tempo_day (Some "2024-07-01") (Some 3)))
    else Return (JDict (mk_tempo_day None (Some 1))).
Definition api_night : string -> outcome json :=
  fun _ => Return (JDict (mk_tempo_day None (Some 0))).

(** A tempo contract on 2024-06-30 after its cycles of 10:00 and 12:00. *)
Definition after_morning : coordinator (F := F0) :=
  (_async_update_data K0 cfg_tempo
     (env_at (at_time day0 10 0) tempo_csv api_morning) init_coordinator).2.
Definition after_noon : coordinator (F := F0) :=
  (_async_update_data K0 cfg_tempo
     (env_at (at_time day0 12 0) tempo_csv api_noon) after_morning).2.

(** The cycle of 00:30 and the cycle of 23:00 on 2024-07-01. *)
Definition env_night : env :=
  env_at (at_time day1 0 30) tempo_csv api_night.
Definition env_evening : env :=
  env_at (at_time day1 23 0) tempo_csv api_night.

(** The cycle of 12:00 on 2024-06-30. *)
Definition env_noon : env :=
  env_at (at_time day0 12 0) tempo_csv api_noon.

(** A coordinator that starts from the snapshot that [after_noon] left: its
    colour cache and its in-memory fallback are as [__init__] sets them. *)
Definition carried_over : coordinator (F := F0) :=
  mk_coordinator (data after_noon) [] None None [].

(** What the two cycles of 2024-06-30 have asked for. *)
Definition asked_by_noon : list string :=
  ["https://tarifs.example/tempo.csv";
   "https://couleur.example/jourTempo/2024-06-29";
   "https://couleur.example/jourTempo/2024-06-30";
   "https://couleur.example/jourTempo/2024-07-01";
   "https://couleur.example/jourTempo/2024-07-01"].

(** ** The texts of a pattern *)

(** The texts that a pattern matches in whole. *)
Fixpoint matches (r : regex) (s : list ascii) : Prop :=
  match r with
  | Void => False
  | Eps => s = []
  | Rng lo hi => exists a, s = [a] /\ code lo <= code a <= code hi
  | Seq r1 r2 =>
      exists s1 s2, s = (s1 ++ s2)%list /\ matches r1 s1 /\ matches r2 s2
  | Alt r1 r2 => matches r1 s \/ matches r2 s
  end.

(** No character of the text is the separator. *)
Definition without (sep : ascii) (x : list ascii) : Prop :=
  Forall (fun a => Ascii.eqb a sep = false) x.

(** The characters of the text are decimal digits. *)
Definition digits (x : list ascii) : Prop :=
  Forall (fun a => 48 <= code a <= 57) x.

(** ** Further notions of the cycle *)

Section Notions.

Context {F : PyFloat} (K : Const).

(** [last_refresh_at] is [None] or a [datetime]: the test of
    [tarif_needs_update] can be made. *)
Definition stamp_ok (d : gmap string value) : bool :=
  match dget d "last_refresh_at" with
  | VNone | VDatetime _ => true
  | _ => false
  end.

(** The days whose colour a cycle asks for, in the order of the calls of
    [get_tempo_day]; none where the day before or the day after does not
    exist. *)
Definition tempo_days (E : env) : list date :=
  let today_date := dt_date (now_tempo E) in
  match date_sub_day today_date, date_add_day today_date with
  | Some yesterday, Some tomorrow => [yesterday; today_date; tomorrow]
  | _, _ => []
  end.

(** A record of the cache has a date and a code. *)
Definition record_ok (p : tempo_day) : bool :=
  match dateJour p, codeJour p with
  | Some _, Some _ => true
  | _, _ => false
  end.

(** The four colour fields of the snapshot. *)
Definition COLOR_FIELDS : list string :=
  ["tempo_couleur"; "tempo_couleur_hier"; "tempo_couleur_aujourdhui";
   "tempo_couleur_demain"].

End Notions.

(** ** Colour names in the states that cycles reach *)

Section Colours.

Context {F : PyFloat}.

(** The name of a colour of the table other than ["indéterminé"]. *)
Definition is_color (v : value) : bool := existsb (is_str v) COLORS.

(** A name of the colour table. *)
Definition color_name (v : value) : bool :=
  is_str v INDETERMINE || is_color v.

(** The two stored fallbacks hold nothing but the name of a colour. *)
Definition fallback_ok (st : coordinator) : bool :=
  match _previous_demain_color st with
  | Some c => is_color (VStr c)
  | None => true
  end
  && match the_data st !! "_fallback_today_color" with
     | Some v => is_color v
     | None => true
     end.

End Colours.

(** ** The entities of [sensor.py] and [binary_sensor.py] *)

(** [f"tarif_edf_{contract_type}_{contract_power}_{coordinator_key}"], the
    unique id of an entity of either platform. *)
Definition unique_id (contract_type contract_power coordinator_key : string)
    : string :=
  "tarif_edf_" +:+ contract_type +:+ "_" +:+ contract_power +:+ "_"
  +:+ coordinator_key.

Module sensor.

Section Platform.

Context {F : PyFloat}.

Definition BASE_SENSORS : list string :=
  ["base_variable_ttc"; "base_abonnement_ttc"].

Definition HPHC_SENSORS : list string :=
  ["hphc_variable_hc_ttc"; "hphc_variable_hp_ttc"; "hphc_abonnement_ttc"].

Definition TEMPO_SENSORS : list string :=
  ["tempo_couleur"; "tempo_couleur_hier"; "tempo_couleur_aujourdhui";
   "tempo_couleur_demain"; "tempo_variable_hc_ttc"; "tempo_variable_hp_ttc";
   "tempo_variable_hc_bleu_ttc"; "tempo_variable_hp_bleu_ttc";
   "tempo_variable_hc_blanc_ttc"; "tempo_variable_hp_blanc_ttc";
   "tempo_variable_hc_rouge_ttc"; "tempo_variable_hp_rouge_ttc";
   "tempo_abonnement_ttc"].

(** [async_setup_entry]: the coordinator keys of the sensors that it
    creates, in order.  [coordinator.data["contract_type"]] raises
    [TypeError] when the coordinator has no snapshot, and [KeyError] when
    the snapshot has no such field. *)
Definition async_setup_entry (st : coordinator) : outcome (list string) :=
  match data st with
  | None => Raise TypeError
  | Some d =>
      match d !! "contract_type", d !! "contract_power" with
      | Some contract_type, Some _ =>
          let sensors := ["contract_power"] in
          let sensors :=
            if is_str contract_type CONTRACT_TYPE_BASE
            then (sensors ++ BASE_SENSORS)%list
            else if is_str contract_type CONTRACT_TYPE_HPHC
            then (sensors ++ HPHC_SENSORS)%list
            else if is_str contract_type CONTRACT_TYPE_TEMPO
            then (sensors ++ TEMPO_SENSORS)%list
            else sensors in
          (* Current tariff sensor *)
          let sensors :=
            if is_not_none (dget d "tarif_actuel_ttc")
            then (sensors ++ ["tarif_actuel_ttc"])%list
            else sensors in
          Return sensors
      | _, _ => Raise KeyError
      end
  end.

(** [TarifEdfSensor.native_value] *)
Definition native_value (d : gmap string value) (coordinator_key : string)
    : value :=
  dget d coordinator_key.

(** [TarifEdfSensor.available] *)
Definition available (last_update_success : bool) (d : gmap string value)
    (coordinator_key : string) : bool :=
  last_update_success && is_not_none (dget d coordinator_key).

End Platform.

End sensor.

Module binary_sensor.

Section Platform.

Context {F : PyFloat}.

(** [async_setup_entry]: the off-peak sensor, for an hphc or tempo
    contract. *)
Definition async_setup_entry (st : coordinator) : outcome (list string) :=
  match data st with
  | None => Raise TypeError
  | Some d =>
      match d !! "contract_type" with
      | Some contract_type =>
          if is_str contract_type CONTRACT_TYPE_HPHC
             || is_str contract_type CONTRACT_TYPE_TEMPO
          then Return ["is_off_peak"] else Return []
      | None => Raise KeyError
      end
  end.

(** [TarifEdfOffPeakBinarySensor.is_on]:
    [self.coordinator.data.get("is_off_peak", False)] *)
Definition is_on (d : gmap string value) : value :=
  default (VBool false) (d !! "is_off_peak").

End Platform.

End binary_sensor.

(** ** Days of the calendar, and the rates among the sensors *)

(** A day that the calendar of [datetime.date] has. *)
Definition is_calendar_day (d : date) : Prop :=
  MINYEAR <= year d <= MAXYEAR
  /\ 1 <= month d <= 12
  /\ 1 <= day d <= days_in_month (year d) (month d).

(** The sensors of [async_setup_entry] that show a rate of the tariff
    table, by contract type. *)
Definition rate_sensors (contract_type : string) : list string :=
  if String.eqb contract_type CONTRACT_TYPE_BASE then sensor.BASE_SENSORS
  else if String.eqb contract_type CONTRACT_TYPE_HPHC then sensor.HPHC_SENSORS
  else if String.eqb contract_type CONTRACT_TYPE_TEMPO
  then drop 6 sensor.TEMPO_SENSORS
  else [].

(** The outcome is a result, not an exception. *)
Definition returns {A : Type} (o : outcome A) : bool :=
  match o with
  | Return _ => true
  | Raise _ => false
  end.

(** Closed equations are settled by evaluation. *)
Ltac vm_refl :=
  lazymatch goal with
  | |- ?G =>
      let G' := eval hnf in G in
      lazymatch G' with
      | @eq ?T ?a ?b => vm_cast_no_check (@eq_refl T b)
      end
  end.

(** ** Order lemmas *)

Lemma time_cmp_antisym (a b : time) : time_cmp b a = CompOpp (time_cmp a b).
Proof.
  unfold time_cmp.
  rewrite (Z.compare_antisym (hour a) (hour b)).
  rewrite (Z.compare_antisym (minute a) (minute b)).
  rewrite (Z.compare_antisym (second a) (second b)).
  rewrite (Z.compare_antisym (microsecond a) (microsecond b)).
  destruct (hour a ?= hour b), (minute a ?= minute b),
    (second a ?= second b); reflexivity.
Qed.

Lemma time_geb_leb (a b : time) : time_geb a b = time_leb b a.
Proof.
  unfold time_geb, time_leb. rewrite (time_cmp_antisym a b).
  destruct (time_cmp a b); reflexivity.
Qed.

Lemma time_gtb_ltb (a b : time) : time_gtb a b = time_ltb b a.
Proof.
  unfold time_gtb, time_ltb. rewrite (time_cmp_antisym a b).
  destruct (time_cmp a b); reflexivity.
Qed.

Lemma time_leb_ltb (a b : time) : time_leb a b = negb (time_ltb b a).
Proof.
  unfold time_leb, time_ltb. rewrite (time_cmp_antisym a b).
  destruct (time_cmp a b); reflexivity.
Qed.

Lemma time_cmp_refl (a : time) : time_cmp a a = Eq.
Proof. unfold time_cmp. by rewrite !Z.compare_refl. Qed.

(** ** Properties of [time_in_between] *)

(** C8: [time_in_between now start end] is true exactly when
    [start <= now < end] if [start < end], and exactly when
    [now >= start] or [now < end] if [start > end]. *)
Theorem time_in_between_spec (now start end_ : time) :
  ((start < end_)%time ->
     time_in_between now start end_ = true <-> (start <= now < end_)%time)
  /\ ((start > end_)%time ->
     time_in_between now start end_ = true <->
       (now >= start)%time \/ (now < end_)%time).
Proof.
  unfold time_in_between. split.
  - intros Hlt. unfold time_ltb in Hlt. unfold time_leb at 1.
    destruct (time_cmp start end_); try discriminate.
    by rewrite andb_true_iff.
  - intros Hgt. unfold time_gtb in Hgt. unfold time_leb at 1.
    destruct (time_cmp start end_); try discriminate.
    by rewrite orb_true_iff, time_geb_leb.
Qed.

(** C10: when [start] equals [end] the interval is empty:
    [time_in_between] is false at every clock time. *)
Theorem time_in_between_equal_endpoints (now t : time) :
  time_in_between now t t = false.
Proof.
  unfold time_in_between, time_leb at 1. rewrite time_cmp_refl.
  rewrite (time_leb_ltb t now). apply andb_negb_l.
Qed.

(** ** The colour cache: [get_tempo_day] *)

Section Cache.

Context {F : PyFloat} (K : Const).

Lemma in_123_known (c : Z) : in_123 c = true <-> known c.
Proof. unfold in_123, known. rewrite !orb_true_iff, !Z.eqb_eq. tauto. Qed.

Lemma cache_usable_servable (now : time) (date_str : string) (p : tempo_day) :
  cache_usable (TEMPO_TOMRROW_AVAILABLE_AT K) now date_str p = true
  <-> servable K now date_str p.
Proof.
  unfold cache_usable, servable.
  rewrite andb_true_iff, orb_true_iff, andb_true_iff, bool_decide_eq_true.
  rewrite in_123_known, Z.eqb_eq. tauto.
Qed.

(** [find] gives the first element that passes the test. *)
Lemma find_first {A : Type} (f : A -> bool) (l : list A) (x : A) :
  find f l = Some x <->
  exists l1 l2, l = (l1 ++ x :: l2)%list /\ f x = true
                /\ Forall (fun y => f y <> true) l1.
Proof.
  induction l as [|a l IH]; simpl.
  - split; [discriminate|]. intros (l1 & l2 & Hl & _). by destruct l1.
  - destruct (f a) eqn:Ha.
    + split.
      * intros [= <-]. by exists [], l.
      * intros (l1 & l2 & Hl & Hx & Hall). destruct l1 as [|b l1].
        -- by injection Hl as -> _.
        -- injection Hl as -> _. inversion Hall; subst. congruence.
    + rewrite IH. split.
      * intros (l1 & l2 & -> & Hx & Hall). exists (a :: l1), l2.
        split_and!; [done|done|]. constructor; [congruence|done].
      * intros (l1 & l2 & Hl & Hx & Hall). destruct l1 as [|b l1].
        -- injection Hl as -> _. congruence.
        -- injection Hl as -> ->. inversion Hall; subst. by exists l1, l2.
Qed.

Lemma find_none_iff {A : Type} (f : A -> bool) (l : list A) :
  find f l = None <-> Forall (fun y => f y <> true) l.
Proof.
  induction l as [|a l IH]; simpl.
  - split; [constructor|done].
  - destruct (f a) eqn:Ha.
    + split; [discriminate|]. inversion 1; subst. congruence.
    + rewrite IH. split; [constructor; [congruence|done]|by inversion 1].
Qed.

Lemma cache_lookup_first (now : time) (date_str : string)
    (cache : list tempo_day) (p : tempo_day) :
  find (cache_usable (TEMPO_TOMRROW_AVAILABLE_AT K) now date_str) cache = Some p
  <-> first_servable K now date_str cache p.
Proof.
  rewrite find_first. unfold first_servable.
  split; intros (l1 & l2 & Hl & Hp & Hall); exists l1, l2;
    (split_and!; [done|by apply cache_usable_servable|]);
    eapply Forall_impl; try exact Hall; intros q Hq; simpl in *;
    by rewrite cache_usable_servable in *.
Qed.

Lemma cache_lookup_none (now : time) (date_str : string)
    (cache : list tempo_day) :
  find (cache_usable (TEMPO_TOMRROW_AVAILABLE_AT K) now date_str) cache = None
  <-> Forall (fun q => ~ servable K now date_str q) cache.
Proof.
  rewrite find_none_iff. split; intros Hall;
    eapply Forall_impl; try exact Hall; intros q Hq; simpl in *;
    by rewrite cache_usable_servable in *.
Qed.

(** A call that misses the cache asks the API: its URL is logged. *)
Lemma get_tempo_day_miss (E : env) (clock : datetime) (target : date)
    (st : coordinator) :
  find (cache_usable (TEMPO_TOMRROW_AVAILABLE_AT K) (dt_time clock)
          (isoformat target)) (tempo_prices st) = None ->
  requests (get_tempo_day K E clock target st).2
  = (requests st ++ [tempo_url K target])%list.
Proof.
  intros Hf. unfold get_tempo_day, tempo_url. rewrite Hf.
  destruct (http_json E _) as [j|[]]; reflexivity.
Qed.

Lemma app_singleton_neq {A : Type} (l : list A) (x : A) : (l ++ [x])%list <> l.
Proof.
  intros H. apply (f_equal (@List.length A)) in H. rewrite List.length_app in H.
  simpl in H. lia.
Qed.

(** C5 (amended): a call of [get_tempo_day] returns a cached record without
    asking the API exactly when the cache holds a record of the date whose
    colour is known, or is unknown while the clock is before the
    availability time; the record returned is then the first such record in
    the order of the cache.  When the cached records of the date are all
    unknown and the clock has reached that time, the API is asked again. *)
Theorem get_tempo_day_cache (E : env) (clock : datetime) (target : date)
    (st : coordinator) :
  let now := dt_time clock in
  let date_str := isoformat target in
  let res := get_tempo_day K E clock target st in
  (forall p,
     first_servable K now date_str (tempo_prices st) p ->
     res = (Return p, st))
  /\ (requests res.2 = requests st
      <-> exists p, p ∈ tempo_prices st /\ servable K now date_str p)
  /\ ((forall p, p ∈ tempo_prices st -> dateJour p = Some date_str ->
         code_of p = 0) ->
      (now >= TEMPO_TOMRROW_AVAILABLE_AT K)%time ->
      requests res.2 = (requests st ++ [tempo_url K target])%list).
Proof.
  intros now date_str res. split_and!.
  - intros p Hp. apply cache_lookup_first in Hp.
    unfold res, get_tempo_day. fold now date_str. by rewrite Hp.
  - destruct (find (cache_usable (TEMPO_TOMRROW_AVAILABLE_AT K) now date_str)
                (tempo_prices st)) as [p|] eqn:Hf.
    + pose proof Hf as Hf'. apply cache_lookup_first in Hf'.
      destruct Hf' as (l1 & l2 & Hl & Hp & _).
      unfold res, get_tempo_day. fold now date_str. rewrite Hf. simpl.
      split; [|done]. intros _. exists p. split; [|done].
      rewrite Hl. apply elem_of_app. right. by left.
    + unfold res. rewrite get_tempo_day_miss by done.
      apply cache_lookup_none in Hf. split.
      * intros H. by apply app_singleton_neq in H.
      * intros (p & Hin & Hp). rewrite Forall_forall in Hf.
        by destruct (Hf p Hin).
  - intros Hzero Hlate. unfold res. apply get_tempo_day_miss.
    apply cache_lookup_none, Forall_forall. intros p Hin (Hdate & Hcode).
    specialize (Hzero p Hin Hdate). rewrite Hzero in Hcode.
    destruct Hcode as [Hk|[_ Hlt]].
    + unfold known in Hk. lia.
    + rewrite time_geb_leb, time_leb_ltb in Hlate.
      unfold now in *. rewrite Hlt in Hlate. discriminate.
Qed.

(** C6 (amended): [get_tempo_day] never raises.  On a miss of the cache, a
    network error gives the unknown record of the date, which is not
    cached; any answer gives a record that is appended to the cache, the
    unknown record of the date when the answer is malformed. *)
Theorem get_tempo_day_total (E : env) (clock : datetime) (target : date)
    (st : coordinator) :
  let date_str := isoformat target in
  exists r st',
    get_tempo_day K E clock target st = (Return r, st')
    /\ (find (cache_usable (TEMPO_TOMRROW_AVAILABLE_AT K) (dt_time clock)
                date_str) (tempo_prices st) = None ->
        (forall e, http_json E (tempo_url K target) = Raise e ->
           r = unknown_day date_str /\ tempo_prices st' = tempo_prices st)
        /\ (forall j, http_json E (tempo_url K target) = Return j ->
              tempo_prices st' = (tempo_prices st ++ [r])%list
              /\ (malformed j -> r = unknown_day date_str)
              /\ (forall d c, j = JDict d -> codeJour d = Some c ->
                    codeJour r = Some c
                    /\ dateJour r = Some (default date_str (dateJour d))))).
Proof.
  intros date_str. unfold get_tempo_day, tempo_url. fold date_str.
  destruct (find _ (tempo_prices st)) as [p|] eqn:Hf.
  - exists p, st. split; [done|discriminate].
  - destruct (http_json E _) as [j|e] eqn:Hj.
    + eexists _, _. split; [reflexivity|]. intros _. split; [discriminate|].
      intros j' [= <-]. split_and!.
      * reflexivity.
      * intros [->|(d & -> & Hd)]; [done|]. by rewrite Hd.
      * intros d c -> Hc. rewrite Hc. simpl.
        destruct (dateJour d) as [s|] eqn:Hd; simpl; by rewrite ?Hc, ?Hd.
    + exists (unknown_day date_str).
      eexists. split; [by destruct e|]. intros _. split; [|discriminate].
      intros e' _. by destruct e.
Qed.

End Cache.

(** C6, as the claim states it, fails: after a network error the unknown
    record that [get_tempo_day] returns is not in the cache. *)
Lemma get_tempo_day_error_not_cached :
  (get_tempo_day (F := F0) K0
     (env_at (at_time day1 12 0) no_csv no_api) (at_time day1 12 0) day1
     init_coordinator).1
  = Return (unknown_day "2024-07-01")
  /\ tempo_prices
       (get_tempo_day (F := F0) K0
          (env_at (at_time day1 12 0) no_csv no_api) (at_time day1 12 0) day1
          init_coordinator).2
     = []
  /\ tempo_prices
       (get_tempo_day (F := F0) K0
          (env_at (at_time day1 12 0) no_csv no_api) (at_time day1 12 0) day1
          init_coordinator).2
     <> (tempo_prices (init_coordinator (F := F0))
         ++ [unknown_day "2024-07-01"])%list.
Proof.
  split_and!; [vm_refl|vm_refl|].
  vm_compute. discriminate.
Qed.

(** C5, as the claim states it, fails once the cache holds two records of a
    date, as it does after the colour of 2024-07-01 was asked at 10:00 and
    again at 12:00 of the day before.  At 00:30 the first of the two, whose
    colour is unknown, is served, and not the record whose colour is known.
    At 23:00, past the availability time, the known record is served and
    the API is not asked again, although a record of the date with an
    unknown colour is cached. *)
Lemma get_tempo_day_two_records_of_a_date :
  reachable (F := F0) K0 after_noon
  /\ tempo_prices after_noon
     = [mk_tempo_day (Some "2024-06-29") (Some 1);
        mk_tempo_day (Some "2024-06-30") (Some 1);
        mk_tempo_day (Some "2024-07-01") (Some 0);
        mk_tempo_day (Some "2024-07-01") (Some 3)]
  /\ requests after_noon = asked_by_noon
  (* 00:30 *)
  /\ time_ltb (dt_time (now_cache_today env_night))
       (TEMPO_TOMRROW_AVAILABLE_AT K0) = true
  /\ (get_tempo_day K0 env_night (now_cache_today env_night) day1
        after_noon).1
     = Return (mk_tempo_day (Some "2024-07-01") (Some 0))
  /\ requests
       (get_tempo_day K0 env_night (now_cache_today env_night) day1
          after_noon).2
     = asked_by_noon
  (* 23:00 *)
  /\ time_geb (dt_time (now_cache_today env_evening))
       (TEMPO_TOMRROW_AVAILABLE_AT K0) = true
  /\ (get_tempo_day K0 env_evening (now_cache_today env_evening) day1
        after_noon).1
     = Return (mk_tempo_day (Some "2024-07-01") (Some 3))
  /\ requests
       (get_tempo_day K0 env_evening (now_cache_today env_evening) day1
          after_noon).2
     = asked_by_noon.
Proof.
  split.
  - exact (reachable_cycle K0 cfg_tempo _ after_morning
             (reachable_cycle K0 cfg_tempo _ init_coordinator
                (reachable_init K0))).
  - split_and!; vm_refl.
Qed.

(** An unknown record of the cache is served before 11:00 and not from
    11:00 on, when the API is asked again. *)
Example get_tempo_day_unknown_before_after :
  let st := mk_coordinator (F := F0) None [unknown_day "2024-07-01"] None None [] in
  let api := fun _ => Return (JDict (mk_tempo_day None (Some 2))) in
  get_tempo_day K0 (env_at (at_time day1 10 59) no_csv api)
    (at_time day1 10 59) day1 st
  = (Return (unknown_day "2024-07-01"), st)
  /\ get_tempo_day K0 (env_at (at_time day1 11 0) no_csv api)
       (at_time day1 11 0) day1 st
     = (Return (mk_tempo_day (Some "2024-07-01") (Some 2)),
        mk_coordinator None
          [unknown_day "2024-07-01"; mk_tempo_day (Some "2024-07-01") (Some 2)]
          None None ["https://couleur.example/jourTempo/2024-07-01"]).
Proof. split; vm_refl. Qed.

(** ** The tariff table: [_parse_tariff_csv] *)

Section Table.

Context {F : PyFloat}.

(** *** The order of dates *)

Ltac date_cases :=
  unfold date_lt, date_le, date_ltb, date_leb, date_gtb, date_cmp in *;
  repeat match goal with
    | d : date |- _ => destruct d
    end;
  simpl in *;
  repeat match goal with
    | |- context [?x ?= ?y] => destruct (Z.compare_spec x y)
    | H : context [?x ?= ?y] |- _ => destruct (Z.compare_spec x y)
    end;
  try discriminate; try reflexivity; try lia.

Lemma date_gtb_ltb (a b : date) : date_gtb a b = date_ltb b a.
Proof. date_cases. Qed.

Lemma date_gtb_false_le (a b : date) : date_gtb a b = false <-> date_le a b.
Proof.
  unfold date_le, date_gtb, date_leb.
  destruct (date_cmp a b); split; congruence.
Qed.

Lemma date_ltb_false_le (a b : date) : date_ltb a b = false <-> date_le b a.
Proof. rewrite <- date_gtb_ltb. apply date_gtb_false_le. Qed.

Lemma date_lt_le_trans (a b c : date) : date_lt a b -> date_le b c -> date_lt a c.
Proof. intros H1 H2. date_cases. Qed.

Lemma date_le_lt_trans (a b c : date) : date_le a b -> date_lt b c -> date_lt a c.
Proof. intros H1 H2. date_cases. Qed.

Lemma date_le_trans (a b c : date) : date_le a b -> date_le b c -> date_le a c.
Proof. intros H1 H2. date_cases. Qed.

Lemma date_lt_le (a b : date) : date_lt a b -> date_le a b.
Proof. intros H. date_cases. Qed.

Lemma date_le_refl (a : date) : date_le a a.
Proof. date_cases. Qed.

Lemma date_lt_irrefl (a : date) : ~ date_lt a a.
Proof. intros H. date_cases. Qed.

(** *** One row *)

Lemma nonempty_true (s : string) : nonempty s = true <-> s <> "".
Proof. destruct s; simpl; split; congruence. Qed.

(** The claim's candidates are those that [candidate_start] computes. *)
Lemma candidate_start_spec (today : date) (power : string) (r : row) (s : date) :
  candidate_start today power r = Some s <-> candidate today power r s.
Proof.
  unfold candidate_start, candidate.
  destruct (nonempty (date_debut_of r)) eqn:Hne; simpl.
  2:{ split; [discriminate|]. intros (H & _).
      apply (proj2 (nonempty_true _)) in H. congruence. }
  apply nonempty_true in Hne.
  destruct (String.eqb_spec (puissance_of r) power) as [Hp|Hp].
  2:{ split; [discriminate|]. by intros (_ & H & _). }
  destruct (str_to_date (date_debut_of r)) as [s0|] eqn:Hs.
  2:{ split; [discriminate|]. by intros (_ & _ & H & _). }
  destruct (date_leb s0 today) eqn:Hle.
  2:{ split; [discriminate|]. intros (_ & _ & [= ->] & H & _).
      unfold date_le in H. congruence. }
  destruct (nonempty (date_fin_of r)) eqn:Hfin.
  - apply nonempty_true in Hfin.
    destruct (str_to_date (date_fin_of r)) as [e|] eqn:He.
    + destruct (date_leb today e) eqn:Hte.
      * split.
        -- intros [= ->]. split_and!; try done. right. by exists e.
        -- by intros (_ & _ & [= ->] & _).
      * split; [discriminate|].
        intros (_ & _ & _ & _ & [H|(e' & [= <-] & H)]); [done|].
        unfold date_le in H. congruence.
    + split; [discriminate|].
      by intros (_ & _ & _ & _ & [H|(e' & H & _)]).
  - assert (date_fin_of r = "") as Hfin'.
    { destruct (date_fin_of r); [done|discriminate]. }
    split.
    + intros [= ->]. split_and!; try done. by left.
    + by intros (_ & _ & [= ->] & _).
Qed.

(** On a whole row, one turn of the loop raises nothing: it keeps the row
    when it is a candidate that starts later than the best so far. *)
Lemma row_step_whole (today : date) (power : string) (b : best) (r : row) :
  whole r ->
  row_step today power b r
  = Return match candidate_start today power r with
           | Some s => keep_latest b r s
           | None => b
           end.
Proof.
  intros ([c Hc] & [p Hp] & [f Hf]).
  unfold row_step, row_body, candidate_start, keep_latest,
    date_debut_of, puissance_of, date_fin_of.
  rewrite Hc, Hp, Hf. simpl.
  destruct (nonempty (strip c)); simpl; [|reflexivity].
  destruct (String.eqb (strip p) power); simpl; [|reflexivity].
  destruct (str_to_date (strip c)) as [s|]; [|reflexivity].
  assert (date_gtb s today = negb (date_leb s today)) as -> by date_cases.
  destruct (date_leb s today); simpl; [|reflexivity].
  destruct (nonempty (strip f)).
  - destruct (str_to_date (strip f)) as [e|]; [|reflexivity].
    assert (date_ltb e today = negb (date_leb today e)) as -> by date_cases.
    destruct (date_leb today e); simpl; [|reflexivity].
    destruct (best_date b) as [bd|]; [destruct (date_gtb s bd)|]; reflexivity.
  - destruct (best_date b) as [bd|]; [destruct (date_gtb s bd)|]; reflexivity.
Qed.

(** *** The loop *)

Lemma candidate_fun (today : date) (power : string) (r : row) (s s' : date) :
  candidate today power r s -> candidate today power r s' -> s = s'.
Proof. intros (_ & _ & H & _) (_ & _ & H' & _). congruence. Qed.

Lemma found_step (today : date) (power : string) (seen : list row) (b : best)
    (r : row) :
  found today power seen b ->
  found today power (seen ++ [r])
    match candidate_start today power r with
    | Some s => keep_latest b r s
    | None => b
    end.
Proof.
  intros Hb. destruct (candidate_start today power r) as [s|] eqn:Hs.
  - apply candidate_start_spec in Hs. unfold keep_latest, found in *.
    destruct b as [[r0|] [s0|]]; simpl in *; try done.
    + destruct Hb as (l1 & l2 & -> & Hr0 & Hl1 & Hl2).
      destruct (date_gtb s s0) eqn:Hgt; simpl.
      * rewrite date_gtb_ltb in Hgt.
        exists (l1 ++ r0 :: l2)%list, []. split_and!; [done|done| |].
        -- intros r' s' Hin Hc. apply elem_of_app in Hin as [Hin|Hin].
           ++ eapply date_lt_le_trans; [by eapply Hl1|by apply date_lt_le].
           ++ apply elem_of_cons in Hin as [->|Hin].
              ** by rewrite (candidate_fun _ _ _ _ _ Hc Hr0).
              ** eapply date_le_lt_trans; [by eapply Hl2|done].
        -- intros r' s' Hin. by apply elem_of_nil in Hin.
      * apply date_gtb_false_le in Hgt.
        exists l1, (l2 ++ [r])%list. split_and!; [|done|done|].
        -- by rewrite <- List.app_assoc.
        -- intros r' s' Hin Hc. apply elem_of_app in Hin as [Hin|Hin].
           ++ by eapply Hl2.
           ++ apply list_elem_of_singleton in Hin as ->.
              by rewrite (candidate_fun _ _ _ _ _ Hc Hs).
    + exists seen, []. split_and!; [done|done| |].
      * intros r' s' Hin Hc. by destruct (Hb r' s').
      * intros r' s' Hin. by apply elem_of_nil in Hin.
  - unfold found in *.
    assert (forall s, ~ candidate today power r s) as Hno.
    { intros s Hc. apply candidate_start_spec in Hc. congruence. }
    destruct b as [[r0|] [s0|]]; simpl in *; try done.
    + destruct Hb as (l1 & l2 & -> & Hr0 & Hl1 & Hl2).
      exists l1, (l2 ++ [r])%list. split_and!; [|done|done|].
      * by rewrite <- List.app_assoc.
      * intros r' s' Hin Hc. apply elem_of_app in Hin as [Hin|Hin].
        -- by eapply Hl2.
        -- apply list_elem_of_singleton in Hin as ->. by destruct (Hno s').
    + intros r' s' Hin Hc. apply elem_of_app in Hin as [Hin|Hin].
      * by destruct (Hb r' s').
      * apply list_elem_of_singleton in Hin as ->. by destruct (Hno s').
Qed.

Lemma rows_loop_whole (today : date) (power : string) (rows seen : list row)
    (b : best) :
  Forall whole rows ->
  found today power seen b ->
  exists b', rows_loop today power b rows = Return b'
             /\ found today power (seen ++ rows) b'.
Proof.
  revert seen b. induction rows as [|r rows IH]; intros seen b Hw Hb.
  - exists b. by rewrite List.app_nil_r.
  - inversion Hw as [|? ? Hr Hrows]; subst. simpl.
    rewrite row_step_whole by done.
    destruct (IH (seen ++ [r])%list _ Hrows (found_step _ _ _ _ r Hb))
      as (b' & Hloop & Hfound).
    exists b'. split; [done|]. by rewrite <- List.app_assoc in Hfound.
Qed.

(** C1 (amended): on a table of whole rows the resolver raises nothing; it
    selects no row when the table has no candidate, and otherwise the
    candidate with the latest start date, the first one in file order among
    the candidates that start on that date. *)
Theorem select_row_latest_first (today : date) (power : string)
    (rows : list row) :
  Forall whole rows ->
  exists result,
    select_row today power rows = Return result
    /\ match result with
       | Some r => latest_first today power rows r
       | None => no_candidate today power rows
       end.
Proof.
  intros Hw.
  destruct (rows_loop_whole today power rows [] (mk_best None None) Hw)
    as (b & Hloop & Hfound).
  { intros r s Hin. by apply elem_of_nil in Hin. }
  unfold select_row. rewrite Hloop. exists (best_match b). split; [done|].
  simpl in Hfound. unfold found in Hfound.
  destruct (best_match b) as [r|], (best_date b) as [s|]; try done.
  destruct Hfound as (l1 & l2 & ? & ? & ? & ?). by exists l1, l2, s.
Qed.

End Table.

Lemma row_a_whole : whole row_a.
Proof. unfold whole. split_and!; by eexists. Qed.

Lemma row_b_whole : whole row_b.
Proof. unfold whole. split_and!; by eexists. Qed.

Lemma row_c_whole : whole row_c.
Proof. unfold whole. split_and!; by eexists. Qed.

Lemma row_a_candidate :
  candidate day1 "6" row_a (mk_date 2024 2 1).
Proof. apply candidate_start_spec. vm_refl. Qed.

Lemma row_b_candidate :
  candidate day1 "6" row_b (mk_date 2024 2 1).
Proof. apply candidate_start_spec. vm_refl. Qed.

Lemma row_a_b_differ : row_a <> row_b.
Proof.
  intros H. apply (f_equal (fun r : row => r !! "PART_FIXE_TTC")) in H.
  vm_compute in H. discriminate.
Qed.

(** Of two different candidates that start on the same day, the first is
    not the last of the latest. *)
Lemma tie_not_last (today : date) (power : string) (ra rb : row) (s : date) :
  ra <> rb ->
  candidate today power ra s ->
  candidate today power rb s ->
  ~ latest_last today power [ra; rb] ra.
Proof.
  intros Hne Ha Hb (l1 & l2 & s' & Hl & Hc & _ & Hlater).
  destruct l1 as [|x l1].
  - injection Hl as <-.
    pose proof (candidate_fun _ _ _ _ _ Hc Ha) as ->.
    assert (date_lt s s) as Hlt by (apply (Hlater rb); [by left|done]).
    by apply date_lt_irrefl in Hlt.
  - injection Hl as _ Hl. destruct l1 as [|y l1].
    + injection Hl as Hl _. by apply Hne.
    + injection Hl as _ Hl. by destruct l1.
Qed.

(** C1, as the claim states it, fails: of two candidates that start on the
    same day the resolver selects the first in file order, [row_a], and not
    the last, [row_b]. *)
Lemma select_row_tie_first_wins :
  select_row day1 "6" [row_a; row_b] = Return (Some row_a)
  /\ latest_last day1 "6" [row_a; row_b] row_b
  /\ ~ latest_last day1 "6" [row_a; row_b] row_a.
Proof.
  split_and!.
  - vm_refl.
  - exists [row_a], [], (mk_date 2024 2 1).
    split_and!; [done|apply row_b_candidate| |].
    + intros r' s' Hin Hc. apply list_elem_of_singleton in Hin as ->.
      by rewrite (candidate_fun _ _ _ _ _ Hc row_a_candidate).
    + intros r' s' Hin. by apply elem_of_nil in Hin.
  - apply (tie_not_last day1 "6" row_a row_b (mk_date 2024 2 1));
      [apply row_a_b_differ|apply row_a_candidate|apply row_b_candidate].
Qed.

Lemma select_row_latest_first_witness :
  Forall whole [row_a; row_b; row_c]
  /\ exists result,
       select_row day1 "6" [row_a; row_b; row_c] = Return result
       /\ match result with
          | Some r => latest_first day1 "6" [row_a; row_b; row_c] r
          | None => no_candidate day1 "6" [row_a; row_b; row_c]
          end.
Proof.
  assert (Forall whole [row_a; row_b; row_c]) as Hw.
  { constructor; [apply row_a_whole|].
    constructor; [apply row_b_whole|].
    constructor; [apply row_c_whole|constructor]. }
  split; [exact Hw|].
  exact (select_row_latest_first day1 "6" [row_a; row_b; row_c] Hw).
Defined.

(** Of two candidates that start on 2024-02-01 and on 2024-06-01, the
    resolver selects the later one. *)
Example select_row_later_start :
  select_row day1 "6" [row_c; row_a] = Return (Some row_c)
  /\ select_row day1 "6" [row_a; row_c] = Return (Some row_c).
Proof. split; vm_refl. Qed.

(** A line shorter than the header makes the resolver raise. *)
Example select_row_short_line :
  select_row day1 "6" [<["DATE_FIN" := None]> row_a] = Raise AttributeError.
Proof. vm_refl. Qed.

(** ** The steps of a cycle and the snapshot *)

Ltac split_notin H :=
  repeat (apply not_elem_of_cons in H as [? H]); clear H.

Ltac skip_inserts :=
  repeat (rewrite lookup_insert_ne by congruence).

Section Steps.

Context {F : PyFloat} (K : Const).

(** *** The fields of the coordinator under its updates *)

Lemma the_data_set_data (d : gmap string value) (st : coordinator) :
  the_data (set_data d st) = d.
Proof. reflexivity. Qed.

Lemma the_data_log_request (url : string) (st : coordinator) :
  the_data (log_request url st) = the_data st.
Proof. reflexivity. Qed.

Lemma the_data_set_previous_demain (c : string) (d : date) (st : coordinator) :
  the_data (set_previous_demain c d st) = the_data st.
Proof. reflexivity. Qed.

Lemma same_store_refl (st : coordinator) : same_store st st.
Proof. by repeat split. Qed.

Lemma same_store_trans (st1 st2 st3 : coordinator) :
  same_store st1 st2 -> same_store st2 st3 -> same_store st1 st3.
Proof.
  intros (H1 & H2 & H3) (H4 & H5 & H6). repeat split; congruence.
Qed.

Lemma same_store_the_data (st st' : coordinator) :
  same_store st st' -> the_data st' = the_data st.
Proof. intros (H & _). unfold the_data. by rewrite H. Qed.

(** *** [get_tempo_day] raises nothing and leaves the snapshot alone *)

Lemma get_tempo_day_returns (E : env) (clock : datetime) (target : date)
    (st : coordinator) :
  exists r st',
    get_tempo_day K E clock target st = (Return r, st') /\ same_store st st'.
Proof.
  unfold get_tempo_day.
  destruct (find _ (tempo_prices st)) as [p|].
  - exists p, st. split; [done|apply same_store_refl].
  - destruct (http_json E _) as [j|e].
    + eexists _, _. split; [reflexivity|]. by repeat split.
    + exists (unknown_day (isoformat target)). eexists.
      split; [by destruct e|]. by repeat split.
Qed.

(** The Tempo part runs [tempo_resolve] on three records that
    [get_tempo_day] returned, one call after the other. *)
Lemma tempo_body_resolves (E : env) (yesterday today_date tomorrow : date)
    (st : coordinator) :
  exists ty tt_ tm st1 st2 st3,
    get_tempo_day K E (now_cache_yesterday E) yesterday st = (Return ty, st1)
    /\ get_tempo_day K E (now_cache_today E) today_date st1 = (Return tt_, st2)
    /\ get_tempo_day K E (now_cache_tomorrow E) tomorrow st2 = (Return tm, st3)
    /\ same_store st st3
    /\ tempo_body K E yesterday today_date tomorrow st
       = (Return tt, tempo_resolve K E today_date tomorrow ty tt_ tm st3).
Proof.
  destruct (get_tempo_day_returns E (now_cache_yesterday E) yesterday st)
    as (ty & st1 & H1 & S1).
  destruct (get_tempo_day_returns E (now_cache_today E) today_date st1)
    as (tt_ & st2 & H2 & S2).
  destruct (get_tempo_day_returns E (now_cache_tomorrow E) tomorrow st2)
    as (tm & st3 & H3 & S3).
  exists ty, tt_, tm, st1, st2, st3. split_and!; try done.
  - eauto using same_store_trans.
  - unfold tempo_body. by rewrite H1, H2, H3.
Qed.

(** *** Fields that a step does not write *)

Lemma set_current_rates_frame (code : Z) (d : gmap string value) (k : string) :
  k ∉ TEMPO_WRITTEN -> set_current_rates code d !! k = d !! k.
Proof.
  intros Hk. unfold TEMPO_WRITTEN in Hk. split_notin Hk.
  unfold set_current_rates.
  repeat case_match; by skip_inserts.
Qed.

Lemma tempo_resolve_frame (E : env) (today_date tomorrow : date)
    (ty tt_ tm : tempo_day) (st : coordinator) (k : string) :
  k ∉ TEMPO_WRITTEN ->
  the_data (tempo_resolve K E today_date tomorrow ty tt_ tm st) !! k
  = the_data st !! k.
Proof.
  intros Hk. unfold tempo_resolve. rewrite the_data_set_data.
  rewrite set_current_rates_frame by done.
  unfold TEMPO_WRITTEN in Hk. split_notin Hk.
  unfold store_fallback. case_match.
  - rewrite the_data_set_data, the_data_set_previous_demain,
      !the_data_set_data. by skip_inserts.
  - rewrite !the_data_set_data. by skip_inserts.
Qed.

Lemma setdefault_frame (k' : string) (v : value) (d : gmap string value)
    (k : string) :
  k <> k' -> setdefault k' v d !! k = d !! k.
Proof.
  intros Hk. unfold setdefault. case_match; [done|].
  by rewrite lookup_insert_ne.
Qed.

Lemma tempo_step_frame (E : env) (st : coordinator) (k : string) :
  k ∉ TEMPO_WRITTEN ->
  the_data (tempo_step K E st).2 !! k = the_data st !! k.
Proof.
  intros Hk. unfold tempo_step.
  destruct (date_sub_day _) as [y|]; [|done].
  destruct (date_add_day _) as [t|]; [|done].
  destruct (tempo_body_resolves E y (dt_date (now_tempo E)) t st)
    as (ty & tt_ & tm & st1 & st2 & st3 & _ & _ & _ & S & ->).
  simpl. rewrite tempo_resolve_frame by done.
  by rewrite (same_store_the_data _ _ S).
Qed.

(** The off-peak part writes two fields of the snapshot and nothing else
    of the coordinator. *)
Lemma offpeak_step_frame (cfg : config) (E : env) (st : coordinator) :
  let st' := (offpeak_step K cfg E st).2 in
  same_memory st st'
  /\ tempo_prices st' = tempo_prices st
  /\ requests st' = requests st
  /\ forall k, k ∉ OFFPEAK_WRITTEN -> the_data st' !! k = the_data st !! k.
Proof.
  unfold offpeak_step.
  repeat case_match; simpl; (split_and!; [by split|done|done|]);
    intros k Hk; unfold OFFPEAK_WRITTEN in Hk; split_notin Hk;
    rewrite ?the_data_set_data; by skip_inserts.
Qed.

End Steps.

(** ** The refresh of the tariff table *)

Section Refresh.

Context {F : PyFloat} (K : Const).

(** What the refresh does, case by case. *)
Lemma refresh_step_not_due (cfg : config) (E : env) (st : coordinator) :
  needs_update K cfg E (the_data st) = Return false ->
  refresh_step K cfg E st = (Return tt, st).
Proof. intros H. unfold refresh_step. by rewrite H. Qed.

Lemma refresh_step_unknown_type (cfg : config) (E : env) (st : coordinator) :
  needs_update K cfg E (the_data st) = Return true ->
  tarif_url K (contract_type cfg) = None ->
  refresh_step K cfg E st = (Raise UpdateFailed, st).
Proof. intros H1 H2. unfold refresh_step. by rewrite H1, H2. Qed.

Lemma refresh_step_failure (cfg : config) (E : env) (st : coordinator)
    (url : string) (e : exn) :
  needs_update K cfg E (the_data st) = Return true ->
  tarif_url K (contract_type cfg) = Some url ->
  fetch_rates cfg E url = Raise e ->
  refresh_step K cfg E st = (Raise UpdateFailed, log_request url st).
Proof.
  intros H1 H2 H3. unfold refresh_step. rewrite H1, H2, H3. by destruct e.
Qed.

Lemma refresh_step_no_match (cfg : config) (E : env) (st : coordinator)
    (url : string) :
  needs_update K cfg E (the_data st) = Return true ->
  tarif_url K (contract_type cfg) = Some url ->
  fetch_rates cfg E url = Return None ->
  refresh_step K cfg E st = (Return tt, log_request url st).
Proof. intros H1 H2 H3. unfold refresh_step. by rewrite H1, H2, H3. Qed.

Lemma refresh_step_limit_raises (cfg : config) (E : env) (st : coordinator)
    (e : exn) :
  fresh_data_limit K cfg E = Raise e ->
  refresh_step K cfg E st = (Raise e, st).
Proof. intros H. unfold refresh_step, needs_update. by rewrite H. Qed.

(** The limit raises nothing but [OverflowError]. *)
Lemma fresh_data_limit_raises (cfg : config) (E : env) (e : exn) :
  fresh_data_limit K cfg E = Raise e -> e = OverflowError.
Proof.
  unfold fresh_data_limit, timedelta_days, datetime_sub_days.
  destruct (Z.abs _ <=? MAX_DELTA_DAYS); [|by intros [= <-]].
  destruct (_ && _); [discriminate|by intros [= <-]].
Qed.

(** The refresh leaves the snapshot alone, or merges the rates of a row
    that the table yielded and stamps the refresh. *)
Lemma refresh_step_data (cfg : config) (E : env) (st : coordinator) :
  let st' := (refresh_step K cfg E st).2 in
  same_memory st st'
  /\ (the_data st' = the_data st
      \/ exists url rows r rates,
           tarif_url K (contract_type cfg) = Some url
           /\ http_csv E url = Return (Csv rows)
           /\ select_row (dt_date (now_csv E)) (contract_power cfg) rows
              = Return (Some r)
           /\ extract_rates r (contract_type cfg) = Return rates
           /\ the_data st'
              = <["last_refresh_at" := VDatetime (now_refresh E)]>
                  (rates ∪ the_data st)).
Proof.
  assert (forall st', same_memory st st' -> the_data st' = the_data st ->
            same_memory st st'
            /\ (the_data st' = the_data st
                \/ exists url rows r rates,
                     tarif_url K (contract_type cfg) = Some url
                     /\ http_csv E url = Return (Csv rows)
                     /\ select_row (dt_date (now_csv E)) (contract_power cfg) rows
                        = Return (Some r)
                     /\ extract_rates r (contract_type cfg) = Return rates
                     /\ the_data st'
                        = <["last_refresh_at" := VDatetime (now_refresh E)]>
                            (rates ∪ the_data st))) as Hsame by auto.
  unfold refresh_step. simpl.
  destruct (needs_update _ _ _ _) as [[|]|e];
    [|by apply Hsame|by apply Hsame].
  destruct (tarif_url K (contract_type cfg)) as [url|] eqn:Hurl;
    [|by apply Hsame].
  destruct (fetch_rates cfg E url) as [rates|e] eqn:Hf.
  2:{ destruct e; by apply Hsame. }
  destruct (truthy_rates rates) eqn:Ht; [|by apply Hsame].
  simpl. split; [done|]. right.
  destruct rates as [rates|]; [|discriminate].
  unfold fetch_rates in Hf.
  destruct (http_csv E url) as [[rows|]|] eqn:Hc; try discriminate.
  unfold _parse_tariff_csv in Hf.
  destruct (select_row _ _ rows) as [[r|]|] eqn:Hs; try discriminate.
  destruct (extract_rates r _) as [rates'|] eqn:Hx; try discriminate.
  injection Hf as ->. by exists url, rows, r, rates.
Qed.

(** *** The outcome of the later parts *)

Lemma scan_ranges_raises (now : time) (entries : list string) (e : exn) :
  scan_ranges now entries = Raise e -> e = ValueError \/ e = IndexError.
Proof.
  induction entries as [|entry entries IH]; simpl; [discriminate|].
  repeat case_match; try discriminate; auto; intros [= <-]; auto.
Qed.

Lemma offpeak_step_raises (cfg : config) (E : env) (st : coordinator) (e : exn) :
  (offpeak_step K cfg E st).1 = Raise e -> e = ValueError \/ e = IndexError.
Proof.
  unfold offpeak_step.
  repeat case_match; simpl; try discriminate;
    intros [= <-]; eauto using scan_ranges_raises.
Qed.

Lemma tempo_step_raises (E : env) (st : coordinator) (e : exn) :
  (tempo_step K E st).1 = Raise e -> e = OverflowError.
Proof.
  unfold tempo_step.
  destruct (date_sub_day _) as [y|]; [|by intros [= <-]].
  destruct (date_add_day _) as [t|]; [|by intros [= <-]].
  destruct (tempo_body_resolves K E y (dt_date (now_tempo E)) t st)
    as (ty & tt_ & tm & st1 & st2 & st3 & _ & _ & _ & _ & ->).
  discriminate.
Qed.

(** A cycle whose refresh raises nothing fails, if at all, in a later
    part and not with [UpdateFailed]. *)
Lemma cycle_after_refresh (cfg : config) (E : env) (st st1 : coordinator) :
  refresh_step K cfg E (ensure_data cfg st) = (Return tt, st1) ->
  (_async_update_data K cfg E st).1 <> Raise UpdateFailed.
Proof.
  intros Hr. unfold _async_update_data. rewrite Hr.
  destruct (String.eqb (contract_type cfg) CONTRACT_TYPE_TEMPO).
  - destruct (tempo_step K E st1) as [[[]|e] st2] eqn:Ht.
    + destruct (offpeak_step K cfg E st2) as [[[]|e] st3] eqn:Ho; [done|].
      simpl. intros [= ->].
      by destruct (offpeak_step_raises cfg E st2 UpdateFailed); [by rewrite Ho| |].
    + simpl. intros [= ->].
      by pose proof (tempo_step_raises E st1 UpdateFailed ltac:(by rewrite Ht)).
  - destruct (offpeak_step K cfg E st1) as [[[]|e] st3] eqn:Ho; [done|].
    simpl. intros [= ->].
    by destruct (offpeak_step_raises cfg E st1 UpdateFailed); [by rewrite Ho| |].
Qed.

(** The fields that the later parts do not write are, at the end of the
    cycle, as the refresh left them. *)
Lemma cycle_frame (cfg : config) (E : env) (st : coordinator) (k : string) :
  k ∉ TEMPO_WRITTEN -> k ∉ OFFPEAK_WRITTEN ->
  the_data (_async_update_data K cfg E st).2 !! k
  = the_data (refresh_step K cfg E (ensure_data cfg st)).2 !! k.
Proof.
  intros Ht Ho. unfold _async_update_data.
  destruct (refresh_step K cfg E (ensure_data cfg st)) as [[[]|e] st1]; [|done].
  simpl.
  assert (forall st2,
            the_data
              (match offpeak_step K cfg E st2 with
               | (Raise e, st3) => (Raise e, st3)
               | (Return _, st3) => (Return (the_data st3), st3)
               end).2 !! k = the_data st2 !! k) as Hoff.
  { intros st2.
    destruct (offpeak_step_frame K cfg E st2) as (_ & _ & _ & Hk).
    destruct (offpeak_step K cfg E st2) as [[[]|e] st3]; simpl in *; by apply Hk. }
  destruct (String.eqb (contract_type cfg) CONTRACT_TYPE_TEMPO).
  - pose proof (tempo_step_frame K E st1 k Ht) as Hk.
    destruct (tempo_step K E st1) as [[[]|e] st2]; simpl in *; [|done].
    by rewrite Hoff.
  - apply Hoff.
Qed.

Lemma table_field_not_written (k : string) :
  k ∈ TABLE_FIELDS -> (k ∉ TEMPO_WRITTEN) /\ (k ∉ OFFPEAK_WRITTEN).
Proof.
  unfold TABLE_FIELDS. simpl. intros Hk.
  repeat (apply elem_of_cons in Hk as [->|Hk]; [split; compute_done|]).
  by apply elem_of_nil in Hk.
Qed.

(** X1, on claim C7: in a cycle where a refresh is due, a failure of the fetch or of the
    resolution of the table makes the cycle fail with [UpdateFailed] and
    leaves the whole snapshot as it was; a table that yields no row is no
    failure of the refresh, and the cycle leaves the fields of the table as
    they were; and [last_refresh_at] changes in a cycle only when the table
    that was fetched yielded a row, to the time of that refresh. *)
Theorem refresh_atomic (cfg : config) (E : env) (st : coordinator) :
  let st0 := ensure_data cfg st in
  let res := _async_update_data K cfg E st in
  (forall url e,
     refresh_due K cfg E st ->
     tarif_url K (contract_type cfg) = Some url ->
     fetch_rates cfg E url = Raise e ->
     res = (Raise UpdateFailed, log_request url st0)
     /\ data res.2 = data st0)
  /\ (forall url,
        refresh_due K cfg E st ->
        tarif_url K (contract_type cfg) = Some url ->
        fetch_rates cfg E url = Return None ->
        refresh_step K cfg E st0 = (Return tt, log_request url st0)
        /\ res.1 <> Raise UpdateFailed
        /\ forall k, k ∈ TABLE_FIELDS -> the_data res.2 !! k = the_data st0 !! k)
  /\ (the_data res.2 !! "last_refresh_at" <> the_data st0 !! "last_refresh_at" ->
      exists url rows r rates,
        tarif_url K (contract_type cfg) = Some url
        /\ http_csv E url = Return (Csv rows)
        /\ select_row (dt_date (now_csv E)) (contract_power cfg) rows
           = Return (Some r)
        /\ extract_rates r (contract_type cfg) = Return rates
        /\ the_data res.2 !! "last_refresh_at"
           = Some (VDatetime (now_refresh E))).
Proof.
  intros st0 res. split_and!.
  - intros url e Hdue Hurl Hf. unfold res, _async_update_data. fold st0.
    by rewrite (refresh_step_failure cfg E st0 url e Hdue Hurl Hf).
  - intros url Hdue Hurl Hf.
    pose proof (refresh_step_no_match cfg E st0 url Hdue Hurl Hf) as Hr.
    split_and!; [done|by eapply cycle_after_refresh|].
    intros k Hk. apply table_field_not_written in Hk as [Ht Ho].
    unfold res. rewrite cycle_frame by done. fold st0. by rewrite Hr.
  - unfold res. rewrite cycle_frame by compute_done. fold st0.
    destruct (refresh_step_data cfg E st0) as (_ & [Hsame|Hnew]).
    + intros H. by rewrite Hsame in H.
    + intros _. destruct Hnew as (url & rows & r & rates & ? & ? & ? & ? & Hd).
      exists url, rows, r, rates. split_and!; try done.
      rewrite Hd. apply lookup_insert_eq.
Qed.

End Refresh.

Lemma refresh_atomic_witness :
  (* the fetch fails *)
  (_async_update_data (F := F0) K0 cfg_base
     (env_at (at_time day1 12 0) no_csv no_api) init_coordinator
   = (Raise UpdateFailed,
      log_request (TARIF_BASE_URL K0) (ensure_data cfg_base init_coordinator))
   /\ data
        (_async_update_data (F := F0) K0 cfg_base
           (env_at (at_time day1 12 0) no_csv no_api) init_coordinator).2
      = data (ensure_data cfg_base init_coordinator))
  (* no row of the table has the power of the contract *)
  /\ (refresh_step (F := F0) K0 cfg_base_9
        (env_at (at_time day1 12 0) base_csv no_api)
        (ensure_data cfg_base_9 init_coordinator)
      = (Return tt,
         log_request (TARIF_BASE_URL K0)
           (ensure_data cfg_base_9 init_coordinator))
      /\ (_async_update_data (F := F0) K0 cfg_base_9
            (env_at (at_time day1 12 0) base_csv no_api) init_coordinator).1
         <> Raise UpdateFailed
      /\ forall k,
           k ∈ TABLE_FIELDS ->
           the_data
             (_async_update_data (F := F0) K0 cfg_base_9
                (env_at (at_time day1 12 0) base_csv no_api)
                init_coordinator).2 !! k
           = the_data (ensure_data cfg_base_9 init_coordinator) !! k).
Proof.
  split.
  - refine (proj1 (refresh_atomic K0 cfg_base
                     (env_at (at_time day1 12 0) no_csv no_api)
                     init_coordinator)
              (TARIF_BASE_URL K0) ClientError _ _ _); vm_refl.
  - refine (proj1 (proj2 (refresh_atomic K0 cfg_base_9
                            (env_at (at_time day1 12 0) base_csv no_api)
                            init_coordinator))
              (TARIF_BASE_URL K0) _ _ _); vm_refl.
Defined.

(** C9, as the claim states it, fails: once the table is fresh, a cycle
    with a contract type that is none of the three raises nothing. *)
Lemma unknown_type_fresh_table_returns :
  reachable (F := F0) K0 after_base_cycle
  /\ ~ known_contract_type (contract_type cfg_other)
  /\ (_async_update_data (F := F0) K0 cfg_other
        (env_at (at_time day1 12 1) no_csv no_api) after_base_cycle).1
     = Return (the_data after_base_cycle).
Proof.
  split_and!.
  - apply reachable_cycle, reachable_init.
  - unfold known_contract_type. by intros [H|[H|H]].
  - vm_refl.
Qed.

(** ** The off-peak schedule *)

Section OffPeak.

Context {F : PyFloat} (K : Const).

(** An entry that fails the pattern is skipped. *)
Lemma scan_ranges_skip (now : time) (entry : string) (entries : list string) :
  re_match RANGE_PATTERN (strip entry) = false ->
  scan_ranges now (entry :: entries) = scan_ranges now entries.
Proof. intros H. simpl. by rewrite H. Qed.

(** An entry that is read as a range decides, or passes to the next. *)
Lemma scan_ranges_range (now : time) (entry : string) (entries : list string)
    (start end_ : time) :
  entry_range entry start end_ ->
  scan_ranges now (entry :: entries)
  = if time_in_between now start end_ then Return true
    else scan_ranges now entries.
Proof.
  intros (Hm & h0 & h1 & rest & Hs & H0 & H1). simpl.
  by rewrite Hm, Hs, H0, H1.
Qed.

Lemma entry_range_fun (entry : string) (s1 e1 s2 e2 : time) :
  entry_range entry s1 e1 -> entry_range entry s2 e2 -> s1 = s2 /\ e1 = e2.
Proof.
  intros (_ & h0 & h1 & rest & Hs & H0 & H1)
         (_ & h0' & h1' & rest' & Hs' & H0' & H1').
  rewrite Hs in Hs'. injection Hs' as <- <- _. split; congruence.
Qed.

Lemma entry_range_matches (entry : string) (s e : time) :
  entry_range entry s e -> re_match RANGE_PATTERN (strip entry) = true.
Proof. by intros (H & _). Qed.

(** On a schedule of sound entries the loop raises nothing, and leaves by
    [break] exactly when the clock is within some range. *)
Lemma scan_ranges_sound (now : time) (entries : list string) :
  Forall entry_sound entries ->
  exists b,
    scan_ranges now entries = Return b
    /\ (b = true <-> within_schedule now entries).
Proof.
  induction 1 as [|entry entries Hentry _ IH].
  - exists false. split; [done|]. split; [done|].
    intros (e & _ & _ & Hin & _). by apply elem_of_nil in Hin.
  - destruct IH as (b & Hscan & Hb).
    destruct Hentry as [Hskip|(start & end_ & Hr)].
    + exists b. rewrite scan_ranges_skip by done. split; [done|].
      rewrite Hb. split.
      * intros (e & s & t & Hin & He & Ht). exists e, s, t.
        split_and!; [by right|done|done].
      * intros (e & s & t & Hin & He & Ht).
        apply elem_of_cons in Hin as [->|Hin].
        -- apply entry_range_matches in He. congruence.
        -- by exists e, s, t.
    + rewrite (scan_ranges_range now entry entries start end_ Hr).
      destruct (time_in_between now start end_) eqn:Hin.
      * exists true. split; [done|]. split; [|done]. intros _.
        exists entry, start, end_. split_and!; [by left|done|done].
      * exists b. split; [done|]. rewrite Hb. split.
        -- intros (e & s & t & Hi & He & Ht). exists e, s, t.
           split_and!; [by right|done|done].
        -- intros (e & s & t & Hi & He & Ht).
           apply elem_of_cons in Hi as [->|Hi].
           ++ destruct (entry_range_fun _ _ _ _ _ He Hr) as [-> ->].
              congruence.
           ++ by exists e, s, t.
Qed.

(** X3: the first range that holds the clock wins.  After entries that
    are skipped or are ranges that do not hold the clock, an entry whose
    range holds it ends the loop: what follows it is not read, whatever it
    is. *)
Lemma scan_ranges_first_match (now : time) (before after : list string)
    (entry : string) (start end_ : time) :
  Forall entry_sound before ->
  ~ within_schedule now before ->
  entry_range entry start end_ ->
  time_in_between now start end_ = true ->
  scan_ranges now (before ++ entry :: after) = Return true.
Proof.
  intros Hsound Hnot Hr Hin.
  induction Hsound as [|e before He _ IH]; simpl app.
  - rewrite (scan_ranges_range now entry after start end_ Hr). by rewrite Hin.
  - assert (~ within_schedule now before) as Hnot'.
    { intros (e' & s & t & Hi & He' & Ht). apply Hnot. exists e', s, t.
      split_and!; [by right|done|done]. }
    destruct He as [Hskip|(s & t & Hr')].
    + rewrite scan_ranges_skip by done. by apply IH.
    + rewrite (scan_ranges_range now e _ s t Hr').
      destruct (time_in_between now s t) eqn:Hst; [done|]. by apply IH.
Qed.

(** For an hphc or tempo contract with a schedule of sound entries, the
    off-peak part raises nothing: [is_off_peak] is true and the current
    rate is the off-peak rate when the clock is within some range of the
    schedule, and otherwise [is_off_peak] is false and the current rate is
    the peak rate. *)
Lemma offpeak_step_sound (cfg : config) (E : env) (st : coordinator)
    (s : string) (key : string) :
  (contract_type cfg = CONTRACT_TYPE_HPHC /\ key = "hphc"
   \/ contract_type cfg = CONTRACT_TYPE_TEMPO /\ key = "tempo") ->
  schedule_of K cfg = Some s ->
  s <> "" ->
  Forall entry_sound (split "," s) ->
  exists b st',
    offpeak_step K cfg E st = (Return tt, st')
    /\ (b = true <-> within_schedule (dt_time (now_off_peak E)) (split "," s))
    /\ the_data st' !! "is_off_peak" = Some (VBool b)
    /\ the_data st' !! "tarif_actuel_ttc"
       = Some (dget (the_data st)
                 (key +:+ (if b then "_variable_hc_ttc" else "_variable_hp_ttc"))).
Proof.
  intros Htype Hsched Hne Hsound.
  destruct (scan_ranges_sound (dt_time (now_off_peak E)) _ Hsound)
    as (b & Hscan & Hb).
  exists b. unfold offpeak_step. unfold schedule_of in Hsched.
  assert (nonempty s = true) as Hne' by by apply nonempty_true.
  destruct Htype as [[Ht ->]|[Ht ->]]; rewrite Ht; simpl;
    rewrite Ht in Hsched; simpl in Hsched;
    destruct (off_peak_hours_ranges cfg) as [s'|];
    try discriminate; injection Hsched as ->;
    rewrite Hne', Hscan; eexists; (split; [reflexivity|]);
    (split; [done|]); rewrite the_data_set_data;
    (split; [apply lookup_insert_eq|]);
    rewrite lookup_insert_ne by done; rewrite lookup_insert_eq;
    by destruct b.
Qed.

End OffPeak.

(** C3, on the code: an entry of the schedule that starts as a range and
    goes on, here ["22:00-06:00x"], fails the strict pattern, yet
    [re.match] lets it through and [str_to_time] raises [ValueError] out of
    the cycle. *)
Theorem offpeak_trailing_text_raises :
  re_fullmatch RANGE_PATTERN "22:00-06:00x" = false
  /\ re_match RANGE_PATTERN "22:00-06:00x" = true
  /\ (_async_update_data (F := F0) K0 cfg_hphc_trailing
        (env_at (at_time day1 23 0) hphc_csv no_api) init_coordinator).1
     = Raise ValueError.
Proof. split_and!; vm_refl. Qed.

(** The hphc scenario of the specification: power 6, schedule
    ["22:00-06:00"], at 23:00 the cycle marks off-peak and the current rate
    is the off-peak rate. *)
Example hphc_scenario :
  let d := the_data
             (_async_update_data (F := F0) K0 cfg_hphc
                (env_at (at_time day1 23 0) hphc_csv no_api)
                init_coordinator).2 in
  d !! "is_off_peak" = Some (VBool true)
  /\ d !! "tarif_actuel_ttc" = d !! "hphc_variable_hc_ttc"
  /\ d !! "hphc_variable_hc_ttc" = Some (@VFloat F0 (Lit "0.2068")).
Proof. split_and!; vm_refl. Qed.

(** An entry that does not start as a range is skipped. *)
Example skipped_entry :
  scan_ranges (mk_time 23 0 0 0) (split "," "nuit, 22:00-06:00 ") = Return true
  /\ scan_ranges (mk_time 12 0 0 0) (split "," "nuit, 22:00-06:00 ") = Return false.
Proof. split; vm_refl. Qed.

(** ** The invariant of the states that cycles reach *)

Ltac keys :=
  cbv [tempo_hp_key tempo_hc_key String.append map fst COLORS app].

Ltac keys_in H :=
  cbv [tempo_hp_key tempo_hc_key String.append map fst COLORS app] in H.

Section Invariant.

Context {F : PyFloat} (K : Const).

(** *** The rates that a row yields *)

Lemma parse_fields_other (bm : row) (fields : list (string * string))
    (acc r : gmap string value) (k : string) :
  parse_fields bm fields acc = Return r ->
  k ∉ map fst fields ->
  r !! k = acc !! k.
Proof.
  revert acc. induction fields as [|[key column] fields IH]; intros acc; simpl.
  - by intros [= ->].
  - destruct (parse_price _) as [x|]; [|discriminate].
    intros Hr Hk. apply not_elem_of_cons in Hk as [Hne Hk].
    rewrite (IH _ Hr Hk). by rewrite lookup_insert_ne.
Qed.

Lemma parse_fields_some (bm : row) (fields : list (string * string))
    (acc r : gmap string value) (k : string) :
  parse_fields bm fields acc = Return r ->
  k ∈ map fst fields \/ is_Some (acc !! k) ->
  is_Some (r !! k).
Proof.
  revert acc. induction fields as [|[key column] fields IH]; intros acc; simpl.
  - intros [= ->] [Hk|Hk]; [by apply elem_of_nil in Hk|done].
  - destruct (parse_price _) as [x|]; [|discriminate].
    intros Hr Hk. apply (IH _ Hr).
    destruct (decide (k = key)) as [->|Hne].
    + right. by rewrite lookup_insert_eq.
    + destruct Hk as [Hk|Hk].
      * apply elem_of_cons in Hk as [Hk|Hk]; [done|by left].
      * right. by rewrite lookup_insert_ne.
Qed.

Lemma add_abonnement_other (fixe abo : string) (r : gmap string value)
    (k : string) :
  k <> abo -> add_abonnement fixe abo r !! k = r !! k.
Proof.
  intros Hk. unfold add_abonnement.
  repeat case_match; try done. by rewrite lookup_insert_ne.
Qed.

Lemma add_abonnement_some (fixe abo : string) (r : gmap string value)
    (k : string) :
  is_Some (r !! k) -> is_Some (add_abonnement fixe abo r !! k).
Proof.
  intros Hk. unfold add_abonnement. repeat case_match; try done.
  destruct (decide (k = abo)) as [->|Hne].
  - by rewrite lookup_insert_eq.
  - by rewrite lookup_insert_ne.
Qed.

(** The rates of a row hold none of the fallback and current-rate fields,
    and the rates of all colours (tempo) or of none (the other types). *)
Lemma extract_rates_watched (bm : row) (type : string)
    (rates : gmap string value) :
  extract_rates bm type = Return rates ->
  (forall k,
     k ∈ ["_fallback_today_color"; "_fallback_today_date";
          "tempo_variable_hp_ttc"; "tempo_variable_hc_ttc"] ->
     rates !! k = None)
  /\ ((forall c, c ∈ COLORS ->
         is_Some (rates !! tempo_hp_key c) /\ is_Some (rates !! tempo_hc_key c))
      \/ (forall c, c ∈ COLORS ->
            rates !! tempo_hp_key c = None /\ rates !! tempo_hc_key c = None)).
Proof.
  unfold extract_rates.
  destruct (String.eqb type CONTRACT_TYPE_BASE).
  { destruct (parse_fields bm BASE_FIELDS ∅) as [r|] eqn:Hr; [|discriminate].
    intros [= <-]. split.
    - intros k Hk.
      repeat (apply elem_of_cons in Hk as [->|Hk];
              [rewrite add_abonnement_other by done;
               rewrite (parse_fields_other _ _ _ _ _ Hr) by compute_done;
               done|]).
      by apply elem_of_nil in Hk.
    - right. intros c Hc. unfold COLORS in Hc.
      repeat (apply elem_of_cons in Hc as [->|Hc];
              [keys; rewrite !add_abonnement_other by done;
               rewrite !(parse_fields_other _ _ _ _ _ Hr) by compute_done;
               done|]).
      by apply elem_of_nil in Hc. }
  destruct (String.eqb type CONTRACT_TYPE_HPHC).
  { destruct (parse_fields bm HPHC_FIELDS ∅) as [r|] eqn:Hr; [|discriminate].
    intros [= <-]. split.
    - intros k Hk.
      repeat (apply elem_of_cons in Hk as [->|Hk];
              [rewrite add_abonnement_other by done;
               rewrite (parse_fields_other _ _ _ _ _ Hr) by compute_done;
               done|]).
      by apply elem_of_nil in Hk.
    - right. intros c Hc. unfold COLORS in Hc.
      repeat (apply elem_of_cons in Hc as [->|Hc];
              [keys; rewrite !add_abonnement_other by done;
               rewrite !(parse_fields_other _ _ _ _ _ Hr) by compute_done;
               done|]).
      by apply elem_of_nil in Hc. }
  destruct (String.eqb type CONTRACT_TYPE_TEMPO).
  { destruct (parse_fields bm TEMPO_FIELDS ∅) as [r|] eqn:Hr; [|discriminate].
    intros [= <-]. split.
    - intros k Hk.
      repeat (apply elem_of_cons in Hk as [->|Hk];
              [rewrite add_abonnement_other by done;
               rewrite (parse_fields_other _ _ _ _ _ Hr) by compute_done;
               done|]).
      by apply elem_of_nil in Hk.
    - left. intros c Hc. unfold COLORS in Hc.
      repeat (apply elem_of_cons in Hc as [->|Hc];
              [keys; split; apply add_abonnement_some;
               apply (parse_fields_some _ _ _ _ _ Hr); left; compute_done|]).
      by apply elem_of_nil in Hc. }
  intros [= <-]. split; [done|]. right. done.
Qed.

(** *** The invariant depends on the watched fields only *)

Lemma watched_ext (d d' : gmap string value) :
  (forall k, k ∈ WATCHED -> d' !! k = d !! k) ->
  snapshot_ok d' = snapshot_ok d /\ rates_ok d' = rates_ok d.
Proof.
  intros H.
  unfold snapshot_ok, rates_ok, all_rates, no_rates, has_key, dget.
  cbn [forallb COLORS]. keys.
  by rewrite !H by compute_done.
Qed.

Lemma all_rates_spec (d : gmap string value) :
  all_rates d = true <->
  forall c, c ∈ COLORS ->
    is_Some (d !! tempo_hp_key c) /\ is_Some (d !! tempo_hc_key c).
Proof.
  unfold all_rates. rewrite forallb_forall. split.
  - intros H c Hc. apply list_elem_of_In, H in Hc.
    apply andb_true_iff in Hc as [H1 H2]. unfold has_key in *.
    split; by repeat case_match.
  - intros H c Hc. apply list_elem_of_In, H in Hc as [[? H1] [? H2]].
    unfold has_key. by rewrite H1, H2.
Qed.

(** With the invariant, the two rates of a colour are both in the snapshot,
    or neither is and there are no current rates. *)
Lemma rates_ok_guard (d : gmap string value) (c : string) :
  c ∈ COLORS ->
  rates_ok d = true ->
  has_key d (tempo_hp_key c) && has_key d (tempo_hc_key c) = true
  \/ (has_key d (tempo_hp_key c) && has_key d (tempo_hc_key c) = false
      /\ dget d (tempo_hp_key c) = VNone
      /\ dget d (tempo_hc_key c) = VNone
      /\ dget d "tempo_variable_hp_ttc" = VNone
      /\ dget d "tempo_variable_hc_ttc" = VNone).
Proof.
  intros Hc Hok. unfold rates_ok in Hok.
  apply orb_true_iff in Hok as [Hall|Hnone].
  - left. unfold all_rates in Hall. rewrite forallb_forall in Hall.
    by apply Hall, list_elem_of_In.
  - right. apply andb_true_iff in Hnone as [Hnone Hhc].
    apply andb_true_iff in Hnone as [Hnone Hhp].
    unfold no_rates in Hnone. rewrite forallb_forall in Hnone.
    apply list_elem_of_In, Hnone in Hc.
    apply andb_true_iff in Hc as [H1 H2].
    unfold has_key, dget, is_none, is_not_none in *.
    destruct (d !! tempo_hp_key c), (d !! tempo_hc_key c); try discriminate.
    split_and!; try done; by repeat case_match.
Qed.

(** *** The Tempo part in one piece *)

Lemma resolve_today_frame (today_date : date) (c : string)
    (d : gmap string value) (st : coordinator) :
  d !! "_fallback_today_color" = the_data st !! "_fallback_today_color" ->
  d !! "_fallback_today_date" = the_data st !! "_fallback_today_date" ->
  resolve_today today_date c (set_data d st) = resolve_today today_date c st.
Proof.
  intros H1 H2. unfold resolve_today, dget. rewrite the_data_set_data.
  by rewrite H1, H2.
Qed.

Lemma tempo_resolve_unfold (E : env) (today_date tomorrow : date)
    (ty tt_ tm : tempo_day) (st : coordinator) :
  tempo_resolve K E today_date tomorrow ty tt_ tm st
  = let st_c :=
      store_fallback tomorrow (get_tempo_color_from_code (code_of tm))
        (set_data (colours_written today_date ty tt_ tm st) st) in
    set_data
      (set_current_rates
         (effective_code K E
            (resolve_today today_date
               (get_tempo_color_from_code (code_of tt_)) st) ty)
         (the_data st_c)) st_c.
Proof.
  unfold tempo_resolve, colours_written, effective_code.
  rewrite !the_data_set_data.
  rewrite resolve_today_frame by by skip_inserts.
  reflexivity.
Qed.

Lemma store_fallback_memory (tomorrow : date) (tc : string) (st : coordinator) :
  memory_ok st = true -> memory_ok (store_fallback tomorrow tc st) = true.
Proof.
  unfold store_fallback.
  destruct (negb (String.eqb tc INDETERMINE)) eqn:Hk; [|done].
  intros _. unfold memory_ok. simpl. exact Hk.
Qed.

Lemma store_fallback_snapshot (tomorrow : date) (tc : string)
    (st : coordinator) :
  snapshot_ok (the_data st) = true ->
  snapshot_ok (the_data (store_fallback tomorrow tc st)) = true.
Proof.
  unfold store_fallback. case_match; [|done]. intros _.
  rewrite the_data_set_data. unfold snapshot_ok, has_key, dget.
  rewrite lookup_insert_eq. rewrite lookup_insert_ne by done.
  by rewrite lookup_insert_eq.
Qed.

Lemma store_fallback_frame (tomorrow : date) (tc : string) (st : coordinator)
    (k : string) :
  k <> "_fallback_today_color" -> k <> "_fallback_today_date" ->
  the_data (store_fallback tomorrow tc st) !! k = the_data st !! k.
Proof.
  intros H1 H2. unfold store_fallback. case_match; [|done].
  rewrite the_data_set_data, the_data_set_previous_demain. by skip_inserts.
Qed.

(** [set_current_rates] writes the current colour and the current rates
    only. *)
Lemma set_current_rates_writes (code : Z) (d : gmap string value) (k : string) :
  k <> "tempo_couleur" -> k <> "tempo_variable_hp_ttc" ->
  k <> "tempo_variable_hc_ttc" ->
  set_current_rates code d !! k = d !! k.
Proof.
  intros H1 H2 H3. unfold set_current_rates.
  repeat case_match; by skip_inserts.
Qed.

Lemma color_of_known (code : Z) :
  known code -> get_tempo_color_from_code code ∈ COLORS.
Proof. intros [-> | [-> | ->]]; compute_done. Qed.

Lemma color_key_not_written (c : string) :
  c ∈ COLORS ->
  (tempo_hp_key c ∉ TEMPO_WRITTEN) /\ (tempo_hc_key c ∉ TEMPO_WRITTEN).
Proof.
  unfold COLORS. intros Hc.
  repeat (apply elem_of_cons in Hc as [->|Hc]; [split; compute_done|]).
  by apply elem_of_nil in Hc.
Qed.

Lemma rates_ok_ext (d d' : gmap string value) :
  (forall c, c ∈ COLORS ->
     d' !! tempo_hp_key c = d !! tempo_hp_key c
     /\ d' !! tempo_hc_key c = d !! tempo_hc_key c) ->
  is_none (dget d' "tempo_variable_hp_ttc")
  = is_none (dget d "tempo_variable_hp_ttc") ->
  is_none (dget d' "tempo_variable_hc_ttc")
  = is_none (dget d "tempo_variable_hc_ttc") ->
  rates_ok d' = rates_ok d.
Proof.
  intros Hc Hhp Hhc. unfold rates_ok. rewrite Hhp, Hhc.
  unfold all_rates, no_rates, has_key. cbn [forallb COLORS].
  destruct (Hc "bleu" ltac:(compute_done)) as [-> ->].
  destruct (Hc "blanc" ltac:(compute_done)) as [-> ->].
  destruct (Hc "rouge" ltac:(compute_done)) as [-> ->].
  reflexivity.
Qed.

Lemma rates_ok_all (d : gmap string value) (c : string) :
  c ∈ COLORS -> rates_ok d = true -> has_key d (tempo_hp_key c) = true ->
  all_rates d = true.
Proof.
  intros Hc Hok Hk. unfold rates_ok in Hok.
  apply orb_true_iff in Hok as [Hall|Hnone]; [done|].
  apply andb_true_iff in Hnone as [Hnone _].
  apply andb_true_iff in Hnone as [Hnone _].
  unfold no_rates in Hnone. rewrite forallb_forall in Hnone.
  apply list_elem_of_In, Hnone in Hc. rewrite Hk in Hc. discriminate.
Qed.

Lemma all_rates_ext (d d' : gmap string value) :
  (forall c, c ∈ COLORS ->
     d' !! tempo_hp_key c = d !! tempo_hp_key c
     /\ d' !! tempo_hc_key c = d !! tempo_hc_key c) ->
  all_rates d' = all_rates d.
Proof.
  intros Hc. unfold all_rates, has_key. cbn [forallb COLORS].
  destruct (Hc "bleu" ltac:(compute_done)) as [-> ->].
  destruct (Hc "blanc" ltac:(compute_done)) as [-> ->].
  destruct (Hc "rouge" ltac:(compute_done)) as [-> ->].
  reflexivity.
Qed.

Lemma set_current_rates_colors (code : Z) (d : gmap string value) (c : string) :
  c ∈ COLORS ->
  set_current_rates code d !! tempo_hp_key c = d !! tempo_hp_key c
  /\ set_current_rates code d !! tempo_hc_key c = d !! tempo_hc_key c.
Proof.
  intros Hc. destruct (color_key_not_written c Hc).
  split; by apply set_current_rates_frame.
Qed.

Lemma set_current_rates_ok (code : Z) (d : gmap string value) :
  rates_ok d = true -> rates_ok (set_current_rates code d) = true.
Proof.
  intros Hok.
  destruct (in_123 code) eqn:Hcode.
  - pose proof (color_of_known code (proj1 (in_123_known code) Hcode)) as Hc.
    destruct (has_key d (tempo_hp_key (get_tempo_color_from_code code)))
      eqn:Hhp.
    + pose proof (rates_ok_all d _ Hc Hok Hhp) as Hall.
      unfold rates_ok.
      rewrite (all_rates_ext d) by (intros; by apply set_current_rates_colors).
      by rewrite Hall.
    + (etransitivity; [|exact Hok]). apply watched_ext.
      intros k Hk. unfold set_current_rates. rewrite Hcode.
      assert (has_key
                (<["tempo_couleur" := VStr (get_tempo_color_from_code code)]> d)
                (tempo_hp_key (get_tempo_color_from_code code)) = false) as ->.
      { unfold has_key in *. rewrite lookup_insert_ne; [done|].
        destruct (color_key_not_written _ Hc) as [Hn _].
        intros Heq. apply Hn. rewrite <- Heq. compute_done. }
      simpl. unfold WATCHED in Hk. keys_in Hk.
      repeat (apply elem_of_cons in Hk as [->|Hk];
              [by rewrite lookup_insert_ne|]).
      by apply elem_of_nil in Hk.
  - (etransitivity; [|exact Hok]). apply rates_ok_ext.
    + intros c Hc. by apply set_current_rates_colors.
    + unfold set_current_rates. rewrite Hcode. unfold has_key, dget.
      rewrite (lookup_insert_ne _ "tempo_couleur" "tempo_variable_hp_ttc") by done.
      destruct (d !! "tempo_variable_hp_ttc") eqn:Hhp.
      * repeat case_match; by skip_inserts; rewrite ?Hhp.
      * rewrite (lookup_insert_ne _ "tempo_variable_hp_ttc"
                   "tempo_variable_hc_ttc") by done.
        rewrite (lookup_insert_ne _ "tempo_couleur" "tempo_variable_hc_ttc")
          by done.
        destruct (d !! "tempo_variable_hc_ttc");
          skip_inserts; by rewrite lookup_insert_eq.
    + unfold set_current_rates. rewrite Hcode. unfold has_key, dget.
      rewrite (lookup_insert_ne _ "tempo_couleur" "tempo_variable_hp_ttc") by done.
      destruct (d !! "tempo_variable_hp_ttc") eqn:Hhp.
      * rewrite (lookup_insert_ne _ "tempo_couleur" "tempo_variable_hc_ttc")
          by done.
        destruct (d !! "tempo_variable_hc_ttc") eqn:Hhc.
        -- skip_inserts. by rewrite Hhc.
        -- by rewrite lookup_insert_eq.
      * rewrite (lookup_insert_ne _ "tempo_variable_hp_ttc"
                   "tempo_variable_hc_ttc") by done.
        rewrite (lookup_insert_ne _ "tempo_couleur" "tempo_variable_hc_ttc")
          by done.
        destruct (d !! "tempo_variable_hc_ttc") eqn:Hhc.
        -- skip_inserts. by rewrite Hhc.
        -- by rewrite lookup_insert_eq.
Qed.

(** *** Every step keeps the invariant *)

Lemma inv_split (st : coordinator) :
  inv st = true <->
  memory_ok st = true /\ snapshot_ok (the_data st) = true
  /\ rates_ok (the_data st) = true.
Proof. unfold inv. rewrite !andb_true_iff. tauto. Qed.

Lemma memory_ok_same (st st' : coordinator) :
  same_memory st st' -> memory_ok st' = memory_ok st.
Proof. intros [H1 H2]. unfold memory_ok. by rewrite H1, H2. Qed.

Lemma inv_same_store (st st' : coordinator) :
  same_store st st' -> inv st' = inv st.
Proof.
  intros Hs. unfold inv.
  rewrite (same_store_the_data _ _ Hs).
  destruct Hs as [_ Hm]. by rewrite (memory_ok_same _ _ Hm).
Qed.

Lemma inv_init : inv init_coordinator = true.
Proof. reflexivity. Qed.

Lemma initial_data_watched (cfg : config) (k : string) :
  k ∈ WATCHED -> initial_data cfg !! k = (∅ : gmap string value) !! k.
Proof.
  unfold WATCHED, initial_data. keys. intros Hk.
  repeat (apply elem_of_cons in Hk as [->|Hk]; [by skip_inserts|]).
  by apply elem_of_nil in Hk.
Qed.

Lemma inv_ensure_data (cfg : config) (st : coordinator) :
  inv st = true -> inv (ensure_data cfg st) = true.
Proof.
  unfold ensure_data. destruct (data st) as [d|] eqn:Hd; [done|].
  rewrite !inv_split. unfold the_data. rewrite Hd. simpl.
  intros (Hm & Hs & Hr). split; [done|].
  destruct (watched_ext ∅ (initial_data cfg) (initial_data_watched cfg))
    as [-> ->].
  done.
Qed.

Lemma color_key_not_stamp (c : string) :
  "last_refresh_at" <> tempo_hp_key c /\ "last_refresh_at" <> tempo_hc_key c.
Proof. unfold tempo_hp_key, tempo_hc_key. simpl. split; discriminate. Qed.

Lemma inv_refresh_step (cfg : config) (E : env) (st : coordinator) :
  inv st = true -> inv (refresh_step K cfg E st).2 = true.
Proof.
  rewrite !inv_split. intros (Hm & Hs & Hr).
  destruct (refresh_step_data K cfg E st) as (Hmem & [Hsame|Hnew]).
  - rewrite Hsame. by rewrite (memory_ok_same _ _ Hmem).
  - rewrite (memory_ok_same _ _ Hmem). split; [done|].
    destruct Hnew as (url & rows & r & rates & _ & _ & _ & Hx & ->).
    destruct (extract_rates_watched r _ rates Hx) as (Hother & Hcolors).
    assert (forall k,
              k ∈ ["_fallback_today_color"; "_fallback_today_date";
                   "tempo_variable_hp_ttc"; "tempo_variable_hc_ttc"] ->
              (<["last_refresh_at" := VDatetime (now_refresh E)]>
                 (rates ∪ the_data st) : gmap string value) !! k
              = the_data st !! k) as Hkeep.
    { intros k Hk. pose proof (Hother k Hk) as Hnone.
      rewrite lookup_insert_ne.
      - by apply lookup_union_r.
      - intros <-. revert Hk. compute_done. }
    split.
    + (etransitivity; [|exact Hs]). unfold snapshot_ok, has_key, dget.
      by rewrite !Hkeep by compute_done.
    + destruct Hcolors as [Hall|Hnone].
      * unfold rates_ok. apply orb_true_iff. left.
        apply all_rates_spec. intros c Hc.
        destruct (Hall c Hc) as [[x Hx1] [y Hx2]].
        destruct (color_key_not_stamp c) as [N1 N2].
        rewrite !lookup_insert_ne by done.
        rewrite (lookup_union_Some_l _ _ _ _ Hx1).
        by rewrite (lookup_union_Some_l _ _ _ _ Hx2).
      * (etransitivity; [|exact Hr]). apply rates_ok_ext.
        -- intros c Hc. destruct (Hnone c Hc) as [N1 N2].
           destruct (color_key_not_stamp c) as [M1 M2].
           split; (rewrite lookup_insert_ne by done); by apply lookup_union_r.
        -- unfold dget. by rewrite Hkeep by compute_done.
        -- unfold dget. by rewrite Hkeep by compute_done.
Qed.

Lemma inv_tempo_resolve (E : env) (today_date tomorrow : date)
    (ty tt_ tm : tempo_day) (st : coordinator) :
  inv st = true ->
  inv (tempo_resolve K E today_date tomorrow ty tt_ tm st) = true.
Proof.
  rewrite !inv_split. intros (Hm & Hs & Hr).
  rewrite tempo_resolve_unfold. cbv zeta.
  set (st_b := set_data (colours_written today_date ty tt_ tm st) st).
  assert (memory_ok st_b = true) as Hmb by exact Hm.
  assert (snapshot_ok (the_data st_b) = true) as Hsb.
  { (etransitivity; [|exact Hs]). unfold st_b, colours_written, snapshot_ok, has_key, dget.
    rewrite the_data_set_data. by skip_inserts. }
  assert (rates_ok (the_data st_b) = true) as Hrb.
  { (etransitivity; [|exact Hr]). apply watched_ext. intros k Hk.
    unfold st_b, colours_written. rewrite the_data_set_data.
    unfold WATCHED in Hk. keys_in Hk.
    repeat (apply elem_of_cons in Hk as [->|Hk]; [by skip_inserts|]).
    by apply elem_of_nil in Hk. }
  set (st_c := store_fallback tomorrow _ st_b).
  split_and!.
  - apply (store_fallback_memory tomorrow _ st_b Hmb).
  - rewrite the_data_set_data.
    pose proof (store_fallback_snapshot tomorrow
                  (get_tempo_color_from_code (code_of tm)) st_b Hsb) as Hsc.
    fold st_c in Hsc. (etransitivity; [|exact Hsc]).
    unfold snapshot_ok, has_key, dget.
    by rewrite !set_current_rates_writes by done.
  - rewrite the_data_set_data. apply set_current_rates_ok.
    (etransitivity; [|exact Hrb]). apply rates_ok_ext.
    + intros c Hc. unfold st_c, COLORS in *.
      repeat (apply elem_of_cons in Hc as [->|Hc];
              [split; by apply store_fallback_frame|]).
      by apply elem_of_nil in Hc.
    + unfold dget, st_c. by rewrite store_fallback_frame by done.
    + unfold dget, st_c. by rewrite store_fallback_frame by done.
Qed.

Lemma inv_tempo_step (E : env) (st : coordinator) :
  inv st = true -> inv (tempo_step K E st).2 = true.
Proof.
  intros Hinv. unfold tempo_step.
  destruct (date_sub_day _) as [y|]; [|done].
  destruct (date_add_day _) as [t|]; [|done].
  destruct (tempo_body_resolves K E y (dt_date (now_tempo E)) t st)
    as (ty & tt_ & tm & st1 & st2 & st3 & _ & _ & _ & S & ->).
  simpl. apply inv_tempo_resolve. by rewrite (inv_same_store _ _ S).
Qed.

Lemma inv_offpeak_step (cfg : config) (E : env) (st : coordinator) :
  inv st = true -> inv (offpeak_step K cfg E st).2 = true.
Proof.
  rewrite !inv_split. intros (Hm & Hs & Hr).
  destruct (offpeak_step_frame K cfg E st) as (Hmem & _ & _ & Hk).
  rewrite (memory_ok_same _ _ Hmem). split; [done|].
  destruct (watched_ext (the_data st) (the_data (offpeak_step K cfg E st).2))
    as [-> ->]; [|done].
  intros k Hw. apply Hk. revert Hw. unfold WATCHED. keys. intros Hw.
  repeat (apply elem_of_cons in Hw as [->|Hw]; [compute_done|]).
  by apply elem_of_nil in Hw.
Qed.

(** A cycle keeps the invariant, however it ends. *)
Lemma inv_cycle (cfg : config) (E : env) (st : coordinator) :
  inv st = true -> inv (_async_update_data K cfg E st).2 = true.
Proof.
  intros Hinv. apply (inv_ensure_data cfg) in Hinv.
  apply (inv_refresh_step cfg E) in Hinv.
  unfold _async_update_data.
  destruct (refresh_step K cfg E (ensure_data cfg st)) as [[[]|e] st1];
    [|done].
  simpl in Hinv.
  assert (forall st2, inv st2 = true ->
            inv (match offpeak_step K cfg E st2 with
                 | (Raise e, st3) => (Raise e, st3)
                 | (Return _, st3) => (Return (the_data st3), st3)
                 end).2 = true) as Hoff.
  { intros st2 H2. apply (inv_offpeak_step cfg E) in H2.
    by destruct (offpeak_step K cfg E st2) as [[[]|e] st3]. }
  destruct (String.eqb (contract_type cfg) CONTRACT_TYPE_TEMPO).
  - apply (inv_tempo_step E) in Hinv.
    destruct (tempo_step K E st1) as [[[]|e] st2]; [|done].
    by apply Hoff.
  - by apply Hoff.
Qed.

(** Every state that cycles reach has the invariant. *)
Lemma reachable_inv (st : coordinator) : reachable K st -> inv st = true.
Proof.
  induction 1 as [|cfg E st _ IH]; [apply inv_init|by apply inv_cycle].
Qed.

End Invariant.

(** ** The Tempo part of a cycle *)

Section Tempo.

Context {F : PyFloat} (K : Const).

Lemma date_eqb_eq (a b : date) : date_eqb a b = true <-> a = b.
Proof.
  destruct a, b. unfold date_eqb. simpl.
  rewrite !andb_true_iff, !Z.eqb_eq. split.
  - by intros [[-> ->] ->].
  - by intros [= -> -> ->].
Qed.

Lemma is_str_eq (v : value) (s : string) : is_str v s = true <-> v = VStr s.
Proof.
  destruct v; simpl; try (split; [discriminate|by intros [=]]).
  rewrite String.eqb_eq. split; [by intros ->|by intros [= ->]].
Qed.

(** The names of the three colours and their codes correspond. *)
Lemma color_roundtrip (c : string) :
  c ∈ COLORS ->
  known (_get_color_code_from_name (VStr c))
  /\ get_tempo_color_from_code (_get_color_code_from_name (VStr c)) = c.
Proof.
  unfold COLORS. intros Hc.
  repeat (apply elem_of_cons in Hc as [->|Hc];
          [split; [unfold known; vm_compute; tauto|reflexivity]|]).
  by apply elem_of_nil in Hc.
Qed.

Lemma color_known (code : Z) :
  get_tempo_color_from_code code <> INDETERMINE <-> known code.
Proof.
  split.
  - intros H. unfold known.
    unfold get_tempo_color_from_code, TEMPO_COLORS_MAPPING, mapping_get in H.
    destruct (Z.eqb_spec 0 code); [by destruct H|].
    destruct (Z.eqb_spec 1 code); [auto|].
    destruct (Z.eqb_spec 2 code); [auto|].
    destruct (Z.eqb_spec 3 code); [auto|].
    by destruct H.
  - intros [-> | [-> | ->]]; vm_compute; discriminate.
Qed.

(** *** Today's colour after the fallbacks *)

Lemma resolve_today_ext (today_date : date) (c : string)
    (st st' : coordinator) :
  same_memory st st' ->
  the_data st' !! "_fallback_today_color" = the_data st !! "_fallback_today_color" ->
  the_data st' !! "_fallback_today_date" = the_data st !! "_fallback_today_date" ->
  resolve_today today_date c st' = resolve_today today_date c st.
Proof.
  intros [H1 H2] H3 H4. unfold resolve_today, dget. by rewrite H1, H2, H3, H4.
Qed.

Lemma resolve_today_unknown (today_date : date) (st : coordinator) :
  memory_ok st = true ->
  snapshot_ok (the_data st) = true ->
  let v := resolve_today today_date INDETERMINE st in
  (_previous_demain_date st = Some today_date ->
   exists c, _previous_demain_color st = Some c /\ v = VStr c)
  /\ (_previous_demain_date st <> Some today_date ->
      dget (the_data st) "_fallback_today_date" = VStr (isoformat today_date) ->
      v = dget (the_data st) "_fallback_today_color")
  /\ (_previous_demain_date st <> Some today_date ->
      dget (the_data st) "_fallback_today_date" <> VStr (isoformat today_date) ->
      v = VStr INDETERMINE).
Proof.
  intros Hm Hs v. subst v. unfold resolve_today. rewrite String.eqb_refl.
  unfold memory_ok in Hm. split_and!.
  - intros Hd. rewrite Hd in *.
    destruct (_previous_demain_color st) as [c|]; [|discriminate].
    exists c. split; [done|].
    rewrite (proj2 (date_eqb_eq today_date today_date) eq_refl).
    by rewrite Hm.
  - intros Hd Hdate.
    assert (match _previous_demain_date st with
            | Some d => date_eqb d today_date
            | None => false
            end = false) as ->.
    { destruct (_previous_demain_date st) as [d|]; [|done].
      destruct (date_eqb d today_date) eqn:He; [|done].
      apply date_eqb_eq in He. by subst. }
    cbn [andb]. rewrite Hdate.
    rewrite (proj2 (is_str_eq (VStr (isoformat today_date)) _) eq_refl).
    rewrite andb_true_r.
    unfold snapshot_ok in Hs. unfold has_key, dget in *.
    destruct (the_data st !! "_fallback_today_date"); [|discriminate].
    by rewrite Hs.
  - intros Hd Hdate.
    assert (match _previous_demain_date st with
            | Some d => date_eqb d today_date
            | None => false
            end = false) as ->.
    { destruct (_previous_demain_date st) as [d|]; [|done].
      destruct (date_eqb d today_date) eqn:He; [|done].
      apply date_eqb_eq in He. by subst. }
    cbn [andb].
    destruct (is_str _ (isoformat today_date)) eqn:Hi.
    + by apply is_str_eq in Hi.
    + by rewrite andb_false_r.
Qed.

(** *** The current colour and the current rates *)

Lemma set_current_rates_known (code : Z) (d : gmap string value) :
  known code ->
  rates_ok d = true ->
  let c := get_tempo_color_from_code code in
  let d' := set_current_rates code d in
  dget d' "tempo_couleur" = VStr c
  /\ dget d' "tempo_variable_hp_ttc" = dget d' (tempo_hp_key c)
  /\ dget d' "tempo_variable_hc_ttc" = dget d' (tempo_hc_key c).
Proof.
  intros Hk Hok c d'.
  pose proof (color_of_known code Hk) as Hc. fold c in Hc.
  destruct (color_key_not_written c Hc) as [Nhp Nhc].
  assert (tempo_hp_key c <> "tempo_couleur"
          /\ tempo_hp_key c <> "tempo_variable_hp_ttc"
          /\ tempo_hp_key c <> "tempo_variable_hc_ttc"
          /\ tempo_hc_key c <> "tempo_couleur"
          /\ tempo_hc_key c <> "tempo_variable_hp_ttc"
          /\ tempo_hc_key c <> "tempo_variable_hc_ttc")
    as (A1 & A2 & A3 & B1 & B2 & B3).
  { unfold TEMPO_WRITTEN in *. split_notin Nhp. split_notin Nhc. done. }
  unfold d', set_current_rates. fold c.
  rewrite (proj2 (in_123_known code) Hk).
  assert (forall k, k <> "tempo_couleur" ->
            has_key (<["tempo_couleur" := VStr c]> d) k = has_key d k) as Hhas.
  { intros k Hne. unfold has_key. by rewrite lookup_insert_ne. }
  rewrite !Hhas by done.
  destruct (rates_ok_guard d c Hc Hok) as [Hg|(Hg & H1 & H2 & H3 & H4)];
    rewrite Hg; unfold dget in *.
  - split_and!.
    + skip_inserts. by rewrite lookup_insert_eq.
    + rewrite (lookup_insert_ne _ "tempo_variable_hc_ttc" "tempo_variable_hp_ttc")
        by done.
      rewrite lookup_insert_eq. simpl.
      by rewrite !(lookup_insert_ne _ _ (tempo_hp_key c)) by congruence.
    + rewrite lookup_insert_eq. simpl.
      by rewrite !(lookup_insert_ne _ _ (tempo_hc_key c)) by congruence.
  - split_and!.
    + by rewrite lookup_insert_eq.
    + rewrite !lookup_insert_ne by congruence. by rewrite H1, H3.
    + rewrite !lookup_insert_ne by congruence. by rewrite H2, H4.
Qed.

Lemma set_current_rates_unknown (code : Z) (d : gmap string value) :
  ~ known code ->
  let d' := set_current_rates code d in
  dget d' "tempo_couleur" = VStr INDETERMINE
  /\ dget d' "tempo_variable_hp_ttc" = dget d "tempo_variable_hp_ttc"
  /\ dget d' "tempo_variable_hc_ttc" = dget d "tempo_variable_hc_ttc"
  /\ has_key d' "tempo_variable_hp_ttc" = true
  /\ has_key d' "tempo_variable_hc_ttc" = true.
Proof.
  intros Hk d'.
  assert (in_123 code = false) as Hcode.
  { destruct (in_123 code) eqn:H; [|done]. by apply in_123_known in H. }
  unfold d', set_current_rates. rewrite Hcode. unfold has_key, dget.
  rewrite (lookup_insert_ne _ "tempo_couleur" "tempo_variable_hp_ttc") by done.
  destruct (d !! "tempo_variable_hp_ttc") as [hp|] eqn:Hhp;
    [rewrite (lookup_insert_ne _ "tempo_couleur" "tempo_variable_hc_ttc") by done
    |rewrite (lookup_insert_ne _ "tempo_variable_hp_ttc" "tempo_variable_hc_ttc")
       by done;
     rewrite (lookup_insert_ne _ "tempo_couleur" "tempo_variable_hc_ttc") by done];
    destruct (d !! "tempo_variable_hc_ttc") as [hc|] eqn:Hhc;
    split_and!;
    rewrite ?lookup_insert_eq, ?(lookup_insert_ne _ "tempo_variable_hc_ttc" _),
      ?(lookup_insert_ne _ "tempo_variable_hp_ttc" _),
      ?(lookup_insert_ne _ "tempo_couleur" _), ?lookup_insert_eq, ?Hhp, ?Hhc
      by done; done.
Qed.

(** *** The Tempo part within a cycle *)

(** The refresh keeps the fallback fields and the current rates. *)
Lemma refresh_step_keeps (cfg : config) (E : env) (st : coordinator)
    (k : string) :
  k ∈ ["_fallback_today_color"; "_fallback_today_date";
       "tempo_variable_hp_ttc"; "tempo_variable_hc_ttc"] ->
  the_data (refresh_step K cfg E st).2 !! k = the_data st !! k.
Proof.
  intros Hk.
  destruct (refresh_step_data K cfg E st) as (_ & [->|Hnew]); [done|].
  destruct Hnew as (url & rows & r & rates & _ & _ & _ & Hx & ->).
  destruct (extract_rates_watched r _ rates Hx) as (Hother & _).
  rewrite lookup_insert_ne.
  - by apply lookup_union_r, Hother.
  - intros <-. revert Hk. compute_done.
Qed.

Lemma ensure_data_keeps (cfg : config) (st : coordinator) (k : string) :
  k ∈ WATCHED -> the_data (ensure_data cfg st) !! k = the_data st !! k.
Proof.
  intros Hk. unfold ensure_data, the_data.
  destruct (data st) as [d|] eqn:Hd; [by rewrite Hd|].
  by apply initial_data_watched.
Qed.

(** A cycle of a tempo contract whose refresh does not fail runs
    [tempo_resolve] on three records of [get_tempo_day], and the off-peak
    part after it writes its own two fields only. *)
Lemma tempo_cycle (cfg : config) (E : env) (st : coordinator)
    (yesterday tomorrow : date) :
  contract_type cfg = CONTRACT_TYPE_TEMPO ->
  (refresh_step K cfg E (ensure_data cfg st)).1 = Return tt ->
  date_sub_day (dt_date (now_tempo E)) = Some yesterday ->
  date_add_day (dt_date (now_tempo E)) = Some tomorrow ->
  let st_r := (refresh_step K cfg E (ensure_data cfg st)).2 in
  exists ty tt_ tm st1 st2 st3,
    get_tempo_day K E (now_cache_yesterday E) yesterday st_r = (Return ty, st1)
    /\ get_tempo_day K E (now_cache_today E) (dt_date (now_tempo E)) st1
       = (Return tt_, st2)
    /\ get_tempo_day K E (now_cache_tomorrow E) tomorrow st2 = (Return tm, st3)
    /\ same_store st_r st3
    /\ same_memory
         (tempo_resolve K E (dt_date (now_tempo E)) tomorrow ty tt_ tm st3)
         (_async_update_data K cfg E st).2
    /\ forall k,
         k ∉ OFFPEAK_WRITTEN ->
         the_data (_async_update_data K cfg E st).2 !! k
         = the_data
             (tempo_resolve K E (dt_date (now_tempo E)) tomorrow ty tt_ tm st3)
           !! k.
Proof.
  intros Htype Hrefresh Hy Ht st_r.
  destruct (tempo_body_resolves K E yesterday (dt_date (now_tempo E)) tomorrow
              st_r) as (ty & tt_ & tm & st1 & st2 & st3 & H1 & H2 & H3 & S & Hb).
  exists ty, tt_, tm, st1, st2, st3. split_and!; try done.
  - unfold _async_update_data.
    destruct (refresh_step K cfg E (ensure_data cfg st)) as [o st_r'] eqn:Hr.
    simpl in Hrefresh. subst o. subst st_r. simpl in *.
    rewrite Htype. simpl. unfold tempo_step. rewrite Hy, Ht, Hb.
    set (st_t := tempo_resolve K E _ tomorrow ty tt_ tm st3).
    destruct (offpeak_step_frame K cfg E st_t) as (Hm & _).
    by destruct (offpeak_step K cfg E st_t) as [[[]|e] st4].
  - intros k Hk. unfold _async_update_data.
    destruct (refresh_step K cfg E (ensure_data cfg st)) as [o st_r'] eqn:Hr.
    simpl in Hrefresh. subst o. subst st_r. simpl in *.
    rewrite Htype. simpl. unfold tempo_step. rewrite Hy, Ht, Hb.
    set (st_t := tempo_resolve K E _ tomorrow ty tt_ tm st3).
    destruct (offpeak_step_frame K cfg E st_t) as (_ & _ & _ & Hf).
    specialize (Hf k Hk).
    by destruct (offpeak_step K cfg E st_t) as [[[]|e] st4].
Qed.

Lemma lookup_dget (d d' : gmap string value) (k : string) :
  d' !! k = d !! k -> dget d' k = dget d k.
Proof. intros H. unfold dget. by rewrite H. Qed.

Lemma ensure_data_fallback (cfg : config) (st : coordinator) :
  memory_ok st = true ->
  snapshot_ok (the_data st) = true ->
  memory_ok (ensure_data cfg st) = true
  /\ snapshot_ok (the_data (ensure_data cfg st)) = true.
Proof.
  unfold ensure_data. destruct (data st) as [d|] eqn:Hd; [done|].
  intros Hm _. split; [done|]. reflexivity.
Qed.

(** X4, on claim C4: in a cycle of a tempo contract in which the refresh
    does not fail, from a state whose in-memory fallback has a date only
    with a known colour and whose snapshot has a fallback date only with a
    fallback colour, as cycles leave them and as a coordinator has them
    that starts from the snapshot of an earlier one: when the colour
    fetched for today is unknown, today's colour becomes the in-memory
    colour of the previous cycle if its date is today, else the fallback
    colour of the snapshot if its date is today, else stays unknown; and
    when the colour fetched for tomorrow is known, it is stored with
    tomorrow's date in the in-memory fields and in the snapshot. *)
Theorem tempo_continuity (cfg : config) (E : env) (st : coordinator)
    (yesterday tomorrow : date) :
  memory_ok st = true ->
  snapshot_ok (the_data st) = true ->
  contract_type cfg = CONTRACT_TYPE_TEMPO ->
  (refresh_step K cfg E (ensure_data cfg st)).1 = Return tt ->
  date_sub_day (dt_date (now_tempo E)) = Some yesterday ->
  date_add_day (dt_date (now_tempo E)) = Some tomorrow ->
  let today_date := dt_date (now_tempo E) in
  let st0 := ensure_data cfg st in
  let st_r := (refresh_step K cfg E st0).2 in
  let st' := (_async_update_data K cfg E st).2 in
  exists ty tt_ tm st1 st2 st3,
    get_tempo_day K E (now_cache_yesterday E) yesterday st_r = (Return ty, st1)
    /\ get_tempo_day K E (now_cache_today E) today_date st1 = (Return tt_, st2)
    /\ get_tempo_day K E (now_cache_tomorrow E) tomorrow st2 = (Return tm, st3)
    /\ (get_tempo_color_from_code (code_of tt_) = INDETERMINE ->
        (_previous_demain_date st = Some today_date ->
         exists c,
           _previous_demain_color st = Some c
           /\ dget (the_data st') "tempo_couleur_aujourdhui" = VStr c)
        /\ (_previous_demain_date st <> Some today_date ->
            dget (the_data st0) "_fallback_today_date"
            = VStr (isoformat today_date) ->
            dget (the_data st') "tempo_couleur_aujourdhui"
            = dget (the_data st0) "_fallback_today_color")
        /\ (_previous_demain_date st <> Some today_date ->
            dget (the_data st0) "_fallback_today_date"
            <> VStr (isoformat today_date) ->
            dget (the_data st') "tempo_couleur_aujourdhui" = VStr INDETERMINE))
    /\ (get_tempo_color_from_code (code_of tm) <> INDETERMINE ->
        _previous_demain_color st'
        = Some (get_tempo_color_from_code (code_of tm))
        /\ _previous_demain_date st' = Some tomorrow
        /\ dget (the_data st') "_fallback_today_color"
           = VStr (get_tempo_color_from_code (code_of tm))
        /\ dget (the_data st') "_fallback_today_date"
           = VStr (isoformat tomorrow)).
Proof.
  intros Hmem_ok Hsnap_ok Htype Hrefresh Hy Ht today_date st0 st_r st'.
  destruct (tempo_cycle cfg E st yesterday tomorrow Htype Hrefresh Hy Ht)
    as (ty & tt_ & tm & st1 & st2 & st3 & H1 & H2 & H3 & S & Hmem & Hframe).
  fold today_date st0 st_r st' in H1, H2, H3, S, Hmem, Hframe.
  exists ty, tt_, tm, st1, st2, st3. split_and!; try done.
  - (* today's colour *)
    intros Hunknown.
    destruct (ensure_data_fallback cfg st Hmem_ok Hsnap_ok) as [Hm0 Hs0].
    fold st0 in Hm0, Hs0.
    assert (dget (the_data st') "tempo_couleur_aujourdhui"
            = resolve_today today_date INDETERMINE st0) as ->.
    { unfold dget. rewrite Hframe by compute_done.
      rewrite tempo_resolve_unfold. cbv zeta. rewrite the_data_set_data.
      rewrite set_current_rates_writes by done.
      rewrite store_fallback_frame by done.
      rewrite the_data_set_data. unfold colours_written.
      rewrite lookup_insert_eq. simpl. rewrite Hunknown.
      apply resolve_today_ext.
      - destruct S as (_ & Sm).
        destruct (refresh_step_data K cfg E st0) as (Rm & _).
        fold st_r in Rm. destruct Sm, Rm. split; congruence.
      - rewrite (same_store_the_data _ _ S). unfold st_r.
        by rewrite refresh_step_keeps by compute_done.
      - rewrite (same_store_the_data _ _ S). unfold st_r.
        by rewrite refresh_step_keeps by compute_done. }
    assert (_previous_demain_date st0 = _previous_demain_date st
            /\ _previous_demain_color st0 = _previous_demain_color st)
      as [Ed Ec].
    { unfold st0, ensure_data. by destruct (data st). }
    rewrite <- Ed, <- Ec.
    apply (resolve_today_unknown today_date st0 Hm0 Hs0).
  - (* tomorrow's colour *)
    intros Hknown.
    assert (negb (String.eqb (get_tempo_color_from_code (code_of tm))
                    INDETERMINE) = true) as Hneq.
    { apply negb_true_iff. by apply String.eqb_neq. }
    destruct Hmem as [Mc Md]. rewrite Mc, Md.
    rewrite tempo_resolve_unfold. cbv zeta.
    unfold dget. rewrite !Hframe by compute_done.
    rewrite tempo_resolve_unfold. cbv zeta. rewrite the_data_set_data.
    rewrite !set_current_rates_writes by done.
    unfold store_fallback. rewrite Hneq. simpl.
    rewrite !the_data_set_data. split_and!; [done|done| |].
    + rewrite lookup_insert_ne by done. by rewrite lookup_insert_eq.
    + by rewrite lookup_insert_eq.
Qed.

(** X5, on claim C2: in a cycle of a tempo contract, from a state that cycles reach, in
    which the refresh does not fail, the effective colour is today's colour
    after the fallbacks when the clock has reached the start of the Tempo
    day, and the colour of yesterday's record before.  When its code is 1,
    2 or 3, the current colour is that colour and the current peak and
    off-peak rates are the two rates of that colour; otherwise the current
    colour is unknown and the current rates are what they were at the start
    of the cycle, [None] when they were never set. *)
Theorem tempo_current_color (cfg : config) (E : env) (st : coordinator)
    (yesterday tomorrow : date) :
  reachable K st ->
  contract_type cfg = CONTRACT_TYPE_TEMPO ->
  (refresh_step K cfg E (ensure_data cfg st)).1 = Return tt ->
  date_sub_day (dt_date (now_tempo E)) = Some yesterday ->
  date_add_day (dt_date (now_tempo E)) = Some tomorrow ->
  let st0 := ensure_data cfg st in
  let st_r := (refresh_step K cfg E st0).2 in
  let d' := the_data (_async_update_data K cfg E st).2 in
  exists ty st1,
    get_tempo_day K E (now_cache_yesterday E) yesterday st_r = (Return ty, st1)
    /\ dget d' "tempo_couleur_hier"
       = VStr (get_tempo_color_from_code (code_of ty))
    /\ let code :=
         effective_code K E (dget d' "tempo_couleur_aujourdhui") ty in
       (known code ->
        dget d' "tempo_couleur" = VStr (get_tempo_color_from_code code)
        /\ dget d' "tempo_variable_hp_ttc"
           = dget d' (tempo_hp_key (get_tempo_color_from_code code))
        /\ dget d' "tempo_variable_hc_ttc"
           = dget d' (tempo_hc_key (get_tempo_color_from_code code)))
       /\ (~ known code ->
           dget d' "tempo_couleur" = VStr INDETERMINE
           /\ dget d' "tempo_variable_hp_ttc"
              = dget (the_data st0) "tempo_variable_hp_ttc"
           /\ dget d' "tempo_variable_hc_ttc"
              = dget (the_data st0) "tempo_variable_hc_ttc"
           /\ has_key d' "tempo_variable_hp_ttc" = true
           /\ has_key d' "tempo_variable_hc_ttc" = true).
Proof.
  intros Hreach Htype Hrefresh Hy Ht st0 st_r d'.
  destruct (tempo_cycle cfg E st yesterday tomorrow Htype Hrefresh Hy Ht)
    as (ty & tt_ & tm & st1 & st2 & st3 & H1 & H2 & H3 & S & Hmem & Hframe).
  fold st0 st_r d' in H1, H2, H3, S, Hmem, Hframe.
  exists ty, st1. split; [done|].
  set (today_date := dt_date (now_tempo E)) in *.
  set (today' := resolve_today today_date
                   (get_tempo_color_from_code (code_of tt_)) st3).
  set (st_c := store_fallback tomorrow (get_tempo_color_from_code (code_of tm))
                 (set_data (colours_written today_date ty tt_ tm st3) st3)).
  assert (forall k, k ∉ OFFPEAK_WRITTEN ->
            d' !! k
            = set_current_rates (effective_code K E today' ty) (the_data st_c)
              !! k) as Hd'.
  { intros k Hk. rewrite (Hframe k Hk). rewrite tempo_resolve_unfold.
    cbv zeta. by rewrite the_data_set_data. }
  assert (forall k, k <> "_fallback_today_color" ->
            k <> "_fallback_today_date" -> k <> "tempo_couleur_hier" ->
            k <> "tempo_couleur_demain" -> k <> "tempo_couleur_aujourdhui" ->
            the_data st_c !! k = the_data st_r !! k) as Hc.
  { intros k N1 N2 N3 N4 N5. unfold st_c.
    rewrite store_fallback_frame by done. rewrite the_data_set_data.
    unfold colours_written. skip_inserts.
    by rewrite (same_store_the_data _ _ S). }
  assert (dget d' "tempo_couleur_aujourdhui" = today') as Htoday.
  { unfold dget. rewrite Hd' by compute_done.
    rewrite set_current_rates_writes by done. unfold st_c.
    rewrite store_fallback_frame by done. rewrite the_data_set_data.
    unfold colours_written. by rewrite lookup_insert_eq. }
  split.
  { unfold dget. rewrite Hd' by compute_done.
    rewrite set_current_rates_writes by done. unfold st_c.
    rewrite store_fallback_frame by done. rewrite the_data_set_data.
    unfold colours_written. skip_inserts. by rewrite lookup_insert_eq. }
  rewrite Htoday. cbv zeta.
  assert (inv st_r = true) as Hinv.
  { apply inv_refresh_step, inv_ensure_data. by eapply reachable_inv. }
  apply inv_split in Hinv as (_ & _ & Hr).
  assert (rates_ok (the_data st_c) = true) as Hrc.
  { (etransitivity; [|exact Hr]). apply rates_ok_ext.
    - intros c Hcol. unfold COLORS in Hcol.
      repeat (apply elem_of_cons in Hcol as [->|Hcol];
              [split; by apply Hc|]).
      by apply elem_of_nil in Hcol.
    - apply f_equal, lookup_dget. by apply Hc.
    - apply f_equal, lookup_dget. by apply Hc. }
  split.
  - intros Hk.
    destruct (set_current_rates_known _ (the_data st_c) Hk Hrc)
      as (C1 & C2 & C3).
    pose proof (color_of_known _ Hk) as Hcol.
    assert ((tempo_hp_key
               (get_tempo_color_from_code (effective_code K E today' ty))
             ∉ OFFPEAK_WRITTEN)
            /\ (tempo_hc_key
                  (get_tempo_color_from_code (effective_code K E today' ty))
                ∉ OFFPEAK_WRITTEN)) as [Nhp Nhc].
    { revert Hcol. generalize (get_tempo_color_from_code
                                 (effective_code K E today' ty)).
      intros c Hcol. unfold COLORS in Hcol.
      repeat (apply elem_of_cons in Hcol as [->|Hcol];
              [split; compute_done|]).
      by apply elem_of_nil in Hcol. }
    unfold dget in *.
    rewrite !(Hd' "tempo_couleur"), !(Hd' "tempo_variable_hp_ttc"),
      !(Hd' "tempo_variable_hc_ttc") by compute_done.
    rewrite (Hd' _ Nhp), (Hd' _ Nhc). done.
  - intros Hk.
    destruct (set_current_rates_unknown _ (the_data st_c) Hk)
      as (C1 & C2 & C3 & C4 & C5).
    assert (forall k,
              k ∈ ["tempo_variable_hp_ttc"; "tempo_variable_hc_ttc"] ->
              the_data st_c !! k = the_data st0 !! k) as Hprev.
    { intros k Hin. rewrite Hc by (intros ->; revert Hin; compute_done).
      unfold st_r. apply refresh_step_keeps.
      revert Hin. rewrite !elem_of_cons. tauto. }
    unfold dget, has_key in *.
    rewrite !(Hd' "tempo_couleur"), !(Hd' "tempo_variable_hp_ttc"),
      !(Hd' "tempo_variable_hc_ttc") by compute_done.
    rewrite <- !Hprev by compute_done. done.
Qed.

End Tempo.

(** ** The Tempo part on a night after the colour of the day was announced *)

(** The record that a cycle fetched, as the theorem names it: [H1] gives
    the state after the request before, [H2] the record, [C] its value. *)
Ltac fetched H1 H2 C :=
  let E1 := fresh in
  let E2 := fresh in
  pose proof (f_equal snd H1) as E1; cbn [snd] in E1; subst;
  pose proof (f_equal fst H2) as E2; cbn [fst] in E2;
  rewrite C in E2; injection E2 as <-.

Lemma tempo_continuity_witness :
  (* the in-memory fallback, in the night after the colour was announced *)
  (_previous_demain_date after_noon = Some (dt_date (now_tempo env_night))
   /\ _previous_demain_color after_noon = Some "rouge"
   /\ dget (the_data (_async_update_data K0 cfg_tempo env_night after_noon).2)
        "tempo_couleur_aujourdhui"
      = VStr "rouge")
  (* the fallback of the snapshot, with no in-memory fallback *)
  /\ (_previous_demain_date carried_over = None
      /\ dget (the_data (ensure_data cfg_tempo carried_over))
           "_fallback_today_date"
         = VStr (isoformat (dt_date (now_tempo env_night)))
      /\ dget (the_data (ensure_data cfg_tempo carried_over))
           "_fallback_today_color"
         = VStr "rouge"
      /\ dget
           (the_data (_async_update_data K0 cfg_tempo env_night carried_over).2)
           "tempo_couleur_aujourdhui"
         = VStr "rouge")
  (* no fallback *)
  /\ (_previous_demain_date (init_coordinator (F := F0)) = None
      /\ dget (the_data (ensure_data cfg_tempo (init_coordinator (F := F0))))
           "_fallback_today_date"
         = @VNone F0
      /\ dget
           (the_data
              (_async_update_data (F := F0) K0 cfg_tempo env_night
                 init_coordinator).2)
           "tempo_couleur_aujourdhui"
         = VStr INDETERMINE)
  (* the colour of tomorrow is stored *)
  /\ (_previous_demain_color
        (_async_update_data K0 cfg_tempo env_noon after_morning).2
      = Some "rouge"
      /\ _previous_demain_date
           (_async_update_data K0 cfg_tempo env_noon after_morning).2
         = Some day1
      /\ dget
           (the_data (_async_update_data K0 cfg_tempo env_noon after_morning).2)
           "_fallback_today_color"
         = VStr "rouge"
      /\ dget
           (the_data (_async_update_data K0 cfg_tempo env_noon after_morning).2)
           "_fallback_today_date"
         = VStr "2024-07-01").
Proof.
  split; [|split; [|split]].
  - split; [vm_refl|]. split; [vm_refl|].
    pose proof (tempo_continuity K0 cfg_tempo env_night after_noon day0 day2
                  ltac:(vm_refl) ltac:(vm_refl) eq_refl ltac:(vm_refl)
                  ltac:(vm_refl) ltac:(vm_refl)) as H.
    cbv zeta in H.
    destruct H as (ty & tt_ & tm & st1 & st2 & st3 & H1 & H2 & _ & Htoday & _).
    assert ((get_tempo_day K0 env_night (now_cache_today env_night)
               (dt_date (now_tempo env_night))
               (get_tempo_day K0 env_night (now_cache_yesterday env_night)
                  day0
                  (refresh_step K0 cfg_tempo env_night
                     (ensure_data cfg_tempo after_noon)).2).2).1
            = Return (mk_tempo_day (Some "2024-07-01") (Some 0))) as C
      by vm_refl.
    fetched H1 H2 C.
    destruct (proj1 (Htoday eq_refl) ltac:(vm_refl)) as (c & Hc & Hcol).
    rewrite Hcol. f_equal.
    assert (_previous_demain_color after_noon = Some "rouge") as Hc'
      by vm_refl.
    rewrite Hc' in Hc. by injection Hc as <-.
  - split; [vm_refl|]. split; [vm_refl|]. split; [vm_refl|].
    pose proof (tempo_continuity K0 cfg_tempo env_night carried_over day0 day2
                  ltac:(vm_refl) ltac:(vm_refl) eq_refl ltac:(vm_refl)
                  ltac:(vm_refl) ltac:(vm_refl)) as H.
    cbv zeta in H.
    destruct H as (ty & tt_ & tm & st1 & st2 & st3 & H1 & H2 & _ & Htoday & _).
    assert ((get_tempo_day K0 env_night (now_cache_today env_night)
               (dt_date (now_tempo env_night))
               (get_tempo_day K0 env_night (now_cache_yesterday env_night)
                  day0
                  (refresh_step K0 cfg_tempo env_night
                     (ensure_data cfg_tempo carried_over)).2).2).1
            = Return (mk_tempo_day (Some "2024-07-01") (Some 0))) as C
      by vm_refl.
    fetched H1 H2 C.
    refine (eq_trans
              (proj1 (proj2 (Htoday eq_refl)) _ ltac:(vm_refl)) ltac:(vm_refl)).
    intros Hd. vm_compute in Hd. discriminate Hd.
  - split; [vm_refl|]. split; [vm_refl|].
    pose proof (tempo_continuity (F := F0) K0 cfg_tempo env_night
                  init_coordinator day0 day2
                  ltac:(vm_refl) ltac:(vm_refl) eq_refl ltac:(vm_refl)
                  ltac:(vm_refl) ltac:(vm_refl)) as H.
    cbv zeta in H.
    destruct H as (ty & tt_ & tm & st1 & st2 & st3 & H1 & H2 & _ & Htoday & _).
    assert ((get_tempo_day K0 env_night (now_cache_today env_night)
               (dt_date (now_tempo env_night))
               (get_tempo_day K0 env_night (now_cache_yesterday env_night)
                  day0
                  (refresh_step K0 cfg_tempo env_night
                     (ensure_data cfg_tempo
                        (init_coordinator (F := F0)))).2).2).1
            = Return (mk_tempo_day (Some "2024-07-01") (Some 0))) as C
      by vm_refl.
    fetched H1 H2 C.
    apply (proj2 (proj2 (Htoday eq_refl))).
    + intros Hd. vm_compute in Hd. discriminate Hd.
    + intros Hd. vm_compute in Hd. discriminate Hd.
  - pose proof (tempo_continuity K0 cfg_tempo env_noon after_morning
                  (mk_date 2024 6 29) day1
                  ltac:(vm_refl) ltac:(vm_refl) eq_refl ltac:(vm_refl)
                  ltac:(vm_refl) ltac:(vm_refl)) as H.
    cbv zeta in H.
    destruct H as (ty & tt_ & tm & st1 & st2 & st3 & H1 & H2 & H3 & _ & Htom).
    pose proof (f_equal snd H1) as E1. cbn [snd] in E1. subst st1.
    assert ((get_tempo_day K0 env_noon (now_cache_tomorrow env_noon) day1
               (get_tempo_day K0 env_noon (now_cache_today env_noon)
                  (dt_date (now_tempo env_noon))
                  (get_tempo_day K0 env_noon (now_cache_yesterday env_noon)
                     (mk_date 2024 6 29)
                     (refresh_step K0 cfg_tempo env_noon
                        (ensure_data cfg_tempo after_morning)).2).2).2).1
            = Return (mk_tempo_day (Some "2024-07-01") (Some 3))) as C
      by vm_refl.
    fetched H2 H3 C.
    apply Htom. discriminate.
Defined.

Lemma tempo_current_color_witness :
  reachable (F := F0) K0 after_noon
  /\ contract_type cfg_tempo = CONTRACT_TYPE_TEMPO
  /\ (refresh_step K0 cfg_tempo env_night (ensure_data cfg_tempo after_noon)).1
     = Return tt
  /\ date_sub_day (dt_date (now_tempo env_night)) = Some day0
  /\ date_add_day (dt_date (now_tempo env_night)) = Some day2
  /\ (
     let st0 := ensure_data cfg_tempo after_noon in
     let st_r := (refresh_step K0 cfg_tempo env_night st0).2 in
     let d' := the_data (_async_update_data K0 cfg_tempo env_night after_noon).2 in
     exists ty st1,
       get_tempo_day K0 env_night (now_cache_yesterday env_night) day0 st_r = (Return ty, st1)
       /\ dget d' "tempo_couleur_hier"
          = VStr (get_tempo_color_from_code (code_of ty))
       /\ let code :=
            effective_code K0 env_night (dget d' "tempo_couleur_aujourdhui") ty in
          (known code ->
           dget d' "tempo_couleur" = VStr (get_tempo_color_from_code code)
           /\ dget d' "tempo_variable_hp_ttc"
              = dget d' (tempo_hp_key (get_tempo_color_from_code code))
           /\ dget d' "tempo_variable_hc_ttc"
              = dget d' (tempo_hc_key (get_tempo_color_from_code code)))
          /\ (~ known code ->
              dget d' "tempo_couleur" = VStr INDETERMINE
              /\ dget d' "tempo_variable_hp_ttc"
                 = dget (the_data st0) "tempo_variable_hp_ttc"
              /\ dget d' "tempo_variable_hc_ttc"
                 = dget (the_data st0) "tempo_variable_hc_ttc"
              /\ has_key d' "tempo_variable_hp_ttc" = true
              /\ has_key d' "tempo_variable_hc_ttc" = true)).
Proof.
  assert (reachable (F := F0) K0 after_noon) as Hreach.
  { exact (reachable_cycle K0 cfg_tempo _ after_morning
             (reachable_cycle K0 cfg_tempo _ init_coordinator
                (reachable_init K0))). }
  assert ((refresh_step K0 cfg_tempo env_night
             (ensure_data cfg_tempo after_noon)).1 = Return tt) as Hrefresh
    by vm_refl.
  assert (date_sub_day (dt_date (now_tempo env_night)) = Some day0) as Hy
    by vm_refl.
  assert (date_add_day (dt_date (now_tempo env_night)) = Some day2) as Ht
    by vm_refl.
  split_and!; [exact Hreach|reflexivity|exact Hrefresh|exact Hy|exact Ht|].
  exact (tempo_current_color K0 cfg_tempo env_night after_noon day0 day2 Hreach eq_refl
           Hrefresh Hy Ht).
Defined.

(** On 2024-07-01 at 00:30 the cache still serves the unknown record of the
    morning before for today; today's colour is the red that was announced
    at noon, and the current colour is yesterday's blue.  At 23:00 the
    current colour is red and the current rate is the off-peak rate of the
    red days. *)
Example tempo_night_and_evening :
  let night :=
    the_data (_async_update_data (F := F0) K0 cfg_tempo env_night after_noon).2 in
  let evening :=
    the_data (_async_update_data (F := F0) K0 cfg_tempo env_evening after_noon).2 in
  (night !! "tempo_couleur_aujourdhui" = Some (VStr "rouge")
   /\ night !! "tempo_couleur" = Some (VStr "bleu")
   /\ night !! "tarif_actuel_ttc" = night !! "tempo_variable_hc_bleu_ttc")
  /\ (evening !! "tempo_couleur_aujourdhui" = Some (VStr "rouge")
      /\ evening !! "tempo_couleur" = Some (VStr "rouge")
      /\ evening !! "is_off_peak" = Some (VBool true)
      /\ evening !! "tarif_actuel_ttc" = evening !! "tempo_variable_hc_rouge_ttc"
      /\ evening !! "tempo_variable_hc_rouge_ttc"
         = Some (@VFloat F0 (Lit "0.1568"))).
Proof. cbv zeta. split_and!; vm_refl. Qed.

(** ** More on the time helpers *)

Section TimeHelpers.

(** *** Digits *)

Lemma code_range (a : ascii) : 0 <= code a < 256.
Proof.
  unfold code. pose proof (N_ascii_bounded a) as H. lia.
Qed.

Lemma digit_range (a : ascii) (x : Z) : digit a = Some x -> 0 <= x <= 9.
Proof.
  unfold digit. destruct (48 <=? code a) eqn:H1; [|discriminate].
  destruct (code a <=? 57) eqn:H2; [|discriminate].
  simpl. intros [= <-]. lia.
Qed.

Lemma code_digit_char (n : Z) : code (digit_char n) = 48 + n mod 10.
Proof.
  unfold code, digit_char.
  pose proof (Z.mod_pos_bound n 10 ltac:(lia)) as Hm.
  rewrite N_ascii_embedding by lia. lia.
Qed.

Lemma digit_digit_char (n : Z) : digit (digit_char n) = Some (n mod 10).
Proof.
  unfold digit. rewrite code_digit_char.
  pose proof (Z.mod_pos_bound n 10 ltac:(lia)) as Hm.
  destruct (Z.leb_spec 48 (48 + n mod 10)); [|lia].
  destruct (Z.leb_spec (48 + n mod 10) 57); [|lia].
  simpl. f_equal. lia.
Qed.

Lemma digit_char_inj (a b : Z) :
  digit_char a = digit_char b -> a mod 10 = b mod 10.
Proof.
  intros H. apply (f_equal code) in H. rewrite !code_digit_char in H. lia.
Qed.

(** A digit is none of the separators [:], [/] and [-]. *)
Lemma digit_char_not (n : Z) (c : ascii) :
  code c < 48 \/ 57 < code c -> Ascii.eqb (digit_char n) c = false.
Proof.
  intros Hc. apply Ascii.eqb_neq. intros H. apply (f_equal code) in H.
  rewrite code_digit_char in H.
  pose proof (Z.mod_pos_bound n 10 ltac:(lia)). lia.
Qed.

Lemma pad2_digits (n : Z) :
  0 <= n < 100 -> 10 * ((n / 10) mod 10) + n mod 10 = n.
Proof.
  intros Hn. rewrite (Z.mod_small (n / 10)).
  - pose proof (Z.div_mod n 10 ltac:(lia)). lia.
  - split; [apply Z.div_pos; lia|]. apply Z.div_lt_upper_bound; lia.
Qed.

(** *** [str_to_time] *)

(** X6: a time that [str_to_time] returns is a time of the day on a whole
    minute. *)
Theorem str_to_time_range (s : string) (t : time) :
  str_to_time s = Some t ->
  0 <= hour t <= 23 /\ 0 <= minute t <= 59
  /\ second t = 0 /\ microsecond t = 0.
Proof.
  unfold str_to_time.
  destruct (split ":" s) as [|h [|m [|? ?]]]; try discriminate.
  destruct (parse_H (chars h)) as [hh|] eqn:Hh; [|discriminate].
  destruct (parse_M (chars m)) as [mm|] eqn:Hm; [|discriminate].
  intros [= <-]. simpl.
  assert (0 <= hh <= 23) as Hhr.
  { unfold parse_H in Hh.
    destruct (chars h) as [|a [|b [|? ?]]]; try discriminate.
    - apply digit_range in Hh. lia.
    - destruct (digit a) as [x|] eqn:Hx; [|discriminate].
      destruct (digit b) as [y|] eqn:Hy; [|discriminate].
      apply digit_range in Hx, Hy.
      destruct (((x =? 2) && (y <=? 3)) || (x <=? 1)) eqn:Hc; [|discriminate].
      injection Hh as <-.
      apply orb_true_iff in Hc as [Hc|Hc].
      + apply andb_true_iff in Hc as [H1 H2]. lia.
      + lia. }
  assert (0 <= mm <= 59) as Hmr.
  { unfold parse_M in Hm.
    destruct (chars m) as [|a [|b [|? ?]]]; try discriminate.
    - apply digit_range in Hm. lia.
    - destruct (digit a) as [x|] eqn:Hx; [|discriminate].
      destruct (digit b) as [y|] eqn:Hy; [|discriminate].
      apply digit_range in Hx, Hy.
      destruct (x <=? 5) eqn:Hc; [|discriminate].
      injection Hm as <-. lia. }
  done.
Qed.

Lemma str_to_time_range_witness :
  str_to_time "7:05" = Some (mk_time 7 5 0 0)
  /\ (0 <= hour (mk_time 7 5 0 0) <= 23
      /\ 0 <= minute (mk_time 7 5 0 0) <= 59
      /\ second (mk_time 7 5 0 0) = 0 /\ microsecond (mk_time 7 5 0 0) = 0).
Proof.
  assert (str_to_time "7:05" = Some (mk_time 7 5 0 0)) as H by reflexivity.
  split; [exact H|]. exact (str_to_time_range "7:05" _ H).
Defined.

(** The text of [h]:[m] with two digits each. *)
Lemma split_two (sep a b c d : ascii) :
  Ascii.eqb a sep = false -> Ascii.eqb b sep = false ->
  Ascii.eqb c sep = false -> Ascii.eqb d sep = false ->
  split sep (String a (String b (String sep (String c (String d "")))))
  = [String a (String b ""); String c (String d "")].
Proof.
  intros Ha Hb Hc Hd. unfold split. cbn [split_go].
  rewrite Ha, Hb, Hc, Hd, Ascii.eqb_refl. reflexivity.
Qed.

(** X7: [str_to_time] reads every time of the day that is written as two
    digits, a colon and two digits, and gives the hour and the minute that
    the digits denote. *)
Theorem str_to_time_two_digits (h m : Z) :
  0 <= h <= 23 -> 0 <= m <= 59 ->
  str_to_time (pad2 h +:+ ":" +:+ pad2 m) = Some (mk_time h m 0 0).
Proof.
  intros Hh Hm. unfold pad2. cbv [String.append].
  unfold str_to_time.
  rewrite split_two by (apply digit_char_not; right; reflexivity).
  cbv [chars list_ascii_of_string parse_H parse_M].
  rewrite !digit_digit_char.
  rewrite (pad2_digits h) by lia. rewrite (pad2_digits m) by lia.
  assert (((h / 10) mod 10 =? 2) && (h mod 10 <=? 3)
          || ((h / 10) mod 10 <=? 1) = true) as ->.
  { assert (0 <= h / 10 <= 2) as Hq.
    { split; [apply Z.div_pos; lia|].
      apply Z.lt_succ_r, Z.div_lt_upper_bound; lia. }
    rewrite (Z.mod_small (h / 10)) by lia.
    pose proof (Z.div_mod h 10 ltac:(lia)) as Hd.
    pose proof (Z.mod_pos_bound h 10 ltac:(lia)) as Hr.
    destruct (Z.eqb_spec (h / 10) 2) as [E|E]; simpl.
    - destruct (Z.leb_spec (h mod 10) 3); [done|lia].
    - destruct (Z.leb_spec (h / 10) 1); [done|lia]. }
  assert (((m / 10) mod 10 <=? 5) = true) as ->.
  { assert (0 <= m / 10 <= 5) as Hq.
    { split; [apply Z.div_pos; lia|].
      apply Z.lt_succ_r, Z.div_lt_upper_bound; lia. }
    rewrite (Z.mod_small (m / 10)) by lia. apply Z.leb_le. lia. }
  reflexivity.
Qed.

Lemma str_to_time_two_digits_witness :
  (0 <= 22 <= 23) /\ (0 <= 30 <= 59)
  /\ str_to_time (pad2 22 +:+ ":" +:+ pad2 30) = Some (mk_time 22 30 0 0).
Proof.
  assert (0 <= 22 <= 23) as Hh by lia.
  assert (0 <= 30 <= 59) as Hm by lia.
  split; [exact Hh|]. split; [exact Hm|].
  exact (str_to_time_two_digits 22 30 Hh Hm).
Defined.

(** *** [time_in_between] *)

Lemma time_cmp_eq (a b : time) : time_cmp a b = Eq <-> a = b.
Proof.
  split; [|intros ->; apply time_cmp_refl].
  destruct a as [h1 m1 s1 u1], b as [h2 m2 s2 u2]. unfold time_cmp. simpl.
  destruct (Z.compare_spec h1 h2); try discriminate.
  destruct (Z.compare_spec m1 m2); try discriminate.
  destruct (Z.compare_spec s1 s2); try discriminate.
  destruct (Z.compare_spec u1 u2); try discriminate.
  intros _. by subst.
Qed.

(** X8: the range from [end] to [start] is the rest of the day outside the
    range from [start] to [end]: a clock time is within exactly one of the
    two, whenever the two ends differ. *)
Theorem time_in_between_complement (now start end_ : time) :
  start <> end_ ->
  time_in_between now end_ start = negb (time_in_between now start end_).
Proof.
  intros Hne. unfold time_in_between, time_leb, time_ltb.
  rewrite (time_cmp_antisym start end_), (time_cmp_antisym now end_),
    (time_cmp_antisym start now).
  destruct (time_cmp start end_) eqn:Hc;
    [by apply time_cmp_eq in Hc| |];
    by destruct (time_cmp start now), (time_cmp now end_).
Qed.

Lemma time_in_between_complement_witness :
  mk_time 22 0 0 0 <> mk_time 6 0 0 0
  /\ time_in_between (mk_time 23 0 0 0) (mk_time 6 0 0 0) (mk_time 22 0 0 0)
     = negb (time_in_between (mk_time 23 0 0 0) (mk_time 22 0 0 0)
               (mk_time 6 0 0 0)).
Proof.
  assert (mk_time 22 0 0 0 <> mk_time 6 0 0 0) as H by discriminate.
  split; [exact H|].
  exact (time_in_between_complement (mk_time 23 0 0 0) _ _ H).
Defined.

End TimeHelpers.

(** ** Dates as text *)

Section Dates.

Lemma parse_d_range (cs : list ascii) (x : Z) :
  parse_d cs = Some x -> 1 <= x <= 31.
Proof.
  unfold parse_d. destruct cs as [|a [|b [|? ?]]]; try discriminate.
  - destruct (digit a) as [v|] eqn:Hv; [|discriminate].
    apply digit_range in Hv.
    destruct (Z.leb_spec 1 v); [|discriminate]. intros [= <-]. lia.
  - destruct (digit b) as [y|] eqn:Hy; [|discriminate].
    apply digit_range in Hy.
    destruct (Ascii.eqb a " ").
    + destruct (Z.leb_spec 1 y); [|discriminate]. intros [= <-]. lia.
    + destruct (digit a) as [v|] eqn:Hv; [|discriminate]. cbv zeta.
      destruct (Z.leb_spec 1 (10 * v + y)); [|discriminate].
      destruct (Z.leb_spec (10 * v + y) 31); [|discriminate].
      intros [= <-]. lia.
Qed.

Lemma parse_m_range (cs : list ascii) (x : Z) :
  parse_m cs = Some x -> 1 <= x <= 12.
Proof.
  unfold parse_m. destruct cs as [|a [|b [|? ?]]]; try discriminate.
  - destruct (digit a) as [v|] eqn:Hv; [|discriminate].
    apply digit_range in Hv.
    destruct (Z.leb_spec 1 v); [|discriminate]. intros [= <-]. lia.
  - destruct (digit a) as [v|] eqn:Hv; [|discriminate].
    destruct (digit b) as [y|] eqn:Hy; [|discriminate]. cbv zeta.
    destruct (Z.leb_spec 1 (10 * v + y)); [|discriminate].
    destruct (Z.leb_spec (10 * v + y) 12); [|discriminate].
    intros [= <-]. lia.
Qed.

Lemma parse_Y_range (cs : list ascii) (x : Z) :
  parse_Y cs = Some x -> 0 <= x <= 9999.
Proof.
  unfold parse_Y. destruct cs as [|a [|b [|c [|d [|? ?]]]]]; try discriminate.
  destruct (digit a) as [w|] eqn:Hw; [|discriminate].
  destruct (digit b) as [v|] eqn:Hv; [|discriminate].
  destruct (digit c) as [y|] eqn:Hy; [|discriminate].
  destruct (digit d) as [z|] eqn:Hz; [|discriminate].
  apply digit_range in Hw, Hv, Hy, Hz. intros [= <-]. lia.
Qed.

(** X9: a date that [str_to_date] returns is a day of the calendar: a year
    from 1 to 9999, a month from 1 to 12 and a day that the month has in
    that year. *)
Theorem str_to_date_calendar (s : string) (d : date) :
  str_to_date s = Some d ->
  MINYEAR <= year d <= MAXYEAR
  /\ 1 <= month d <= 12
  /\ 1 <= day d <= days_in_month (year d) (month d).
Proof.
  unfold str_to_date, MINYEAR, MAXYEAR.
  destruct (split "/" s) as [|dd [|mm [|yy [|? ?]]]]; try discriminate.
  destruct (parse_d (chars dd)) as [x|] eqn:Hd; [|discriminate].
  destruct (parse_m (chars mm)) as [y|] eqn:Hm; [|discriminate].
  destruct (parse_Y (chars yy)) as [z|] eqn:Hy; [|discriminate].
  apply parse_d_range in Hd. apply parse_m_range in Hm.
  apply parse_Y_range in Hy.
  destruct (Z.leb_spec 1 z); [|discriminate].
  destruct (Z.leb_spec x (days_in_month z y)); [|discriminate].
  intros [= <-]. simpl. lia.
Qed.

Lemma str_to_date_calendar_witness :
  str_to_date "29/02/2024" = Some (mk_date 2024 2 29)
  /\ (MINYEAR <= year (mk_date 2024 2 29) <= MAXYEAR
      /\ 1 <= month (mk_date 2024 2 29) <= 12
      /\ 1 <= day (mk_date 2024 2 29)
         <= days_in_month (year (mk_date 2024 2 29))
              (month (mk_date 2024 2 29))).
Proof.
  assert (str_to_date "29/02/2024" = Some (mk_date 2024 2 29)) as H
    by reflexivity.
  split; [exact H|]. exact (str_to_date_calendar _ _ H).
Defined.

Lemma split_three (sep a b c d e f g h : ascii) :
  Ascii.eqb a sep = false -> Ascii.eqb b sep = false ->
  Ascii.eqb c sep = false -> Ascii.eqb d sep = false ->
  Ascii.eqb e sep = false -> Ascii.eqb f sep = false ->
  Ascii.eqb g sep = false -> Ascii.eqb h sep = false ->
  split sep
    (String a (String b (String sep (String c (String d (String sep
       (String e (String f (String g (String h ""))))))))))
  = [String a (String b ""); String c (String d "");
     String e (String f (String g (String h "")))].
Proof.
  intros Ha Hb Hc Hd He Hf Hg Hh. unfold split. cbn [split_go].
  rewrite Ha, Hb, Hc, Hd, He, Hf, Hg, Hh, Ascii.eqb_refl. reflexivity.
Qed.

Lemma days_in_month_range (y m : Z) : 28 <= days_in_month y m <= 31.
Proof.
  unfold days_in_month.
  destruct (m =? 2); [destruct (is_leap y); lia|].
  destruct ((m =? 4) || (m =? 6) || (m =? 9) || (m =? 11)); lia.
Qed.

(** X10: [str_to_date] reads every day of the calendar that is written as
    [DD/MM/YYYY], with two digits for the day and the month and four for
    the year. *)
Theorem str_to_date_padded (y m d : Z) :
  MINYEAR <= y <= MAXYEAR -> 1 <= m <= 12 -> 1 <= d <= days_in_month y m ->
  str_to_date (pad2 d +:+ "/" +:+ pad2 m +:+ "/" +:+ pad4 y)
  = Some (mk_date y m d).
Proof.
  unfold MINYEAR, MAXYEAR. intros Hy Hm Hd.
  pose proof (days_in_month_range y m) as Hdim.
  unfold pad4, pad2. cbv [String.append].
  unfold str_to_date.
  rewrite split_three by (apply digit_char_not; left; reflexivity).
  cbv [chars list_ascii_of_string parse_d parse_m parse_Y].
  rewrite !digit_digit_char.
  rewrite (digit_char_not (d / 10) " ") by (left; reflexivity).
  cbv zeta.
  assert (10 * ((d / 10) mod 10) + d mod 10 = d) as -> by (apply pad2_digits; lia).
  assert (10 * ((m / 10) mod 10) + m mod 10 = m) as -> by (apply pad2_digits; lia).
  assert (1000 * ((y / 1000) mod 10) + 100 * ((y / 100) mod 10)
          + 10 * ((y / 10) mod 10) + y mod 10 = y) as ->.
  { Z.div_mod_to_equations. lia. }
  destruct (Z.leb_spec 1 d); [|lia]. destruct (Z.leb_spec d 31); [|lia].
  destruct (Z.leb_spec 1 m); [|lia]. destruct (Z.leb_spec m 12); [|lia].
  destruct (Z.leb_spec 1 y); [|lia].
  cbn [andb]. cbv beta iota.
  destruct (Z.leb_spec d (days_in_month y m)); [|lia].
  reflexivity.
Qed.

Lemma str_to_date_padded_witness :
  str_to_date (pad2 1 +:+ "/" +:+ pad2 2 +:+ "/" +:+ pad4 2024)
  = Some (mk_date 2024 2 1).
Proof.
  refine (str_to_date_padded 2024 2 1 _ _ _).
  - unfold MINYEAR, MAXYEAR. lia.
  - lia.
  - vm_compute. split; discriminate.
Defined.

(** Two days from year 0 to 9999 that [isoformat] writes alike are the
    same day. *)
Lemma isoformat_inj (a b : date) :
  0 <= year a <= MAXYEAR -> 0 <= month a < 100 -> 0 <= day a < 100 ->
  0 <= year b <= MAXYEAR -> 0 <= month b < 100 -> 0 <= day b < 100 ->
  isoformat a = isoformat b -> a = b.
Proof.
  unfold MAXYEAR. destruct a as [y1 m1 d1], b as [y2 m2 d2]. simpl.
  intros Hy1 Hm1 Hd1 Hy2 Hm2 Hd2.
  unfold isoformat, pad4, pad2. simpl year. simpl month. simpl day.
  cbv [String.append].
  intros [= H1 H2 H3 H4 H5 H6 H7 H8].
  apply digit_char_inj in H1, H2, H3, H4, H5, H6, H7, H8.
  assert (y1 = y2) as -> by (Z.div_mod_to_equations; lia).
  assert (m1 = m2) as -> by (Z.div_mod_to_equations; lia).
  assert (d1 = d2) as -> by (Z.div_mod_to_equations; lia).
  reflexivity.
Qed.

End Dates.

(** *** The ordinal of a day *)

(** The ordinals of the first and of the last day of the calendar, and of
    1970-01-01. *)
Example toordinal_values :
  toordinal (mk_date 1 1 1) = 1
  /\ toordinal (mk_date 9999 12 31) = MAXORDINAL
  /\ toordinal (mk_date 1970 1 1) = 719163.
Proof. split_and!; reflexivity. Qed.

(** The day after a day of the calendar has the next ordinal. *)
Lemma toordinal_add_day (d d' : date) :
  1 <= month d <= 12 ->
  1 <= day d <= days_in_month (year d) (month d) ->
  date_add_day d = Some d' ->
  toordinal d' = toordinal d + 1.
Proof.
  destruct d as [y m dd]. unfold date_add_day, MAXYEAR. simpl.
  intros Hm Hd.
  destruct (dd <? days_in_month y m) eqn:Hlt.
  { intros [= <-]. unfold toordinal, days_from_civil. simpl. lia. }
  apply Z.ltb_ge in Hlt.
  assert (dd = days_in_month y m) as -> by lia. clear Hlt Hd.
  destruct (m <? 12) eqn:Hm12.
  - apply Z.ltb_lt in Hm12. intros [= <-].
    unfold toordinal, days_from_civil, days_in_month, is_leap. simpl.
    assert (m = 1 \/ m = 2 \/ m = 3 \/ m = 4 \/ m = 5 \/ m = 6 \/ m = 7
            \/ m = 8 \/ m = 9 \/ m = 10 \/ m = 11) as Hcases by lia.
    destruct Hcases as [->|[->|[->|[->|[->|[->|[->|[->|[->|[->| ->]]]]]]]]]];
      simpl; try (Z.div_mod_to_equations; lia).
    destruct (y mod 4 =? 0) eqn:H4; destruct (y mod 100 =? 0) eqn:H100;
      destruct (y mod 400 =? 0) eqn:H400; simpl;
      rewrite ?Z.eqb_eq, ?Z.eqb_neq in *;
      Z.div_mod_to_equations; lia.
  - apply Z.ltb_ge in Hm12. assert (m = 12) as -> by lia.
    destruct (y <? 9999); [|discriminate]. intros [= <-].
    unfold toordinal, days_from_civil, days_in_month. simpl.
    replace (y + 1 - 1) with y by lia. Z.div_mod_to_equations; lia.
Qed.

(** ** The schedule pattern and the times it lets through *)

Section Pattern.

(** *** Patterns and their texts *)

Lemma nullable_matches (r : regex) : nullable r = true <-> matches r [].
Proof.
  induction r as [| |lo hi|r1 IH1 r2 IH2|r1 IH1 r2 IH2]; simpl.
  - split; [discriminate|done].
  - done.
  - split; [discriminate|]. by intros (a & H & _).
  - rewrite andb_true_iff, IH1, IH2. split.
    + intros [H1 H2]. by exists [], [].
    + intros (s1 & s2 & Hs & H1 & H2). symmetry in Hs.
      apply app_eq_nil in Hs as [-> ->]. done.
  - by rewrite orb_true_iff, IH1, IH2.
Qed.

Lemma deriv_matches (a : ascii) (r : regex) (s : list ascii) :
  matches (deriv a r) s <-> matches r (a :: s).
Proof.
  revert s.
  induction r as [| |lo hi|r1 IH1 r2 IH2|r1 IH1 r2 IH2]; intros s; simpl.
  - done.
  - split; [done|discriminate].
  - destruct ((code lo <=? code a) && (code a <=? code hi)) eqn:Hc; simpl.
    + apply andb_true_iff in Hc as [H1 H2].
      split.
      * intros ->. exists a. split; [done|lia].
      * by intros (b & [= <- <-] & _).
    + split; [done|]. intros (b & [= <- ->] & Hb).
      apply andb_false_iff in Hc as [Hc|Hc]; lia.
  - destruct (nullable r1) eqn:Hn; simpl.
    + split.
      * intros [(s1 & s2 & -> & H1 & H2)|H2].
        -- exists (a :: s1), s2. split; [done|]. split; [by apply IH1|done].
        -- exists [], (a :: s). split; [done|].
           split; [by apply nullable_matches|by apply IH2].
      * intros (s1 & s2 & Hs & H1 & H2). destruct s1 as [|b s1].
        -- right. simpl in Hs. subst s2. by apply IH2.
        -- left. injection Hs as <- ->. exists s1, s2.
           split; [done|]. split; [by apply IH1|done].
    + split.
      * intros (s1 & s2 & -> & H1 & H2). exists (a :: s1), s2.
        split; [done|]. split; [by apply IH1|done].
      * intros (s1 & s2 & Hs & H1 & H2). destruct s1 as [|b s1].
        -- apply nullable_matches in H1. congruence.
        -- injection Hs as <- ->. exists s1, s2.
           split; [done|]. split; [by apply IH1|done].
  - by rewrite IH1, IH2.
Qed.

(** [re_fullmatch] holds of the texts of the pattern. *)
Lemma re_fullmatch_matches (r : regex) (s : string) :
  re_fullmatch r s = true <-> matches r (chars s).
Proof.
  revert r. induction s as [|a s IH]; intros r; simpl.
  - apply nullable_matches.
  - rewrite IH. apply deriv_matches.
Qed.

(** [re_match] holds of the strings that start with a text of the
    pattern. *)
Lemma re_match_matches (r : regex) (s : string) :
  re_match r s = true
  <-> exists p q, chars s = (p ++ q)%list /\ matches r p.
Proof.
  revert r. induction s as [|a s IH]; intros r; simpl;
    rewrite orb_true_iff, nullable_matches.
  - split.
    + intros [H|H]; [|discriminate]. by exists [], [].
    + intros (p & q & Hs & Hp). symmetry in Hs.
      apply app_eq_nil in Hs as [-> ->]. by left.
  - rewrite IH. split.
    + intros [H|(p & q & Hs & Hp)].
      * by exists [], (a :: chars s).
      * exists (a :: p), q. unfold chars in *. simpl. rewrite Hs.
        split; [done|]. by apply deriv_matches.
    + intros (p & q & Hs & Hp). destruct p as [|b p]; [by left|].
      right. injection Hs as <- Hs. exists p, q.
      split; [done|]. by apply deriv_matches.
Qed.

(** *** Splitting a string at a separator *)

Lemma chars_rev_app (s t : string) :
  chars (String.rev_app s t) = (List.rev (chars s) ++ chars t)%list.
Proof.
  revert t. induction s as [|a s IH]; intros t; simpl; [done|].
  rewrite IH. unfold chars. simpl. by rewrite <- app_assoc.
Qed.

Lemma chars_rev (s : string) : chars (String.rev s) = List.rev (chars s).
Proof. unfold String.rev. rewrite chars_rev_app. apply app_nil_r. Qed.

Lemma chars_inj (s t : string) : chars s = chars t -> s = t.
Proof.
  intros H. apply (f_equal string_of_list_ascii) in H.
  unfold chars in H. by rewrite !string_of_list_ascii_of_string in H.
Qed.

Lemma chars_text (x : list ascii) : chars (string_of_list_ascii x) = x.
Proof. apply list_ascii_of_string_of_list_ascii. Qed.

Lemma chars_onto (x : list ascii) (cur : string) :
  chars (fold_left (fun c a => String a c) x cur)
  = (List.rev x ++ chars cur)%list.
Proof.
  revert cur. induction x as [|a x IH]; intros cur; simpl; [done|].
  rewrite IH. unfold chars. simpl. by rewrite <- app_assoc.
Qed.

Lemma rev_onto (x : list ascii) :
  String.rev (fold_left (fun c a => String a c) x "") = string_of_list_ascii x.
Proof.
  apply chars_inj. rewrite chars_rev, chars_onto, chars_text. simpl.
  by rewrite app_nil_r, List.rev_involutive.
Qed.

Lemma split_go_text (sep : ascii) (x y : list ascii) (cur : string) :
  without sep x ->
  split_go sep cur (string_of_list_ascii (x ++ y))
  = split_go sep (fold_left (fun c a => String a c) x cur)
      (string_of_list_ascii y).
Proof.
  intros Hx. revert cur. induction Hx as [|a x Ha _ IH]; intros cur; [done|].
  simpl. rewrite Ha. apply IH.
Qed.

(** A piece that holds no separator, and the separator after it. *)
Lemma split_at (sep : ascii) (x y : list ascii) :
  without sep x ->
  split sep (string_of_list_ascii (x ++ sep :: y))
  = string_of_list_ascii x :: split sep (string_of_list_ascii y).
Proof.
  intros Hx. unfold split. rewrite split_go_text by done.
  simpl. by rewrite Ascii.eqb_refl, rev_onto.
Qed.

Lemma split_whole (sep : ascii) (x : list ascii) :
  without sep x ->
  split sep (string_of_list_ascii x) = [string_of_list_ascii x].
Proof.
  intros Hx. unfold split. rewrite <- (app_nil_r x) at 1.
  rewrite split_go_text by done. simpl. by rewrite rev_onto.
Qed.

(** [split] never gives the empty list. *)
Lemma split_go_cons (sep : ascii) (cur s : string) :
  exists h tl, split_go sep cur s = h :: tl.
Proof.
  revert cur. induction s as [|a s IH]; intros cur; simpl; [by eexists _, _|].
  destruct (Ascii.eqb a sep); [by eexists _, _|apply IH].
Qed.

(** *** The two halves of the pattern *)

Lemma code_inj (a b : ascii) : code a = code b -> a = b.
Proof.
  unfold code. intros H. apply N2Z.inj in H.
  by rewrite <- (ascii_N_embedding a), <- (ascii_N_embedding b), H.
Qed.

Lemma eqb_code (a b : ascii) : code a <> code b -> Ascii.eqb a b = false.
Proof. intros H. apply Ascii.eqb_neq. by intros ->. Qed.

Lemma digit_code (a : ascii) :
  48 <= code a <= 57 -> digit a = Some (code a - 48).
Proof.
  intros H. unfold digit.
  destruct (Z.leb_spec 48 (code a)); [|lia].
  destruct (Z.leb_spec (code a) 57); [|lia]. done.
Qed.

Lemma digits_without (sep : ascii) (x : list ascii) :
  code sep < 48 \/ 57 < code sep -> digits x -> without sep x.
Proof.
  intros Hs Hx. eapply Forall_impl; [exact Hx|].
  intros a Ha. simpl in Ha. apply eqb_code. lia.
Qed.

Lemma matches_Rng (lo hi : ascii) (s : list ascii) :
  matches (Rng lo hi) s -> exists a, s = [a] /\ code lo <= code a <= code hi.
Proof. done. Qed.

(** The hours of the pattern are one or two digits that [%H] reads. *)
Lemma HH_time (h : list ascii) :
  matches HH h -> digits h /\ exists x, parse_H h = Some x.
Proof.
  unfold HH, Opt, Chr.
  intros [(s1 & s2 & -> & [(a & Hs1 & Ha) | Hs1] & (b & -> & Hb))
         |(s1 & s2 & -> & (a & Hs1 & Ha) & (b & -> & Hb))];
    simpl in Hs1; subst s1;
    change (code "0") with 48 in *; change (code "1") with 49 in *;
    change (code "2") with 50 in *; change (code "3") with 51 in *;
    change (code "9") with 57 in *; simpl app.
  - split; [repeat constructor; lia|].
    unfold parse_H. rewrite !digit_code by lia.
    destruct (Z.leb_spec (code a - 48) 1); [|lia].
    rewrite orb_true_r. by eexists.
  - split; [repeat constructor; lia|].
    unfold parse_H. rewrite digit_code by lia. by eexists.
  - split; [repeat constructor; lia|].
    unfold parse_H. rewrite !digit_code by lia.
    destruct (Z.eqb_spec (code a - 48) 2); [|lia].
    destruct (Z.leb_spec (code b - 48) 3); [|lia]. by eexists.
Qed.

(** The minutes of the pattern are two digits that [%M] reads. *)
Lemma MM_time (m : list ascii) :
  matches MM m -> digits m /\ exists x, parse_M m = Some x.
Proof.
  unfold MM.
  intros (s1 & s2 & -> & (a & -> & Ha) & (b & -> & Hb));
    change (code "0") with 48 in *; change (code "5") with 53 in *;
    change (code "9") with 57 in *; simpl app.
  split; [repeat constructor; lia|].
  unfold parse_M. rewrite !digit_code by lia.
  destruct (Z.leb_spec (code a - 48) 5); [|lia]. by eexists.
Qed.

(** Hours, a colon and minutes of the pattern are a time for
    [str_to_time], and hold no dash. *)
Lemma HH_MM_time (h m : list ascii) :
  matches HH h -> matches MM m ->
  without "-" (h ++ ":"%char :: m)
  /\ exists t, str_to_time (string_of_list_ascii (h ++ ":"%char :: m)) = Some t.
Proof.
  intros Hh Hm.
  destruct (HH_time h Hh) as (Dh & x & Hx).
  destruct (MM_time m Hm) as (Dm & y & Hy).
  split.
  - apply Forall_app. split; [|constructor; [done|]];
      apply digits_without; try done; left; reflexivity.
  - unfold str_to_time.
    rewrite split_at by (apply digits_without; [by right|done]).
    rewrite split_whole by (apply digits_without; [by right|done]).
    rewrite !chars_text, Hx, Hy. by eexists.
Qed.

Lemma matches_Chr (c : ascii) (s : list ascii) :
  matches (Chr c) s -> s = [c].
Proof.
  intros (a & -> & Ha). f_equal. apply code_inj. lia.
Qed.

(** A text of the pattern is two such times around a dash. *)
Lemma RANGE_PATTERN_text (p : list ascii) :
  matches RANGE_PATTERN p ->
  exists h m h' m',
    p = ((h ++ ":"%char :: m) ++ "-"%char :: (h' ++ ":"%char :: m'))%list
    /\ matches HH h /\ matches MM m /\ matches HH h' /\ matches MM m'.
Proof.
  unfold RANGE_PATTERN.
  intros (h & r1 & -> & Hh & c1 & r2 & -> & Hc1 & m & r3 & -> & Hm
          & c2 & r4 & -> & Hc2 & h' & r5 & -> & Hh' & c3 & m' & -> & Hc3 & Hm').
  apply matches_Chr in Hc1, Hc2, Hc3. subst c1 c2 c3.
  exists h, m, h', m'. split; [|done]. simpl. by rewrite <- !app_assoc.
Qed.

(** *** What the test of the pattern guarantees *)

(** An entry that passes [re.match] has a dash after a time: [split] gives
    at least two pieces, and the first of them is a time for
    [str_to_time]. *)
Lemma range_pattern_pieces (s : string) :
  re_match RANGE_PATTERN s = true ->
  exists h0 h1 rest start,
    split "-" s = h0 :: h1 :: rest /\ str_to_time h0 = Some start.
Proof.
  intros H. apply re_match_matches in H as (p & q & Hs & Hp).
  apply RANGE_PATTERN_text in Hp as (h & m & h' & m' & -> & Hh & Hm & _ & _).
  destruct (HH_MM_time h m Hh Hm) as (Hw & t & Ht).
  rewrite <- app_assoc in Hs. simpl in Hs.
  assert (s = string_of_list_ascii
                ((h ++ ":"%char :: m) ++ "-"%char :: ((h' ++ ":"%char :: m') ++ q))) as ->.
  { apply chars_inj. by rewrite chars_text. }
  rewrite split_at by done.
  destruct (split_go_cons "-" "" (string_of_list_ascii ((h' ++ ":"%char :: m') ++ q)))
    as (h1 & tl & Hsplit).
  unfold split at 1. rewrite Hsplit.
  by exists (string_of_list_ascii (h ++ ":"%char :: m)), h1, tl, t.
Qed.

(** An entry that the pattern matches in whole is read as a range. *)
Lemma strict_entry_range (entry : string) :
  re_fullmatch RANGE_PATTERN (strip entry) = true ->
  exists start end_, entry_range entry start end_.
Proof.
  intros H. apply re_fullmatch_matches in H.
  pose proof H as Hp.
  apply RANGE_PATTERN_text in Hp as (h & m & h' & m' & Hs & Hh & Hm & Hh' & Hm').
  destruct (HH_MM_time h m Hh Hm) as (Hw & t & Ht).
  destruct (HH_MM_time h' m' Hh' Hm') as (Hw' & t' & Ht').
  exists t, t'. split.
  - apply re_match_matches. exists (chars (strip entry)), [].
    by rewrite app_nil_r.
  - assert (strip entry
            = string_of_list_ascii
                ((h ++ ":"%char :: m) ++ "-"%char :: (h' ++ ":"%char :: m'))) as ->.
    { apply chars_inj. by rewrite chars_text. }
    rewrite split_at by done. rewrite split_whole by done.
    by eexists _, _, _.
Qed.

(** The loop over the schedule raises nothing but [ValueError]. *)
Lemma scan_ranges_value_error (now : time) (entries : list string) (e : exn) :
  scan_ranges now entries = Raise e -> e = ValueError.
Proof.
  induction entries as [|entry entries IH]; simpl; [discriminate|].
  destruct (re_match RANGE_PATTERN (strip entry)) eqn:Hm; simpl; [|done].
  destruct (range_pattern_pieces _ Hm) as (h0 & h1 & rest & start & -> & ->).
  destruct (str_to_time h1); [|by intros [= <-]].
  by destruct (time_in_between now start t).
Qed.

(** X11: the loop over the schedule raises nothing but [ValueError], and
    raises it only in [str_to_time(hours[1])], on an entry that passed
    [re.match]: such an entry has a dash, so that [hours[1]] raises no
    [IndexError], and what stands before its first dash is a time, so that
    [str_to_time(hours[0])] raises nothing. *)
Theorem scan_ranges_raise_origin (now : time) (entries : list string)
    (e : exn) :
  scan_ranges now entries = Raise e ->
  e = ValueError
  /\ exists entry h0 h1 rest start,
       entry ∈ entries
       /\ re_match RANGE_PATTERN (strip entry) = true
       /\ split "-" (strip entry) = h0 :: h1 :: rest
       /\ str_to_time h0 = Some start
       /\ str_to_time h1 = None.
Proof.
  induction entries as [|entry entries IH]; simpl; [discriminate|].
  destruct (re_match RANGE_PATTERN (strip entry)) eqn:Hm; simpl.
  - destruct (range_pattern_pieces _ Hm) as (h0 & h1 & rest & start & Hs & H0).
    rewrite Hs, H0.
    destruct (str_to_time h1) as [end_|] eqn:H1.
    + destruct (time_in_between now start end_); [discriminate|].
      intros H. destruct (IH H) as (-> & entry' & h0' & h1' & rest' & start'
                                    & Hin & Hrest).
      split; [done|]. exists entry', h0', h1', rest', start'.
      split; [by right|done].
    + intros [= <-]. split; [done|].
      exists entry, h0, h1, rest, start. split_and!; try done. by left.
  - intros H. destruct (IH H) as (-> & entry' & h0' & h1' & rest' & start'
                                  & Hin & Hrest).
    split; [done|]. exists entry', h0', h1', rest', start'.
    split; [by right|done].
Qed.

Lemma scan_ranges_raise_origin_witness :
  scan_ranges (mk_time 12 0 0 0) ["nuit"; "22:00-06:00x"] = Raise ValueError
  /\ (ValueError = ValueError
      /\ exists entry h0 h1 rest start,
           entry ∈ ["nuit"; "22:00-06:00x"]
           /\ re_match RANGE_PATTERN (strip entry) = true
           /\ split "-" (strip entry) = h0 :: h1 :: rest
           /\ str_to_time h0 = Some start
           /\ str_to_time h1 = None).
Proof.
  assert (scan_ranges (mk_time 12 0 0 0) ["nuit"; "22:00-06:00x"]
          = Raise ValueError) as H by reflexivity.
  split; [exact H|]. exact (scan_ranges_raise_origin _ _ _ H).
Defined.

End Pattern.

Section Schedule.

Context {F : PyFloat} (K : Const).

(** X12: for an hphc or tempo contract whose schedule holds only entries
    that the pattern matches in whole, or that do not start as the pattern
    at all, the off-peak part raises nothing: [is_off_peak] is true and the
    current rate is the off-peak rate when the clock is within the range of
    some entry, and otherwise [is_off_peak] is false and the current rate is
    the peak rate; the off-peak binary sensor is on in the first case and
    off in the second. *)
Theorem offpeak_strict_schedule (cfg : config) (E : env) (st : coordinator)
    (s : string) (key : string) :
  (contract_type cfg = CONTRACT_TYPE_HPHC /\ key = "hphc"
   \/ contract_type cfg = CONTRACT_TYPE_TEMPO /\ key = "tempo") ->
  schedule_of K cfg = Some s ->
  s <> "" ->
  Forall (fun entry =>
            re_fullmatch RANGE_PATTERN (strip entry) = true
            \/ re_match RANGE_PATTERN (strip entry) = false)
    (split "," s) ->
  exists b st',
    offpeak_step K cfg E st = (Return tt, st')
    /\ (b = true <-> within_schedule (dt_time (now_off_peak E)) (split "," s))
    /\ binary_sensor.is_on (the_data st') = VBool b
    /\ the_data st' !! "tarif_actuel_ttc"
       = Some (dget (the_data st)
                 (key +:+ (if b then "_variable_hc_ttc" else "_variable_hp_ttc"))).
Proof.
  intros Htype Hsched Hne Hstrict.
  destruct (offpeak_step_sound K cfg E st s key Htype Hsched Hne)
    as (b & st' & Hstep & Hb & Hoff & Hrate).
  { eapply Forall_impl; [exact Hstrict|].
    intros entry [H|H]; [right; by apply strict_entry_range|by left]. }
  exists b, st'. split_and!; [done|done| |done].
  unfold binary_sensor.is_on. by rewrite Hoff.
Qed.

End Schedule.

Lemma offpeak_strict_schedule_witness :
  exists b st',
    offpeak_step (F := F0) K0 cfg_hphc
      (env_at (at_time day1 23 0) hphc_csv no_api) init_coordinator
    = (Return tt, st')
    /\ (b = true
        <-> within_schedule (dt_time (now_off_peak
                                       (env_at (at_time day1 23 0) hphc_csv no_api)))
              (split "," "22:00-06:00"))
    /\ binary_sensor.is_on (the_data st') = VBool b
    /\ the_data st' !! "tarif_actuel_ttc"
       = Some (dget (the_data init_coordinator)
                 ("hphc" +:+ (if b then "_variable_hc_ttc"
                              else "_variable_hp_ttc"))).
Proof.
  refine (offpeak_strict_schedule (F := F0) K0 cfg_hphc _ init_coordinator
            "22:00-06:00" "hphc" _ _ _ _).
  - left. split; reflexivity.
  - reflexivity.
  - discriminate.
  - change (split "," "22:00-06:00") with ["22:00-06:00"].
    constructor; [left; reflexivity|constructor].
Defined.

(** ** More on the colour cache *)

Section CacheMore.

Context {F : PyFloat} (K : Const).

Lemma find_app_some {A : Type} (f : A -> bool) (l1 l2 : list A) (x : A) :
  find f l1 = Some x -> find f (l1 ++ l2) = Some x.
Proof.
  induction l1 as [|a l1 IH]; simpl; [discriminate|].
  by destruct (f a).
Qed.

Lemma find_app_none {A : Type} (f : A -> bool) (l1 l2 : list A) :
  find f l1 = None -> find f (l1 ++ l2) = find f l2.
Proof.
  induction l1 as [|a l1 IH]; simpl; [done|].
  by destruct (f a).
Qed.

Lemma find_true {A : Type} (f : A -> bool) (l : list A) (x : A) :
  find f l = Some x -> f x = true /\ x ∈ l.
Proof.
  induction l as [|a l IH]; simpl; [discriminate|].
  destruct (f a) eqn:Ha.
  - intros [= <-]. split; [done|by left].
  - intros H. destruct (IH H). split; [done|by right].
Qed.

Lemma find_is_some {A : Type} (f : A -> bool) (l : list A) (x : A) :
  x ∈ l -> f x = true -> exists y, find f l = Some y.
Proof.
  induction 1 as [x l|x a l _ IH]; simpl; intros Hx.
  - rewrite Hx. by eexists.
  - destruct (f a); [by eexists|by apply IH].
Qed.

(** What a call does to the cache and to the request log: at most one
    request, of the URL of the day, and at most one record, after a
    request. *)
Lemma get_tempo_day_grows (E : env) (clock : datetime) (target : date)
    (st : coordinator) :
  let st' := (get_tempo_day K E clock target st).2 in
  exists l1 l2,
    requests st' = (requests st ++ l1)%list
    /\ tempo_prices st' = (tempo_prices st ++ l2)%list
    /\ (l1 = [] \/ l1 = [tempo_url K target])
    /\ (List.length l2 <= List.length l1)%nat
    /\ Forall (fun p => record_ok p = true) l2.
Proof.
  unfold get_tempo_day, tempo_url.
  destruct (find _ (tempo_prices st)) as [p|].
  - exists [], []. simpl. rewrite !app_nil_r. split_and!; auto.
  - destruct (http_json E _) as [j|e].
    + eexists [_], [_]. simpl. split_and!; [done|done|by right|done|].
      constructor; [|done].
      destruct j as [|d]; [done|].
      destruct d as [[dj|] [cj|]]; done.
    + eexists [_], []. simpl. rewrite !app_nil_r.
      split_and!; [by destruct e|by destruct e|by right|lia|done].
Qed.

(** X13: a known colour is asked for once.  When the API is asked and
    answers with a known colour for the day, the record is cached, and every
    later call for that day, whatever the clock and the network, asks
    nothing and changes nothing; it returns a record of the day, whose
    colour is known once the clock has reached the availability time.
    Before that time, an older record of the day without a colour is served
    in its place when the cache holds one. *)
Theorem get_tempo_day_known_once (E : env) (clock : datetime) (target : date)
    (st : coordinator) (d : tempo_day) (c : Z) :
  let st' := (get_tempo_day K E clock target st).2 in
  requests st' <> requests st ->
  http_json E (tempo_url K target) = Return (JDict d) ->
  codeJour d = Some c ->
  known c ->
  (dateJour d = None \/ dateJour d = Some (isoformat target)) ->
  forall (E' : env) (clock' : datetime),
    exists r,
      get_tempo_day K E' clock' target st' = (Return r, st')
      /\ dateJour r = Some (isoformat target)
      /\ ((dt_time clock' >= TEMPO_TOMRROW_AVAILABLE_AT K)%time ->
          known (code_of r)).
Proof.
  intros st' Hreq Hj Hc Hknown Hdate E' clock'.
  assert (exists r0,
            tempo_prices st' = (tempo_prices st ++ [r0])%list
            /\ dateJour r0 = Some (isoformat target)
            /\ code_of r0 = c) as (r0 & Hcache & Hd0 & Hc0).
  { unfold st', get_tempo_day in *. unfold tempo_url in Hj.
    destruct (find _ (tempo_prices st)) as [p|]; [done|].
    rewrite Hj, Hc. simpl.
    destruct Hdate as [Hd|Hd]; rewrite Hd; eexists; split_and!; try done.
    - unfold code_of. simpl. by rewrite Hc.
    - unfold code_of. by rewrite Hc. }
  assert (cache_usable (TEMPO_TOMRROW_AVAILABLE_AT K) (dt_time clock')
            (isoformat target) r0 = true) as Hr0.
  { apply cache_usable_servable. split; [done|]. left. by rewrite Hc0. }
  destruct (find_is_some
              (cache_usable (TEMPO_TOMRROW_AVAILABLE_AT K) (dt_time clock')
                 (isoformat target)) (tempo_prices st') r0) as (r & Hfind).
  { rewrite Hcache. apply elem_of_app. right. by left. }
  { done. }
  exists r. unfold get_tempo_day at 1. rewrite Hfind.
  split; [done|].
  apply find_true in Hfind as [Hu _].
  apply cache_usable_servable in Hu as [Hdr [Hk|[_ Hlt]]].
  - split; [done|]. by intros _.
  - split; [done|]. intros Hge.
    rewrite time_geb_leb, time_leb_ltb in Hge. rewrite Hlt in Hge. discriminate.
Qed.

(** X14: a record of the cache is served for one day only: the key of a day
    in the cache, the text of its date, stands for no other day (of the
    years 0 to 9999). *)
Theorem cache_key_one_day (now now' : time) (a b : date) (p : tempo_day) :
  0 <= year a <= MAXYEAR -> 0 <= month a < 100 -> 0 <= day a < 100 ->
  0 <= year b <= MAXYEAR -> 0 <= month b < 100 -> 0 <= day b < 100 ->
  cache_usable (TEMPO_TOMRROW_AVAILABLE_AT K) now (isoformat a) p = true ->
  cache_usable (TEMPO_TOMRROW_AVAILABLE_AT K) now' (isoformat b) p = true ->
  a = b.
Proof.
  intros Hy1 Hm1 Hd1 Hy2 Hm2 Hd2 Ha Hb.
  apply cache_usable_servable in Ha as [Ha _].
  apply cache_usable_servable in Hb as [Hb _].
  apply isoformat_inj; try done. congruence.
Qed.

End CacheMore.

Lemma cache_key_one_day_witness :
  cache_usable (TEMPO_TOMRROW_AVAILABLE_AT K0) (mk_time 10 0 0 0)
    (isoformat day1) (mk_tempo_day (Some "2024-07-01") (Some 3)) = true
  /\ cache_usable (TEMPO_TOMRROW_AVAILABLE_AT K0) (mk_time 12 0 0 0)
       (isoformat (mk_date 2024 7 1))
       (mk_tempo_day (Some "2024-07-01") (Some 3)) = true
  /\ day1 = mk_date 2024 7 1.
Proof.
  split; [reflexivity|]. split; [reflexivity|].
  refine (cache_key_one_day K0 (mk_time 10 0 0 0) (mk_time 12 0 0 0) day1
            (mk_date 2024 7 1) (mk_tempo_day (Some "2024-07-01") (Some 3))
            _ _ _ _ _ _ _ _);
    unfold MAXYEAR; simpl; try lia; reflexivity.
Defined.

Lemma get_tempo_day_known_once_witness :
  exists r,
    get_tempo_day (F := F0) K0 (env_at (at_time day1 0 30) no_csv no_api)
      (at_time day1 0 30) day1
      (get_tempo_day (F := F0) K0
         (env_at (at_time day0 12 0) tempo_csv api_noon)
         (at_time day0 12 0) day1 init_coordinator).2
    = (Return r,
       (get_tempo_day (F := F0) K0
          (env_at (at_time day0 12 0) tempo_csv api_noon)
          (at_time day0 12 0) day1 init_coordinator).2)
    /\ dateJour r = Some (isoformat day1)
    /\ ((dt_time (at_time day1 0 30) >= TEMPO_TOMRROW_AVAILABLE_AT K0)%time ->
        known (code_of r)).
Proof.
  refine (get_tempo_day_known_once (F := F0) K0
            (env_at (at_time day0 12 0) tempo_csv api_noon)
            (at_time day0 12 0) day1 init_coordinator
            (mk_tempo_day (Some "2024-07-01") (Some 3)) 3 _ _ _ _ _
            (env_at (at_time day1 0 30) no_csv no_api) (at_time day1 0 30)).
  - vm_compute. discriminate.
  - reflexivity.
  - reflexivity.
  - right. right. reflexivity.
  - right. reflexivity.
Defined.

(** ** More on the tariff table *)

Ltac notin_list :=
  cbn [map fst tail];
  repeat (apply not_elem_of_cons; split; [done|]); apply not_elem_of_nil.

Ltac in_list :=
  cbn [map fst tail app];
  repeat first [apply list_elem_of_here | apply list_elem_of_further].

Section TableMore.

Context {F : PyFloat}.

(** *** Lines shorter than the header *)

(** The loop lets through no exception but the [AttributeError] of
    [.strip()] on a field that the line does not have. *)
Lemma row_body_raises (today : date) (power : string) (b : best) (r : row)
    (e : exn) :
  row_body today power b r = Raise e -> e = AttributeError \/ e = ValueError.
Proof.
  unfold row_body.
  repeat case_match; try discriminate; intros [= <-]; auto;
    repeat match goal with
      | H : _ = Raise _ |- _ => revert H
      end;
    repeat case_match; try discriminate; intros [= <-]; auto.
Qed.

Lemma row_step_raises (today : date) (power : string) (b : best) (r : row)
    (e : exn) :
  row_step today power b r = Raise e -> e = AttributeError.
Proof.
  unfold row_step.
  destruct (row_body today power b r) as [b'|e'] eqn:Hbody; [discriminate|].
  destruct (row_body_raises _ _ _ _ _ Hbody) as [-> | ->];
    [by intros [= <-]|discriminate].
Qed.

Lemma rows_loop_short_line (today : date) (power : string) (rows : list row)
    (b : best) (r : row) :
  r ∈ rows ->
  cell_get r "DATE_DEBUT" (Some "") = None
  \/ cell_get r "P_SOUSCRITE" (cell_get r "PUISSANCE" (Some "")) = None ->
  rows_loop today power b rows = Raise AttributeError.
Proof.
  intros Hin Hshort. revert b.
  induction Hin as [r rows|r r' rows _ IH]; intros b; simpl.
  - assert (row_step today power b r = Raise AttributeError) as ->; [|done].
    unfold row_step, row_body.
    destruct Hshort as [->| ->]; [done|].
    by destruct (cell_get r "DATE_DEBUT" (Some "")).
  - destruct (row_step today power b r') as [b'|e] eqn:Hstep; [by apply IH|].
    by rewrite (row_step_raises _ _ _ _ _ Hstep).
Qed.

(** X15: one line of the table that is too short to have a start date or a
    power makes the whole resolution raise [AttributeError], whatever the
    other lines are: the rows before it are read, the [except] of the loop
    does not catch the error, and no row is selected, even when the table
    has a candidate. *)
Theorem short_line_fails_table (today : date) (power type : string)
    (rows : list row) (r : row) :
  r ∈ rows ->
  cell_get r "DATE_DEBUT" (Some "") = None
  \/ cell_get r "P_SOUSCRITE" (cell_get r "PUISSANCE" (Some "")) = None ->
  _parse_tariff_csv today (Csv rows) power type = Raise AttributeError.
Proof.
  intros Hin Hshort. unfold _parse_tariff_csv, select_row.
  by rewrite (rows_loop_short_line today power rows _ r Hin Hshort).
Qed.

(** *** The order of the rows *)

Lemma date_le_antisym (a b : date) : date_le a b -> date_le b a -> a = b.
Proof.
  unfold date_le, date_leb, date_cmp.
  destruct a as [y1 m1 d1], b as [y2 m2 d2]. simpl.
  destruct (Z.compare_spec y1 y2), (Z.compare_spec y2 y1); try lia;
    try discriminate;
    destruct (Z.compare_spec m1 m2), (Z.compare_spec m2 m1); try lia;
    try discriminate;
    destruct (Z.compare_spec d1 d2), (Z.compare_spec d2 d1); try lia;
    try discriminate.
  intros _ _. by subst.
Qed.

(** What the loop has found at its end, on whole rows. *)
Lemma rows_loop_found (today : date) (power : string) (rows : list row) :
  Forall whole rows ->
  exists b,
    rows_loop today power (mk_best None None) rows = Return b
    /\ found today power rows b.
Proof.
  intros Hwhole.
  destruct (rows_loop_whole today power rows [] (mk_best None None) Hwhole)
    as (b & Hloop & Hfound).
  - intros r s Hin. by apply elem_of_nil in Hin.
  - by exists b.
Qed.

(** The row found is a candidate of the table, and no candidate starts
    later. *)
Lemma found_latest (today : date) (power : string) (rows : list row)
    (b : best) (r : row) :
  found today power rows b -> best_match b = Some r ->
  exists s,
    r ∈ rows /\ candidate today power r s
    /\ forall r' s', r' ∈ rows -> candidate today power r' s' -> date_le s' s.
Proof.
  unfold found. intros Hfound Hr. rewrite Hr in Hfound.
  destruct (best_date b) as [s|]; [|done].
  destruct Hfound as (l1 & l2 & -> & Hc & Hbefore & Hafter).
  exists s. split_and!; [|done|].
  - apply elem_of_app. right. by left.
  - intros r' s' Hin Hc'. apply elem_of_app in Hin as [Hin|Hin].
    + apply date_lt_le. by eapply Hbefore.
    + apply elem_of_cons in Hin as [->|Hin].
      * rewrite (candidate_fun _ _ _ _ _ Hc' Hc). apply date_le_refl.
      * by eapply Hafter.
Qed.

Lemma found_none (today : date) (power : string) (rows : list row) (b : best) :
  found today power rows b -> best_match b = None ->
  no_candidate today power rows.
Proof.
  unfold found. intros Hfound Hr. rewrite Hr in Hfound.
  by destruct (best_date b).
Qed.

(** X16: the selection depends on the order of the rows only through ties.
    On a table of whole rows in which no two candidates start on the same
    day, the same row is selected in whatever order the rows come. *)
Theorem select_row_order_free (today : date) (power : string)
    (rows rows' : list row) :
  Forall whole rows ->
  rows ≡ₚ rows' ->
  (forall r1 r2 s,
     r1 ∈ rows -> r2 ∈ rows ->
     candidate today power r1 s -> candidate today power r2 s -> r1 = r2) ->
  select_row today power rows' = select_row today power rows.
Proof.
  intros Hwhole Hperm Hdistinct.
  assert (Forall whole rows') as Hwhole' by by rewrite <- Hperm.
  destruct (rows_loop_found today power rows Hwhole) as (b & Hloop & Hfound).
  destruct (rows_loop_found today power rows' Hwhole') as (b' & Hloop' & Hfound').
  unfold select_row. rewrite Hloop, Hloop'. f_equal.
  destruct (best_match b) as [r|] eqn:Hr, (best_match b') as [r'|] eqn:Hr'.
  - destruct (found_latest _ _ _ _ _ Hfound Hr) as (s & Hin & Hc & Hmax).
    destruct (found_latest _ _ _ _ _ Hfound' Hr') as (s' & Hin' & Hc' & Hmax').
    rewrite <- Hperm in Hin'.
    assert (s = s') as <-.
    { apply date_le_antisym.
      - apply (Hmax' r s); [by rewrite <- Hperm|done].
      - by apply (Hmax r' s'). }
    f_equal. by apply (Hdistinct r' r s).
  - destruct (found_latest _ _ _ _ _ Hfound Hr) as (s & Hin & Hc & _).
    pose proof (found_none _ _ _ _ Hfound' Hr') as Hnone.
    exfalso. apply (Hnone r s); [by rewrite <- Hperm|done].
  - destruct (found_latest _ _ _ _ _ Hfound' Hr') as (s & Hin & Hc & _).
    pose proof (found_none _ _ _ _ Hfound Hr) as Hnone.
    exfalso. apply (Hnone r' s); [by rewrite Hperm|done].
  - done.
Qed.

(** *** The rates of the selected row *)

Lemma parse_fields_first (bm : row) (key column : string)
    (fields : list (string * string)) (acc r : gmap string value) :
  parse_fields bm ((key, column) :: fields) acc = Return r ->
  key ∉ map fst fields ->
  exists x,
    parse_price (cell_get bm column (Some "0")) = Return x
    /\ r !! key = Some (VFloat x).
Proof.
  simpl. destruct (parse_price _) as [x|]; [|discriminate].
  intros Hr Hk. exists x. split; [done|].
  rewrite (parse_fields_other _ _ _ _ _ Hr Hk). apply lookup_insert_eq.
Qed.

Lemma parse_fields_values (bm : row) (fields : list (string * string))
    (acc r : gmap string value) (k : string) (v : value) :
  parse_fields bm fields acc = Return r ->
  r !! k = Some v ->
  (k ∈ map fst fields /\ exists x, v = VFloat x) \/ acc !! k = Some v.
Proof.
  revert acc. induction fields as [|[key column] fields IH]; intros acc; simpl.
  - intros [= ->]. by right.
  - destruct (parse_price _) as [x|]; [|discriminate].
    intros Hr Hk. destruct (IH _ Hr Hk) as [[Hin Hv]|Hacc].
    + left. split; [by right|done].
    + destruct (decide (k = key)) as [->|Hne].
      * rewrite lookup_insert_eq in Hacc. injection Hacc as <-.
        left. split; [by left|by exists x].
      * rewrite lookup_insert_ne in Hacc by done. by right.
Qed.

Lemma add_abonnement_values (fixe abo : string) (r : gmap string value)
    (k : string) (v : value) :
  add_abonnement fixe abo r !! k = Some v ->
  (k = abo /\ exists x, v = VFloat x) \/ r !! k = Some v.
Proof.
  unfold add_abonnement.
  destruct (r !! fixe) as [[| |x| |]|]; auto.
  destruct (decide (k = abo)) as [->|Hne].
  - rewrite lookup_insert_eq. intros [= <-]. left. split; [done|by eexists].
  - rewrite lookup_insert_ne by done. by right.
Qed.

Lemma extract_rates_of (bm : row) (fields : list (string * string))
    (column fixe abo : string) (rates r : gmap string value) :
  parse_fields bm ((fixe, column) :: fields) ∅ = Return r ->
  rates = add_abonnement fixe abo r ->
  fixe ∉ map fst fields ->
  fixe <> abo ->
  exists x,
    parse_price (cell_get bm column (Some "0")) = Return x
    /\ rates !! fixe = Some (VFloat x)
    /\ rates !! abo = Some (VFloat (float_div x 12))
    /\ forall k v,
         rates !! k = Some v ->
         (k = abo \/ k ∈ fixe :: map fst fields) /\ exists y, v = VFloat y.
Proof.
  intros Hr -> Hk Hne.
  destruct (parse_fields_first _ _ _ _ _ _ Hr Hk) as (x & Hx & Hfixe).
  exists x. split; [done|]. split_and!.
  - by rewrite add_abonnement_other.
  - unfold add_abonnement. rewrite Hfixe. apply lookup_insert_eq.
  - intros k v Hv. apply add_abonnement_values in Hv as [[-> Hv]|Hv].
    + split; [by left|done].
    + destruct (parse_fields_values _ _ _ _ _ _ Hr Hv) as [[Hin Hy]|He].
      * split; [by right|done].
      * by rewrite lookup_empty in He.
Qed.

(** The rates of a row are floats under field names of the tariff
    table, whatever the contract type. *)
Lemma extract_rates_dom (bm : row) (type : string) (rates : gmap string value)
    (k : string) (v : value) :
  extract_rates bm type = Return rates ->
  rates !! k = Some v ->
  k ∈ TABLE_FIELDS /\ exists x, v = VFloat x.
Proof.
  unfold extract_rates.
  destruct (String.eqb type CONTRACT_TYPE_BASE);
    [|destruct (String.eqb type CONTRACT_TYPE_HPHC);
      [|destruct (String.eqb type CONTRACT_TYPE_TEMPO)]].
  - destruct (parse_fields bm BASE_FIELDS ∅) as [r|] eqn:Hr; [|discriminate].
    intros [= <-] Hv. apply add_abonnement_values in Hv as [[-> Hv]|Hv].
    { split; [unfold TABLE_FIELDS; in_list|done]. }
    destruct (parse_fields_values _ _ _ _ _ _ Hr Hv) as [[Hin Hy]|He];
      [|by rewrite lookup_empty in He].
    split; [|done]. unfold TABLE_FIELDS.
    apply elem_of_app. right. apply elem_of_app. by left.
  - destruct (parse_fields bm HPHC_FIELDS ∅) as [r|] eqn:Hr; [|discriminate].
    intros [= <-] Hv. apply add_abonnement_values in Hv as [[-> Hv]|Hv].
    { split; [unfold TABLE_FIELDS; in_list|done]. }
    destruct (parse_fields_values _ _ _ _ _ _ Hr Hv) as [[Hin Hy]|He];
      [|by rewrite lookup_empty in He].
    split; [|done]. unfold TABLE_FIELDS.
    apply elem_of_app. right. apply elem_of_app. right.
    apply elem_of_app. by left.
  - destruct (parse_fields bm TEMPO_FIELDS ∅) as [r|] eqn:Hr; [|discriminate].
    intros [= <-] Hv. apply add_abonnement_values in Hv as [[-> Hv]|Hv].
    { split; [unfold TABLE_FIELDS; in_list|done]. }
    destruct (parse_fields_values _ _ _ _ _ _ Hr Hv) as [[Hin Hy]|He];
      [|by rewrite lookup_empty in He].
    split; [|done]. unfold TABLE_FIELDS.
    apply elem_of_app. right. apply elem_of_app. right.
    apply elem_of_app. by right.
  - intros [= <-] Hv. by rewrite lookup_empty in Hv.
Qed.

(** X17: the rates of a row, for a contract type of the three: each one is a
    float under a field name of the tariff table; the fixed part is the
    price of [PART_FIXE_TTC] (zero when the field is empty or missing), and
    the monthly subscription is that price divided by 12. *)
Theorem extract_rates_subscription (bm : row) (type : string)
    (rates : gmap string value) :
  known_contract_type type ->
  extract_rates bm type = Return rates ->
  exists fixe,
    parse_price (cell_get bm "PART_FIXE_TTC" (Some "0")) = Return fixe
    /\ rates !! (type +:+ "_fixe_ttc") = Some (VFloat fixe)
    /\ rates !! (type +:+ "_abonnement_ttc")
       = Some (VFloat (float_div fixe 12))
    /\ forall k v,
         rates !! k = Some v -> k ∈ TABLE_FIELDS /\ exists x, v = VFloat x.
Proof.
  intros [-> |[-> | ->]]; unfold extract_rates;
    cbv [CONTRACT_TYPE_BASE CONTRACT_TYPE_HPHC CONTRACT_TYPE_TEMPO];
    cbn [String.eqb Ascii.eqb Bool.eqb].
  - destruct (parse_fields bm BASE_FIELDS ∅) as [r|] eqn:Hr; [|discriminate].
    intros [= <-].
    destruct (extract_rates_of bm (tail BASE_FIELDS) "PART_FIXE_TTC"
                "base_fixe_ttc" "base_abonnement_ttc" _ r Hr eq_refl)
      as (x & Hx & Hfixe & Habo & Hall); [notin_list|done|].
    exists x. split_and!; [done|done|done|].
    intros k v Hv. destruct (Hall k v Hv) as [Hk Hy]. split; [|done].
    clear -Hk. unfold TABLE_FIELDS. destruct Hk as [->|Hk]; [in_list|].
    apply elem_of_app. right. apply elem_of_app. by left.
  - destruct (parse_fields bm HPHC_FIELDS ∅) as [r|] eqn:Hr; [|discriminate].
    intros [= <-].
    destruct (extract_rates_of bm (tail HPHC_FIELDS) "PART_FIXE_TTC"
                "hphc_fixe_ttc" "hphc_abonnement_ttc" _ r Hr eq_refl)
      as (x & Hx & Hfixe & Habo & Hall); [notin_list|done|].
    exists x. split_and!; [done|done|done|].
    intros k v Hv. destruct (Hall k v Hv) as [Hk Hy]. split; [|done].
    clear -Hk. unfold TABLE_FIELDS. destruct Hk as [->|Hk]; [in_list|].
    apply elem_of_app. right. apply elem_of_app. right.
    apply elem_of_app. by left.
  - destruct (parse_fields bm TEMPO_FIELDS ∅) as [r|] eqn:Hr; [|discriminate].
    intros [= <-].
    destruct (extract_rates_of bm (tail TEMPO_FIELDS) "PART_FIXE_TTC"
                "tempo_fixe_ttc" "tempo_abonnement_ttc" _ r Hr eq_refl)
      as (x & Hx & Hfixe & Habo & Hall); [notin_list|done|].
    exists x. split_and!; [done|done|done|].
    intros k v Hv. destruct (Hall k v Hv) as [Hk Hy]. split; [|done].
    clear -Hk. unfold TABLE_FIELDS. destruct Hk as [->|Hk]; [in_list|].
    apply elem_of_app. right. apply elem_of_app. right.
    apply elem_of_app. by right.
Qed.

End TableMore.

Lemma short_line_fails_table_witness :
  <["DATE_DEBUT" := None]> row_b ∈ [row_a; <["DATE_DEBUT" := None]> row_b]
  /\ _parse_tariff_csv (F := F0) day1
       (Csv [row_a; <["DATE_DEBUT" := None]> row_b]) "6" "base"
     = Raise AttributeError.
Proof.
  assert (<["DATE_DEBUT" := None]> row_b
          ∈ [row_a; <["DATE_DEBUT" := None]> row_b]) as Hin
    by (right; left).
  split; [exact Hin|].
  refine (short_line_fails_table (F := F0) day1 "6" "base" _ _ Hin _).
  left. reflexivity.
Defined.

Lemma row_c_candidate : candidate day1 "6" row_c (mk_date 2024 6 1).
Proof.
  apply candidate_start_spec. reflexivity.
Qed.

Lemma select_row_order_free_witness :
  select_row day1 "6" [row_a; row_c] = select_row day1 "6" [row_c; row_a].
Proof.
  refine (select_row_order_free day1 "6" [row_c; row_a] [row_a; row_c] _ _ _).
  - constructor; [apply row_c_whole|]. constructor; [apply row_a_whole|].
    constructor.
  - apply perm_swap.
  - intros r1 r2 s H1 H2 C1 C2.
    apply elem_of_cons in H1 as [->|H1];
      [|apply list_elem_of_singleton in H1 as ->];
      (apply elem_of_cons in H2 as [->|H2];
       [|apply list_elem_of_singleton in H2 as ->]); try reflexivity.
    + pose proof (candidate_fun _ _ _ _ _ C1 row_c_candidate).
      pose proof (candidate_fun _ _ _ _ _ C2 row_a_candidate). congruence.
    + pose proof (candidate_fun _ _ _ _ _ C1 row_a_candidate).
      pose proof (candidate_fun _ _ _ _ _ C2 row_c_candidate). congruence.
Defined.

Lemma extract_rates_subscription_witness :
  exists fixe,
    parse_price (F := F0) (cell_get row_h "PART_FIXE_TTC" (Some "0"))
    = Return fixe
    /\ (Lit "160.00" = fixe :> sym_float)
    /\ exists rates,
         extract_rates (F := F0) row_h "hphc" = Return rates
         /\ rates !! "hphc_abonnement_ttc"
            = Some (@VFloat F0 (float_div fixe 12)).
Proof.
  assert (exists rates, extract_rates (F := F0) row_h "hphc" = Return rates)
    as (rates & Hrates) by (eexists; reflexivity).
  destruct (extract_rates_subscription (F := F0) row_h "hphc" rates
              (or_intror (or_introl eq_refl)) Hrates)
    as (fixe & Hfixe & _ & Habo & _).
  exists fixe. split; [exact Hfixe|]. split.
  - vm_compute in Hfixe. by injection Hfixe.
  - exists rates. split; [exact Hrates|exact Habo].
Defined.

(** ** More on the cycle *)

Ltac sublist_solve :=
  solve [repeat first [apply sublist_nil | apply sublist_skip
                      | apply sublist_cons]].

Section CycleMore.

Context {F : PyFloat} (K : Const).

(** *** The steps of a cycle *)

Lemma ensure_data_lists (cfg : config) (st : coordinator) :
  requests (ensure_data cfg st) = requests st
  /\ tempo_prices (ensure_data cfg st) = tempo_prices st
  /\ same_memory st (ensure_data cfg st).
Proof. unfold ensure_data. by destruct (data st). Qed.

Lemma refresh_step_raises (cfg : config) (E : env) (st : coordinator)
    (e : exn) :
  (refresh_step K cfg E st).1 = Raise e ->
  e = UpdateFailed
  \/ needs_update K cfg E (the_data st) = Raise e.
Proof.
  unfold refresh_step.
  destruct (needs_update _ _ _ _) as [[|]|e'] eqn:Hn; simpl.
  - destruct (tarif_url K (contract_type cfg)) as [url|]; simpl.
    + destruct (fetch_rates cfg E url) as [rates|e''].
      * by destruct (truthy_rates rates).
      * destruct e''; simpl; intros [= <-]; by left.
    + intros [= <-]. by left.
  - discriminate.
  - intros [= <-]. by right.
Qed.

(** The state at the end of a cycle is the state after the refresh, after
    the Tempo part or after the off-peak part. *)
Lemma cycle_state (cfg : config) (E : env) (st : coordinator) :
  let res := _async_update_data K cfg E st in
  let r := refresh_step K cfg E (ensure_data cfg st) in
  let t := if String.eqb (contract_type cfg) CONTRACT_TYPE_TEMPO
           then tempo_step K E r.2 else (Return tt, r.2) in
  (exists e, res = (Raise e, r.2) /\ r.1 = Raise e)
  \/ (r.1 = Return tt
      /\ ((exists e, res = (Raise e, t.2) /\ t.1 = Raise e)
          \/ (t.1 = Return tt
              /\ ((exists e, res = (Raise e, (offpeak_step K cfg E t.2).2)
                             /\ (offpeak_step K cfg E t.2).1 = Raise e)
                  \/ (res = (Return (the_data (offpeak_step K cfg E t.2).2),
                             (offpeak_step K cfg E t.2).2)
                      /\ (offpeak_step K cfg E t.2).1 = Return tt))))).
Proof.
  cbv zeta. unfold _async_update_data.
  destruct (refresh_step K cfg E (ensure_data cfg st)) as [[[]|e] st1];
    simpl; [|left; by exists e].
  right. split; [done|].
  destruct (if String.eqb (contract_type cfg) CONTRACT_TYPE_TEMPO
            then tempo_step K E st1 else (Return tt, st1))
    as [[[]|e] st2]; simpl; [|left; by exists e].
  right. split; [done|].
  destruct (offpeak_step K cfg E st2) as [[[]|e] st3]; simpl;
    [by right|left; by exists e].
Qed.

(** A cycle that returns returns the snapshot. *)
Lemma cycle_return_data (cfg : config) (E : env) (st : coordinator) :
  returns (_async_update_data K cfg E st).1 = true ->
  (_async_update_data K cfg E st).1
  = Return (the_data (_async_update_data K cfg E st).2).
Proof.
  destruct (cycle_state cfg E st)
    as [(e & Hres & _)|(_ & [(e & Hres & _)|(_ & [(e & Hres & _)|[Hres _]])])];
    rewrite Hres; simpl; by try discriminate.
Qed.

Lemma refresh_step_grows (cfg : config) (E : env) (st : coordinator) :
  let st' := (refresh_step K cfg E st).2 in
  tempo_prices st' = tempo_prices st
  /\ exists l,
       requests st' = (requests st ++ l)%list
       /\ (l = []
           \/ (needs_update K cfg E (the_data st)
               = Return true
               /\ exists url,
                    tarif_url K (contract_type cfg) = Some url /\ l = [url])).
Proof.
  unfold refresh_step.
  destruct (needs_update _ _ _ _) as [[|]|e] eqn:Hn; simpl;
    try (split; [done|]; exists []; rewrite app_nil_r; by auto).
  destruct (tarif_url K (contract_type cfg)) as [url|] eqn:Hu; simpl;
    try (split; [done|]; exists []; rewrite app_nil_r; by auto).
  assert (forall st',
            tempo_prices st' = tempo_prices st ->
            requests st' = (requests st ++ [url])%list ->
            tempo_prices st' = tempo_prices st
            /\ exists l,
                 requests st' = (requests st ++ l)%list
                 /\ (l = []
                     \/ (Return true = Return true
                         /\ exists url0,
                              Some url = Some url0 /\ l = [url0]))) as Hgen.
  { intros st' Hp Hq. split; [done|]. exists [url]. split; [done|].
    right. split; [done|]. by exists url. }
  destruct (fetch_rates cfg E url) as [rates|e].
  - destruct (truthy_rates rates); by apply Hgen.
  - destruct e; by apply Hgen.
Qed.

Lemma tempo_resolve_lists (E : env) (today_date tomorrow : date)
    (ty tt_ tm : tempo_day) (st : coordinator) :
  requests (tempo_resolve K E today_date tomorrow ty tt_ tm st) = requests st
  /\ tempo_prices (tempo_resolve K E today_date tomorrow ty tt_ tm st)
     = tempo_prices st.
Proof.
  unfold tempo_resolve, store_fallback.
  destruct (negb (String.eqb (get_tempo_color_from_code (code_of tm))
                    INDETERMINE)); split; reflexivity.
Qed.

Lemma tempo_step_grows (E : env) (st : coordinator) :
  let st' := (tempo_step K E st).2 in
  exists l1 l2,
    requests st' = (requests st ++ l1)%list
    /\ tempo_prices st' = (tempo_prices st ++ l2)%list
    /\ l1 `sublist_of` map (tempo_url K) (tempo_days E)
    /\ (List.length l2 <= List.length l1)%nat
    /\ Forall (fun p => record_ok p = true) l2.
Proof.
  unfold tempo_step, tempo_days.
  destruct (date_sub_day _) as [y|];
    [|exists [], []; rewrite !app_nil_r; by split_and!].
  destruct (date_add_day _) as [t|];
    [|exists [], []; rewrite !app_nil_r; by split_and!].
  destruct (tempo_body_resolves K E y (dt_date (now_tempo E)) t st)
    as (ty & tt_ & tm & st1 & st2 & st3 & H1 & H2 & H3 & _ & ->).
  pose proof (get_tempo_day_grows K E (now_cache_yesterday E) y st) as G1.
  pose proof (get_tempo_day_grows K E (now_cache_today E)
                (dt_date (now_tempo E)) st1) as G2.
  pose proof (get_tempo_day_grows K E (now_cache_tomorrow E) t st2) as G3.
  rewrite H1 in G1. rewrite H2 in G2. rewrite H3 in G3. simpl in G1, G2, G3.
  destruct G1 as (a1 & b1 & Ra1 & Pb1 & Ca1 & La1 & Fb1).
  destruct G2 as (a2 & b2 & Ra2 & Pb2 & Ca2 & La2 & Fb2).
  destruct G3 as (a3 & b3 & Ra3 & Pb3 & Ca3 & La3 & Fb3).
  exists (a1 ++ a2 ++ a3)%list, (b1 ++ b2 ++ b3)%list. cbn [snd].
  destruct (tempo_resolve_lists E (dt_date (now_tempo E)) t ty tt_ tm st3)
    as [-> ->].
  split_and!.
  - by rewrite Ra3, Ra2, Ra1, <- !app_assoc.
  - by rewrite Pb3, Pb2, Pb1, <- !app_assoc.
  - destruct Ca1 as [-> | ->], Ca2 as [-> | ->], Ca3 as [-> | ->]; simpl;
      sublist_solve.
  - rewrite !List.length_app. lia.
  - by rewrite !Forall_app.
Qed.

(** *** What a cycle asks and caches *)

(** X18: the requests of a cycle.  A cycle asks for the tariff table at most
    once, and only when a refresh is due, at the URL of the contract type;
    after that it asks the colour API only for a tempo contract, at most
    once each for the day before, the day and the day after, in that
    order, and nothing else.  The colour cache only grows, by at most one
    record for each request of a colour; no record leaves it. *)
Theorem cycle_requests (cfg : config) (E : env) (st : coordinator) :
  let res := _async_update_data K cfg E st in
  exists l1 l2 l3,
    requests res.2 = (requests st ++ l1 ++ l2)%list
    /\ tempo_prices res.2 = (tempo_prices st ++ l3)%list
    /\ (l1 = []
        \/ (refresh_due K cfg E st
            /\ exists url,
                 tarif_url K (contract_type cfg) = Some url /\ l1 = [url]))
    /\ l2 `sublist_of` map (tempo_url K) (tempo_days E)
    /\ (contract_type cfg <> CONTRACT_TYPE_TEMPO -> l2 = [])
    /\ (List.length l3 <= List.length l2)%nat.
Proof.
  intros res.
  destruct (ensure_data_lists cfg st) as (Hq0 & Hp0 & _).
  destruct (refresh_step_grows cfg E (ensure_data cfg st))
    as (Hp1 & l1 & Hq1 & Hl1).
  rewrite Hq0 in Hq1. rewrite Hp0 in Hp1.
  assert (exists l2 l3,
            let t := if String.eqb (contract_type cfg) CONTRACT_TYPE_TEMPO
                     then tempo_step K E
                            (refresh_step K cfg E (ensure_data cfg st)).2
                     else (Return tt,
                           (refresh_step K cfg E (ensure_data cfg st)).2) in
            requests t.2 = (requests st ++ l1 ++ l2)%list
            /\ tempo_prices t.2 = (tempo_prices st ++ l3)%list
            /\ l2 `sublist_of` map (tempo_url K) (tempo_days E)
            /\ (contract_type cfg <> CONTRACT_TYPE_TEMPO -> l2 = [])
            /\ (List.length l3 <= List.length l2)%nat)
    as (l2 & l3 & Ht).
  { destruct (String.eqb_spec (contract_type cfg) CONTRACT_TYPE_TEMPO)
      as [Htype|Htype].
    - destruct (tempo_step_grows E
                  (refresh_step K cfg E (ensure_data cfg st)).2)
        as (l2 & l3 & Hq2 & Hp2 & Hs & Hlen & _).
      exists l2, l3. simpl. rewrite Hq2, Hp2, Hq1, Hp1, <- app_assoc.
      by split_and!.
    - exists [], []. simpl. rewrite Hq1, Hp1, !app_nil_r.
      split_and!; try done. apply sublist_nil_l. }
  cbv zeta in Ht. destruct Ht as (Hq2 & Hp2 & Hs & Hn & Hlen).
  destruct (offpeak_step_frame K cfg E
              (if String.eqb (contract_type cfg) CONTRACT_TYPE_TEMPO
               then tempo_step K E
                      (refresh_step K cfg E (ensure_data cfg st)).2
               else (Return tt,
                     (refresh_step K cfg E (ensure_data cfg st)).2)).2)
    as (_ & Hp3 & Hq3 & _).
  destruct (cycle_state cfg E st)
    as [(e & Hres & _)|(_ & [(e & Hres & _)|(_ & [(e & Hres & _)|[Hres _]])])];
    fold res in Hres; rewrite Hres; simpl.
  - exists l1, [], []. rewrite !app_nil_r.
    split_and!; [done|done|done|apply sublist_nil_l|done|done].
  - exists l1, l2, l3. by split_and!.
  - exists l1, l2, l3. rewrite Hq3, Hp3. by split_and!.
  - exists l1, l2, l3. rewrite Hq3, Hp3. by split_and!.
Qed.

(** *** What a cycle raises *)

Lemma stamp_ok_ext (d d' : gmap string value) :
  d' !! "last_refresh_at" = d !! "last_refresh_at" ->
  stamp_ok d' = stamp_ok d.
Proof. intros H. unfold stamp_ok, dget. by rewrite H. Qed.

Lemma stamp_ok_ensure_data (cfg : config) (st : coordinator) :
  stamp_ok (the_data st) = true ->
  stamp_ok (the_data (ensure_data cfg st)) = true.
Proof. unfold ensure_data. by destruct (data st). Qed.

Lemma stamp_ok_cycle (cfg : config) (E : env) (st : coordinator) :
  stamp_ok (the_data st) = true ->
  stamp_ok (the_data (_async_update_data K cfg E st).2) = true.
Proof.
  intros Hst. apply (stamp_ok_ensure_data cfg) in Hst.
  rewrite (stamp_ok_ext
             (the_data (refresh_step K cfg E (ensure_data cfg st)).2)).
  - destruct (refresh_step_data K cfg E (ensure_data cfg st))
      as (_ & [Hd|(url & rows & r & rates & _ & _ & _ & _ & Hd)]);
      rewrite Hd; [done|].
    unfold stamp_ok, dget. by rewrite lookup_insert_eq.
  - apply cycle_frame; apply (table_field_not_written "last_refresh_at");
      by left.
Qed.

Lemma reachable_stamp (st : coordinator) :
  reachable K st -> stamp_ok (the_data st) = true.
Proof.
  induction 1 as [|cfg E st _ IH]; [done|]. by apply stamp_ok_cycle.
Qed.

Lemma stamp_ok_needs_update (d : gmap string value) (limit : Z) :
  stamp_ok d = true -> exists b, tarif_needs_update d limit = Return b.
Proof.
  unfold stamp_ok, tarif_needs_update.
  destruct (dget d "last_refresh_at"); try discriminate; by eexists.
Qed.

(** On a snapshot whose [last_refresh_at] is [None] or a time, the limit
    and the test against it raise nothing but the [OverflowError] of the
    limit. *)
Lemma needs_update_cases (cfg : config) (E : env) (d : gmap string value) :
  stamp_ok d = true ->
  (exists b, needs_update K cfg E d = Return b)
  \/ (fresh_data_limit K cfg E = Raise OverflowError
      /\ needs_update K cfg E d = Raise OverflowError).
Proof.
  intros Hst. unfold needs_update.
  destruct (fresh_data_limit K cfg E) as [limit|e] eqn:Hl.
  - left. by apply stamp_ok_needs_update.
  - right. by rewrite (fresh_data_limit_raises K cfg E e Hl).
Qed.

Lemma tempo_step_raise_days (E : env) (st : coordinator) (e : exn) :
  (tempo_step K E st).1 = Raise e -> tempo_days E = [].
Proof.
  unfold tempo_step, tempo_days.
  destruct (date_sub_day _) as [y|]; [|done].
  destruct (date_add_day _) as [t|]; [|done].
  destruct (tempo_body_resolves K E y (dt_date (now_tempo E)) t st)
    as (ty & tt_ & tm & st1 & st2 & st3 & _ & _ & _ & _ & ->).
  discriminate.
Qed.

Lemma offpeak_step_raise_scan (cfg : config) (E : env) (st : coordinator)
    (e : exn) :
  (offpeak_step K cfg E st).1 = Raise e ->
  (contract_type cfg = CONTRACT_TYPE_HPHC
   \/ contract_type cfg = CONTRACT_TYPE_TEMPO)
  /\ exists s,
       schedule_of K cfg = Some s
       /\ scan_ranges (dt_time (now_off_peak E)) (split "," s) = Raise e.
Proof.
  unfold offpeak_step, schedule_of.
  destruct (String.eqb (contract_type cfg) CONTRACT_TYPE_BASE); [discriminate|].
  destruct (String.eqb_spec (contract_type cfg) CONTRACT_TYPE_HPHC) as [Hh|Hh];
    destruct (String.eqb_spec (contract_type cfg) CONTRACT_TYPE_TEMPO)
      as [Ht|Ht]; simpl; try discriminate;
    destruct (off_peak_hours_ranges cfg) as [s|]; try discriminate;
    try (destruct (nonempty s); [|discriminate]);
    try (destruct (nonempty (TEMPO_OFFPEAK_HOURS K)); [|discriminate]);
    (destruct (scan_ranges _ _) as [b|e'] eqn:Hscan; [discriminate|]);
    simpl; intros [= <-]; (split; [by auto|]); by eexists.
Qed.

(** X19: what a cycle raises, from a state that cycles have reached.  It
    raises the [OverflowError] of the limit of fresh data, for whatever
    contract, when the refresh interval is more days than a [timedelta]
    holds or leads out of the calendar; or [UpdateFailed], and then a
    refresh of the table was due; or the [OverflowError] of the day before
    or after today, for a tempo contract on the first or the last day of
    the calendar; or the [ValueError] that the loop over the off-peak
    schedule raises, for an hphc or tempo contract.  It raises nothing
    else: the comparison of [last_refresh_at] raises no [TypeError],
    [hours[1]] raises no [IndexError], and what the fetch and the
    resolution of the table raise comes out as [UpdateFailed]. *)
Theorem cycle_raises (cfg : config) (E : env) (st : coordinator) (e : exn) :
  reachable K st ->
  (_async_update_data K cfg E st).1 = Raise e ->
  (e = OverflowError /\ fresh_data_limit K cfg E = Raise OverflowError)
  \/ (e = UpdateFailed /\ refresh_due K cfg E st)
  \/ (e = OverflowError
      /\ contract_type cfg = CONTRACT_TYPE_TEMPO /\ tempo_days E = [])
  \/ (e = ValueError
      /\ (contract_type cfg = CONTRACT_TYPE_HPHC
          \/ contract_type cfg = CONTRACT_TYPE_TEMPO)
      /\ exists s,
           schedule_of K cfg = Some s
           /\ scan_ranges (dt_time (now_off_peak E)) (split "," s)
              = Raise ValueError).
Proof.
  intros Hreach Hraise.
  pose proof (stamp_ok_ensure_data cfg st (reachable_stamp st Hreach)) as Hst.
  destruct (cycle_state cfg E st)
    as [(e1 & Hres & Hr)
       |(_ & [(e1 & Hres & Ht)|(_ & [(e1 & Hres & Ho)|[Hres _]])])];
    try (rewrite Hres in Hraise; simpl in Hraise; injection Hraise as <-).
  - destruct (needs_update_cases cfg E _ Hst) as [(b & Hb)|[Hl Hn]].
    + right. left.
      destruct (refresh_step_raises _ _ _ _ Hr) as [->|Hn]; [|congruence].
      split; [done|]. unfold refresh_due. rewrite Hb. f_equal.
      destruct b; [done|].
      by rewrite (refresh_step_not_due K cfg E _ Hb) in Hr.
    + left. rewrite (refresh_step_limit_raises K cfg E _ _ Hl) in Hr.
      simpl in Hr. by injection Hr as <-.
  - right. right. left.
    destruct (String.eqb_spec (contract_type cfg) CONTRACT_TYPE_TEMPO)
      as [Htype|Htype]; [|discriminate].
    rewrite (tempo_step_raises K E _ _ Ht).
    split_and!; [done|done|by eapply tempo_step_raise_days].
  - right. right. right.
    destruct (offpeak_step_raise_scan _ _ _ _ Ho) as (Htype & s & Hs & Hscan).
    pose proof (scan_ranges_value_error _ _ _ Hscan) as ->.
    split_and!; [done|done|by exists s].
  - rewrite Hres in Hraise. discriminate.
Qed.

(** X2, on claim C9: with a contract type that is none of base, hphc and
    tempo, a cycle in which the limit of fresh data cannot be computed
    fails with the [OverflowError] of that statement; a cycle in which a
    refresh is due fails with [UpdateFailed]; both leave the snapshot as it
    was; a cycle in which the table is fresh does not fail and returns the
    snapshot as it was.  From a state that cycles have reached, a cycle is
    in one of the three cases. *)
Theorem unknown_contract_type (cfg : config) (E : env) (st : coordinator) :
  ~ known_contract_type (contract_type cfg) ->
  (fresh_data_limit K cfg E = Raise OverflowError ->
   _async_update_data K cfg E st = (Raise OverflowError, ensure_data cfg st))
  /\ (refresh_due K cfg E st ->
      _async_update_data K cfg E st = (Raise UpdateFailed, ensure_data cfg st))
  /\ (refresh_not_due K cfg E st ->
      _async_update_data K cfg E st
      = (Return (the_data (ensure_data cfg st)), ensure_data cfg st))
  /\ (reachable K st ->
      fresh_data_limit K cfg E = Raise OverflowError
      \/ refresh_due K cfg E st
      \/ refresh_not_due K cfg E st).
Proof.
  intros Hunknown.
  assert (String.eqb (contract_type cfg) CONTRACT_TYPE_BASE = false
          /\ String.eqb (contract_type cfg) CONTRACT_TYPE_HPHC = false
          /\ String.eqb (contract_type cfg) CONTRACT_TYPE_TEMPO = false)
    as (Hb & Hh & Ht).
  { unfold known_contract_type in Hunknown.
    split_and!; apply String.eqb_neq; intros H; apply Hunknown; auto. }
  split_and!.
  - intros Hl. unfold _async_update_data.
    by rewrite (refresh_step_limit_raises K cfg E _ _ Hl).
  - intros Hdue. unfold _async_update_data.
    rewrite (refresh_step_unknown_type K cfg E _ Hdue); [done|].
    unfold tarif_url. by rewrite Hb, Hh, Ht.
  - intros Hfresh. unfold _async_update_data.
    rewrite (refresh_step_not_due K cfg E _ Hfresh). rewrite Ht.
    unfold offpeak_step. by rewrite Hb, Hh, Ht.
  - intros Hreach.
    pose proof (stamp_ok_ensure_data cfg st (reachable_stamp st Hreach))
      as Hst.
    destruct (needs_update_cases cfg E _ Hst) as [([|] & Hb')|[Hl _]].
    + right. by left.
    + right. by right.
    + by left.
Qed.

(** *** The fields that a cycle writes *)

Lemma refresh_step_frame (cfg : config) (E : env) (st : coordinator)
    (k : string) :
  k ∉ TABLE_FIELDS ->
  the_data (refresh_step K cfg E st).2 !! k = the_data st !! k.
Proof.
  intros Hk.
  destruct (refresh_step_data K cfg E st)
    as (_ & [Hd|(url & rows & r & rates & _ & _ & _ & Hrates & Hd)]);
    rewrite Hd; [done|].
  rewrite lookup_insert_ne.
  - apply lookup_union_r.
    destruct (rates !! k) as [v|] eqn:Hv; [|done].
    by destruct (extract_rates_dom _ _ _ _ _ Hrates Hv).
  - intros <-. apply Hk. by left.
Qed.

(** X20: a cycle writes the fields of the tariff table, the Tempo fields and
    the two fields of the current rate, and no other field of the
    snapshot: what else it holds, such as [contract_type] and
    [contract_power], stays as the first cycle set it, whatever the
    configuration says later. *)
Theorem cycle_writes_only (cfg : config) (E : env) (st : coordinator)
    (k : string) :
  k ∉ TABLE_FIELDS -> k ∉ TEMPO_WRITTEN -> k ∉ OFFPEAK_WRITTEN ->
  the_data (_async_update_data K cfg E st).2 !! k
  = the_data (ensure_data cfg st) !! k.
Proof.
  intros Hk1 Hk2 Hk3. rewrite cycle_frame by done.
  by apply refresh_step_frame.
Qed.

(** *** A cycle on a fresh table *)

(** X21: the table is refreshed once in an interval.  When the snapshot has
    the time of a refresh and that time is not before the limit, which is
    the clock less the refresh interval, the cycle asks for no table and
    leaves the fields of the table as they are; it does not raise
    [UpdateFailed], not even for an unknown contract type.  That holds
    also of a cycle in which the limit cannot be computed; in the others
    the refresh comes to its end at once. *)
Theorem fresh_table_cycle (cfg : config) (E : env) (st : coordinator)
    (t : datetime) :
  dget (the_data st) "last_refresh_at" = VDatetime t ->
  (forall limit, fresh_data_limit K cfg E = Return limit ->
                 limit <= instant t) ->
  let res := _async_update_data K cfg E st in
  (forall limit, fresh_data_limit K cfg E = Return limit ->
                 refresh_step K cfg E (ensure_data cfg st) = (Return tt, st))
  /\ (refresh_step K cfg E (ensure_data cfg st)).2 = st
  /\ res.1 <> Raise UpdateFailed
  /\ forall k, k ∈ TABLE_FIELDS -> the_data res.2 !! k = the_data st !! k.
Proof.
  intros Hstamp Hlimit res.
  assert (ensure_data cfg st = st) as Hens.
  { unfold ensure_data. destruct (data st) as [d|] eqn:Hd; [done|].
    unfold the_data in Hstamp. rewrite Hd in Hstamp. discriminate. }
  assert (forall k, k ∈ TABLE_FIELDS ->
            (refresh_step K cfg E (ensure_data cfg st)).2 = st ->
            the_data res.2 !! k = the_data st !! k) as Hframe.
  { intros k Hk Hr. destruct (table_field_not_written k Hk) as [H1 H2].
    unfold res. rewrite cycle_frame by done. by rewrite Hr. }
  destruct (fresh_data_limit K cfg E) as [limit|e] eqn:Hl.
  - assert (refresh_step K cfg E (ensure_data cfg st) = (Return tt, st))
      as Hr.
    { rewrite Hens. apply refresh_step_not_due.
      unfold needs_update, tarif_needs_update. rewrite Hl, Hstamp. f_equal.
      apply Z.ltb_ge. specialize (Hlimit limit eq_refl). lia. }
    split_and!; [done|by rewrite Hr| |].
    + by apply (cycle_after_refresh K cfg E st st).
    + intros k Hk. apply Hframe; [done|by rewrite Hr].
  - pose proof (refresh_step_limit_raises K cfg E (ensure_data cfg st) e Hl)
      as Hr.
    pose proof (fresh_data_limit_raises K cfg E e Hl) as ->.
    split_and!; [done|by rewrite Hr, Hens| |].
    + unfold res, _async_update_data. by rewrite Hr.
    + intros k Hk. apply Hframe; [done|by rewrite Hr, Hens].
Qed.

(** *** A base contract *)

(** X22: a cycle of a base contract that returns has marked the time as not
    off-peak and has set the current rate to the base rate of the snapshot,
    [None] when it has no base rate.  It leaves the colour cache and the
    in-memory fallback alone, and asks for nothing but the base table. *)
Theorem base_cycle (cfg : config) (E : env) (st : coordinator)
    (d : gmap string value) :
  contract_type cfg = CONTRACT_TYPE_BASE ->
  (_async_update_data K cfg E st).1 = Return d ->
  let st' := (_async_update_data K cfg E st).2 in
  d = the_data st'
  /\ d !! "is_off_peak" = Some (VBool false)
  /\ d !! "tarif_actuel_ttc" = Some (dget d "base_variable_ttc")
  /\ tempo_prices st' = tempo_prices st
  /\ same_memory st st'
  /\ (requests st' = requests st
      \/ requests st' = (requests st ++ [TARIF_BASE_URL K])%list).
Proof.
  intros Htype Hret st'.
  assert (String.eqb (contract_type cfg) CONTRACT_TYPE_TEMPO = false) as Hnt
    by by rewrite Htype.
  assert (String.eqb (contract_type cfg) CONTRACT_TYPE_BASE = true) as Hb
    by by rewrite Htype.
  destruct (ensure_data_lists cfg st) as (Hq0 & Hp0 & Hm0).
  destruct (refresh_step_grows cfg E (ensure_data cfg st))
    as (Hp1 & l1 & Hq1 & Hl1).
  destruct (refresh_step_data K cfg E (ensure_data cfg st)) as (Hm1 & _).
  unfold st' in *. clear st'. revert Hret.
  unfold _async_update_data.
  destruct (refresh_step K cfg E (ensure_data cfg st)) as [[[]|e] st1];
    [|discriminate].
  rewrite Hnt. unfold offpeak_step. rewrite Hb. simpl in *.
  intros [= <-]. split_and!.
  - done.
  - rewrite the_data_set_data. apply lookup_insert_eq.
  - rewrite !the_data_set_data.
    rewrite lookup_insert_ne by done. rewrite lookup_insert_eq.
    unfold dget. by rewrite !lookup_insert_ne.
  - congruence.
  - destruct Hm0 as [? ?], Hm1 as [? ?]. split; simpl; congruence.
  - rewrite Hq1, Hq0.
    destruct Hl1 as [->|(_ & url & Hurl & ->)]; [left; apply app_nil_r|].
    right. unfold tarif_url in Hurl. rewrite Hb in Hurl. by injection Hurl as <-.
Qed.

(** *** The states that cycles reach *)

Lemma records_ok_cycle (cfg : config) (E : env) (st : coordinator) :
  Forall (fun p => record_ok p = true) (tempo_prices st) ->
  Forall (fun p => record_ok p = true)
    (tempo_prices (_async_update_data K cfg E st).2).
Proof.
  intros Hst.
  destruct (ensure_data_lists cfg st) as (_ & Hp0 & _).
  destruct (refresh_step_grows cfg E (ensure_data cfg st)) as (Hp1 & _).
  rewrite Hp0 in Hp1.
  assert (Forall (fun p => record_ok p = true)
            (tempo_prices
               (if String.eqb (contract_type cfg) CONTRACT_TYPE_TEMPO
                then tempo_step K E
                       (refresh_step K cfg E (ensure_data cfg st)).2
                else (Return tt,
                      (refresh_step K cfg E (ensure_data cfg st)).2)).2))
    as Ht.
  { destruct (String.eqb (contract_type cfg) CONTRACT_TYPE_TEMPO).
    - destruct (tempo_step_grows E
                  (refresh_step K cfg E (ensure_data cfg st)).2)
        as (l2 & l3 & _ & Hp2 & _ & _ & Hok).
      rewrite Hp2, Hp1. by apply Forall_app.
    - simpl. by rewrite Hp1. }
  destruct (offpeak_step_frame K cfg E
              (if String.eqb (contract_type cfg) CONTRACT_TYPE_TEMPO
               then tempo_step K E
                      (refresh_step K cfg E (ensure_data cfg st)).2
               else (Return tt,
                     (refresh_step K cfg E (ensure_data cfg st)).2)).2)
    as (_ & Hp3 & _ & _).
  destruct (cycle_state cfg E st)
    as [(e & Hres & _)|(_ & [(e & Hres & _)|(_ & [(e & Hres & _)|[Hres _]])])];
    rewrite Hres; simpl; rewrite ?Hp3, ?Hp1; done.
Qed.

(** X23: what holds of every state that cycles reach, under whatever
    configurations, clocks and answers of the network.  [last_refresh_at]
    is [None] or a time, so that its comparison raises nothing; every
    record of the colour cache has a date and a code; the in-memory
    fallback has a date only with a colour that is not ["indéterminé"]; the
    snapshot has a fallback date only with a fallback colour; and the
    snapshot has the rates of all three colours or of none, and in that
    case no current Tempo rate. *)
Theorem reachable_state (st : coordinator) :
  reachable K st ->
  stamp_ok (the_data st) = true
  /\ Forall (fun p => record_ok p = true) (tempo_prices st)
  /\ memory_ok st = true
  /\ snapshot_ok (the_data st) = true
  /\ rates_ok (the_data st) = true.
Proof.
  intros Hreach. split; [by apply reachable_stamp|].
  pose proof (reachable_inv K st Hreach) as Hinv. apply inv_split in Hinv.
  split; [|done]. clear Hinv.
  induction Hreach as [|cfg E st _ IH]; [done|]. by apply records_ok_cycle.
Qed.

End CycleMore.

Lemma cycle_raises_witness :
  (* an off-peak schedule that the pattern does not match to its end *)
  (reachable (F := F0) K0 init_coordinator
   /\ (_async_update_data (F := F0) K0 cfg_hphc_trailing
         (env_at (at_time day1 23 0) hphc_csv no_api) init_coordinator).1
      = Raise ValueError
   /\ ((ValueError = OverflowError
        /\ fresh_data_limit K0 cfg_hphc_trailing
             (env_at (at_time day1 23 0) hphc_csv no_api)
           = Raise OverflowError)
       \/ (ValueError = UpdateFailed
           /\ refresh_due (F := F0) K0 cfg_hphc_trailing
                (env_at (at_time day1 23 0) hphc_csv no_api)
                init_coordinator)
       \/ (ValueError = OverflowError
           /\ contract_type cfg_hphc_trailing = CONTRACT_TYPE_TEMPO
           /\ tempo_days (env_at (at_time day1 23 0) hphc_csv no_api) = [])
       \/ (ValueError = ValueError
           /\ (contract_type cfg_hphc_trailing = CONTRACT_TYPE_HPHC
               \/ contract_type cfg_hphc_trailing = CONTRACT_TYPE_TEMPO)
           /\ exists s,
                schedule_of K0 cfg_hphc_trailing = Some s
                /\ scan_ranges
                     (dt_time
                        (now_off_peak
                           (env_at (at_time day1 23 0) hphc_csv no_api)))
                     (split "," s)
                   = Raise ValueError)))
  (* a refresh interval of more days than a timedelta holds *)
  /\ (reachable (F := F0) K0 after_base_cycle
      /\ (_async_update_data (F := F0) K0 cfg_base_far
            (env_at (at_time day1 12 1) base_csv no_api) after_base_cycle).1
         = Raise OverflowError
      /\ ((OverflowError = OverflowError
           /\ fresh_data_limit K0 cfg_base_far
                (env_at (at_time day1 12 1) base_csv no_api)
              = Raise OverflowError)
          \/ (OverflowError = UpdateFailed
              /\ refresh_due (F := F0) K0 cfg_base_far
                   (env_at (at_time day1 12 1) base_csv no_api)
                   after_base_cycle)
          \/ (OverflowError = OverflowError
              /\ contract_type cfg_base_far = CONTRACT_TYPE_TEMPO
              /\ tempo_days (env_at (at_time day1 12 1) base_csv no_api)
                 = [])
          \/ (OverflowError = ValueError
              /\ (contract_type cfg_base_far = CONTRACT_TYPE_HPHC
                  \/ contract_type cfg_base_far = CONTRACT_TYPE_TEMPO)
              /\ exists s,
                   schedule_of K0 cfg_base_far = Some s
                   /\ scan_ranges
                        (dt_time
                           (now_off_peak
                              (env_at (at_time day1 12 1) base_csv no_api)))
                        (split "," s)
                      = Raise ValueError))).
Proof.
  assert (reachable (F := F0) K0 init_coordinator) as Hreach
    by apply reachable_init.
  assert ((_async_update_data (F := F0) K0 cfg_hphc_trailing
             (env_at (at_time day1 23 0) hphc_csv no_api) init_coordinator).1
          = Raise ValueError) as Hraise by vm_refl.
  assert (reachable (F := F0) K0 after_base_cycle) as Hreach'
    by apply reachable_cycle, reachable_init.
  assert ((_async_update_data (F := F0) K0 cfg_base_far
             (env_at (at_time day1 12 1) base_csv no_api) after_base_cycle).1
          = Raise OverflowError) as Hraise' by vm_refl.
  split.
  - split; [exact Hreach|]. split; [exact Hraise|].
    exact (cycle_raises K0 _ _ _ _ Hreach Hraise).
  - split; [exact Hreach'|]. split; [exact Hraise'|].
    exact (cycle_raises K0 _ _ _ _ Hreach' Hraise').
Defined.

(** The cycle of a base contract whose table is fresh raises the
    [OverflowError] of the limit when the refresh interval is a day more
    than the days from the first day of the calendar to today, and returns
    with a day less. *)
Example refresh_interval_out_of_range :
  toordinal day1 = 739068
  /\ fresh_data_limit K0 cfg_base_early
       (env_at (at_time day1 12 1) base_csv no_api)
     = Raise OverflowError
  /\ (_async_update_data (F := F0) K0 cfg_base_early
        (env_at (at_time day1 12 1) base_csv no_api) after_base_cycle).1
     = Raise OverflowError
  /\ returns (fresh_data_limit K0 cfg_base_first
                (env_at (at_time day1 12 1) base_csv no_api)) = true
  /\ returns (_async_update_data (F := F0) K0 cfg_base_first
                (env_at (at_time day1 12 1) base_csv no_api)
                after_base_cycle).1 = true.
Proof. split_and!; vm_refl. Qed.

Lemma unknown_contract_type_witness :
  ~ known_contract_type (contract_type cfg_other)
  (* the limit cannot be computed *)
  /\ (fresh_data_limit K0 cfg_other_far
        (env_at (at_time day1 12 0) no_csv no_api)
      = Raise OverflowError
      /\ _async_update_data (F := F0) K0 cfg_other_far
           (env_at (at_time day1 12 0) no_csv no_api) init_coordinator
         = (Raise OverflowError, ensure_data cfg_other_far init_coordinator))
  (* a refresh is due *)
  /\ (refresh_due (F := F0) K0 cfg_other
        (env_at (at_time day1 12 0) no_csv no_api) init_coordinator
      /\ _async_update_data (F := F0) K0 cfg_other
           (env_at (at_time day1 12 0) no_csv no_api) init_coordinator
         = (Raise UpdateFailed, ensure_data cfg_other init_coordinator))
  (* the table is fresh *)
  /\ (refresh_not_due (F := F0) K0 cfg_other
        (env_at (at_time day1 12 1) no_csv no_api) after_base_cycle
      /\ _async_update_data (F := F0) K0 cfg_other
           (env_at (at_time day1 12 1) no_csv no_api) after_base_cycle
         = (Return (the_data (ensure_data cfg_other after_base_cycle)),
            ensure_data cfg_other after_base_cycle)).
Proof.
  assert (~ known_contract_type (contract_type cfg_other)) as Hn.
  { unfold known_contract_type. by intros [H|[H|H]]. }
  assert (~ known_contract_type (contract_type cfg_other_far)) as Hn'.
  { unfold known_contract_type. by intros [H|[H|H]]. }
  assert (fresh_data_limit K0 cfg_other_far
            (env_at (at_time day1 12 0) no_csv no_api)
          = Raise OverflowError) as Hover by vm_refl.
  assert (refresh_due (F := F0) K0 cfg_other
            (env_at (at_time day1 12 0) no_csv no_api) init_coordinator)
    as Hdue by vm_refl.
  assert (refresh_not_due (F := F0) K0 cfg_other
            (env_at (at_time day1 12 1) no_csv no_api) after_base_cycle)
    as Hfresh by vm_refl.
  split_and!; [exact Hn|exact Hover| |exact Hdue| |exact Hfresh|].
  - exact (proj1 (unknown_contract_type K0 cfg_other_far
                    (env_at (at_time day1 12 0) no_csv no_api)
                    init_coordinator Hn') Hover).
  - exact (proj1 (proj2 (unknown_contract_type K0 cfg_other
                           (env_at (at_time day1 12 0) no_csv no_api)
                           init_coordinator Hn)) Hdue).
  - exact (proj1 (proj2 (proj2 (unknown_contract_type K0 cfg_other
                                  (env_at (at_time day1 12 1) no_csv no_api)
                                  after_base_cycle Hn))) Hfresh).
Defined.

Lemma cycle_writes_only_witness :
  the_data
    (_async_update_data (F := F0) K0 cfg_base_9
       (env_at (at_time day2 12 0) base_csv no_api) after_base_cycle).2
    !! "contract_power"
  = Some (VStr "6").
Proof.
  refine (eq_trans
            (cycle_writes_only (F := F0) K0 cfg_base_9
               (env_at (at_time day2 12 0) base_csv no_api) after_base_cycle
               "contract_power" _ _ _) _).
  - cbv [TABLE_FIELDS BASE_FIELDS HPHC_FIELDS TEMPO_FIELDS map fst app].
    notin_list.
  - unfold TEMPO_WRITTEN. notin_list.
  - unfold OFFPEAK_WRITTEN. notin_list.
  - vm_refl.
Defined.

Lemma fresh_table_cycle_witness :
  dget (the_data after_base_cycle) "last_refresh_at"
  = VDatetime (at_time day1 12 0)
  /\ fresh_data_limit K0 cfg_base (env_at (at_time day1 12 1) no_csv no_api)
     = Return (instant (at_time day0 12 1))
  /\ instant (at_time day0 12 1) <= instant (at_time day1 12 0)
  /\ refresh_step (F := F0) K0 cfg_base
       (env_at (at_time day1 12 1) no_csv no_api)
       (ensure_data cfg_base after_base_cycle)
     = (Return tt, after_base_cycle).
Proof.
  assert (dget (the_data after_base_cycle) "last_refresh_at"
          = VDatetime (at_time day1 12 0)) as Hstamp by vm_refl.
  assert (fresh_data_limit K0 cfg_base
            (env_at (at_time day1 12 1) no_csv no_api)
          = Return (instant (at_time day0 12 1))) as Hl by vm_refl.
  assert (instant (at_time day0 12 1) <= instant (at_time day1 12 0))
    as Hlimit by (vm_compute; discriminate).
  split; [exact Hstamp|]. split; [exact Hl|]. split; [exact Hlimit|].
  refine (proj1 (fresh_table_cycle (F := F0) K0 cfg_base
                   (env_at (at_time day1 12 1) no_csv no_api)
                   after_base_cycle (at_time day1 12 0) Hstamp _) _ Hl).
  intros limit H. rewrite Hl in H. injection H as <-. exact Hlimit.
Defined.

Lemma base_cycle_witness :
  contract_type cfg_base = CONTRACT_TYPE_BASE
  /\ (_async_update_data (F := F0) K0 cfg_base
        (env_at (at_time day1 12 0) base_csv no_api) init_coordinator).1
     = Return (the_data after_base_cycle)
  /\ the_data after_base_cycle !! "is_off_peak" = Some (VBool false)
  /\ the_data after_base_cycle !! "tarif_actuel_ttc"
     = Some (dget (the_data after_base_cycle) "base_variable_ttc").
Proof.
  assert (contract_type cfg_base = CONTRACT_TYPE_BASE) as Htype
    by reflexivity.
  assert ((_async_update_data (F := F0) K0 cfg_base
             (env_at (at_time day1 12 0) base_csv no_api) init_coordinator).1
          = Return (the_data after_base_cycle)) as Hret.
  { apply (cycle_return_data (F := F0) K0). vm_refl. }
  split; [exact Htype|]. split; [exact Hret|].
  pose proof (base_cycle (F := F0) K0 cfg_base
                (env_at (at_time day1 12 0) base_csv no_api) init_coordinator
                (the_data after_base_cycle) Htype Hret) as H.
  cbv zeta in H. exact (conj (proj1 (proj2 H)) (proj1 (proj2 (proj2 H)))).
Defined.

Lemma reachable_state_witness :
  reachable (F := F0) K0 after_noon
  /\ stamp_ok (the_data after_noon) = true
  /\ Forall (fun p => record_ok p = true) (tempo_prices after_noon)
  /\ memory_ok after_noon = true
  /\ snapshot_ok (the_data after_noon) = true
  /\ rates_ok (the_data after_noon) = true.
Proof.
  assert (reachable (F := F0) K0 after_noon) as Hreach.
  { exact (reachable_cycle K0 cfg_tempo _ after_morning
             (reachable_cycle K0 cfg_tempo _ init_coordinator
                (reachable_init K0))). }
  split; [exact Hreach|]. exact (reachable_state K0 after_noon Hreach).
Defined.

(** ** The entities and the snapshot *)

Section Entities.

Context {F : PyFloat} (K : Const).

(** *** The names of the colours *)

Lemma is_color_spec (v : value) :
  is_color v = true <-> exists c, c ∈ COLORS /\ v = VStr c.
Proof.
  unfold is_color. rewrite existsb_exists. split.
  - intros (c & Hin & Hc). exists c.
    split; [by apply list_elem_of_In|by apply is_str_eq].
  - intros (c & Hin & ->). exists c.
    split; [by apply list_elem_of_In|by apply is_str_eq].
Qed.

Lemma color_name_code (code : Z) :
  color_name (VStr (get_tempo_color_from_code code)) = true.
Proof.
  unfold color_name. apply orb_true_iff.
  destruct (String.eqb_spec (get_tempo_color_from_code code) INDETERMINE)
    as [Heq|Hne].
  - left. by apply is_str_eq, f_equal.
  - right. apply is_color_spec. eexists. split; [|done].
    by apply color_of_known, color_known.
Qed.

Lemma color_name_not_none (v : value) :
  color_name v = true -> is_not_none v = true.
Proof.
  unfold color_name. intros H. apply orb_true_iff in H as [H|H].
  - apply is_str_eq in H. by subst.
  - apply is_color_spec in H as (c & _ & ->). done.
Qed.

(** *** The stored fallbacks hold names of colours *)

Lemma fallback_ok_ext (st st' : coordinator) :
  same_memory st st' ->
  the_data st' !! "_fallback_today_color"
  = the_data st !! "_fallback_today_color" ->
  fallback_ok st' = fallback_ok st.
Proof. intros [Hc _] Hd. unfold fallback_ok. by rewrite Hc, Hd. Qed.

Lemma fallback_ok_store (tomorrow : date) (c : string) (st : coordinator) :
  fallback_ok st = true ->
  (c <> INDETERMINE -> c ∈ COLORS) ->
  fallback_ok (store_fallback tomorrow c st) = true.
Proof.
  intros Hst Hc. unfold store_fallback.
  destruct (String.eqb_spec c INDETERMINE) as [Heq|Hne]; simpl; [done|].
  assert (is_color (VStr c) = true) as Hcol.
  { apply is_color_spec. exists c. split; [by apply Hc|done]. }
  unfold fallback_ok. simpl. rewrite the_data_set_data.
  rewrite lookup_insert_ne by done. rewrite lookup_insert_eq.
  by rewrite Hcol.
Qed.

Lemma fallback_ok_tempo_resolve (E : env) (today_date tomorrow : date)
    (ty tt_ tm : tempo_day) (st : coordinator) :
  fallback_ok st = true ->
  fallback_ok (tempo_resolve K E today_date tomorrow ty tt_ tm st) = true.
Proof.
  intros Hst. rewrite tempo_resolve_unfold. cbv zeta.
  erewrite fallback_ok_ext; last first.
  { rewrite the_data_set_data. by apply set_current_rates_writes. }
  { by split. }
  apply fallback_ok_store.
  - erewrite fallback_ok_ext; [exact Hst|by split|].
    rewrite the_data_set_data. unfold colours_written.
    by rewrite !lookup_insert_ne.
  - intros Hne. by apply color_of_known, color_known.
Qed.

Lemma fallback_ok_same_store (st st' : coordinator) :
  same_store st st' -> fallback_ok st' = fallback_ok st.
Proof.
  intros Hs. apply fallback_ok_ext; [by destruct Hs|].
  by rewrite (same_store_the_data _ _ Hs).
Qed.

Lemma fallback_ok_tempo_step (E : env) (st : coordinator) :
  fallback_ok st = true -> fallback_ok (tempo_step K E st).2 = true.
Proof.
  intros Hst. unfold tempo_step.
  destruct (date_sub_day _) as [y|]; [|done].
  destruct (date_add_day _) as [t|]; [|done].
  destruct (tempo_body_resolves K E y (dt_date (now_tempo E)) t st)
    as (ty & tt_ & tm & st1 & st2 & st3 & _ & _ & _ & Hs & ->).
  simpl. apply fallback_ok_tempo_resolve.
  by rewrite (fallback_ok_same_store _ _ Hs).
Qed.

Lemma fallback_ok_refresh_step (cfg : config) (E : env) (st : coordinator) :
  fallback_ok st = true ->
  fallback_ok (refresh_step K cfg E (ensure_data cfg st)).2 = true.
Proof.
  intros Hst. erewrite fallback_ok_ext; [exact Hst| |].
  - destruct (refresh_step_data K cfg E (ensure_data cfg st)) as ([H1 H2] & _).
    destruct (ensure_data_lists cfg st) as (_ & _ & [H3 H4]).
    split; congruence.
  - rewrite (refresh_step_keeps K) by (by left).
    apply ensure_data_keeps. by left.
Qed.

Lemma fallback_ok_offpeak_step (cfg : config) (E : env) (st : coordinator) :
  fallback_ok st = true -> fallback_ok (offpeak_step K cfg E st).2 = true.
Proof.
  intros Hst.
  destruct (offpeak_step_frame K cfg E st) as (Hm & _ & _ & Hk).
  erewrite fallback_ok_ext; [exact Hst|done|].
  apply Hk. unfold OFFPEAK_WRITTEN. notin_list.
Qed.

Lemma fallback_ok_cycle (cfg : config) (E : env) (st : coordinator) :
  fallback_ok st = true ->
  fallback_ok (_async_update_data K cfg E st).2 = true.
Proof.
  intros Hst.
  pose proof (fallback_ok_refresh_step cfg E st Hst) as Hr.
  assert (fallback_ok
            (if String.eqb (contract_type cfg) CONTRACT_TYPE_TEMPO
             then tempo_step K E (refresh_step K cfg E (ensure_data cfg st)).2
             else (Return tt,
                   (refresh_step K cfg E (ensure_data cfg st)).2)).2 = true)
    as Ht.
  { destruct (String.eqb (contract_type cfg) CONTRACT_TYPE_TEMPO);
      [by apply fallback_ok_tempo_step|done]. }
  pose proof (fallback_ok_offpeak_step cfg E _ Ht) as Ho.
  destruct (cycle_state K cfg E st)
    as [(e & Hres & _)|(_ & [(e & Hres & _)|(_ & [(e & Hres & _)|[Hres _]])])];
    by rewrite Hres.
Qed.

Lemma reachable_fallback (st : coordinator) :
  reachable K st -> fallback_ok st = true.
Proof.
  induction 1 as [|cfg E st _ IH]; [done|]. by apply fallback_ok_cycle.
Qed.

(** *** The four colour fields *)

Lemma resolve_today_name (today_date : date) (c : string) (st : coordinator) :
  fallback_ok st = true ->
  color_name (VStr c) = true ->
  color_name (resolve_today today_date c st) = true.
Proof.
  unfold fallback_ok. intros Hst Hc. apply andb_true_iff in Hst as [Hm Hd].
  unfold resolve_today.
  destruct (String.eqb c INDETERMINE); [|done].
  destruct (_previous_demain_color st) as [c'|].
  - destruct (_ && _) eqn:H1.
    + simpl. unfold color_name. by rewrite Hm, orb_true_r.
    + destruct (is_not_none _ && _) eqn:H2; [|done].
      apply andb_true_iff in H2 as [H2 _]. unfold dget in *.
      destruct (the_data st !! "_fallback_today_color") as [v|]; [|done].
      simpl. unfold color_name. by rewrite Hd, orb_true_r.
  - rewrite andb_false_r.
    destruct (is_not_none _ && _) eqn:H2; [|done].
    apply andb_true_iff in H2 as [H2 _]. unfold dget in *.
    destruct (the_data st !! "_fallback_today_color") as [v|]; [|done].
    simpl. unfold color_name. by rewrite Hd, orb_true_r.
Qed.

Lemma set_current_rates_couleur (code : Z) (d : gmap string value) :
  dget (set_current_rates code d) "tempo_couleur"
  = VStr (if in_123 code then get_tempo_color_from_code code
          else INDETERMINE).
Proof.
  unfold set_current_rates, dget.
  repeat case_match; rewrite ?lookup_insert_ne by done;
    by rewrite lookup_insert_eq.
Qed.

Lemma tempo_resolve_colours (E : env) (today_date tomorrow : date)
    (ty tt_ tm : tempo_day) (st : coordinator) (k : string) :
  fallback_ok st = true ->
  k ∈ COLOR_FIELDS ->
  color_name
    (dget (the_data (tempo_resolve K E today_date tomorrow ty tt_ tm st)) k)
  = true.
Proof.
  intros Hst Hk. rewrite tempo_resolve_unfold. cbv zeta.
  rewrite the_data_set_data.
  unfold COLOR_FIELDS in Hk.
  apply elem_of_cons in Hk as [->|Hk].
  { rewrite set_current_rates_couleur.
    destruct (in_123 _); [apply color_name_code|].
    apply (color_name_code 0). }
  assert (forall k',
            k' ∈ ["tempo_couleur_hier"; "tempo_couleur_aujourdhui";
                  "tempo_couleur_demain"] ->
            dget (set_current_rates
                    (effective_code K E
                       (resolve_today today_date
                          (get_tempo_color_from_code (code_of tt_)) st) ty)
                    (the_data
                       (store_fallback tomorrow
                          (get_tempo_color_from_code (code_of tm))
                          (set_data (colours_written today_date ty tt_ tm st)
                             st)))) k'
            = dget (colours_written today_date ty tt_ tm st) k') as Hframe.
  { intros k' Hk'. apply lookup_dget.
    rewrite set_current_rates_writes;
      [|intros ->; revert Hk'; notin_list..].
    rewrite store_fallback_frame; [done|intros ->; revert Hk'; notin_list..]. }
  rewrite (Hframe k Hk). unfold colours_written, dget.
  apply elem_of_cons in Hk as [->|Hk].
  { rewrite !lookup_insert_ne by done. rewrite lookup_insert_eq.
    apply color_name_code. }
  apply elem_of_cons in Hk as [->|Hk].
  { rewrite lookup_insert_eq. simpl.
    apply resolve_today_name; [done|apply color_name_code]. }
  apply list_elem_of_singleton in Hk as ->.
  rewrite lookup_insert_ne by done. rewrite lookup_insert_eq.
  apply color_name_code.
Qed.

(** A cycle that returns has gone through its parts, and returns the
    snapshot. *)
Lemma cycle_returns (cfg : config) (E : env) (st : coordinator)
    (d : gmap string value) :
  (_async_update_data K cfg E st).1 = Return d ->
  let r := refresh_step K cfg E (ensure_data cfg st) in
  let t := if String.eqb (contract_type cfg) CONTRACT_TYPE_TEMPO
           then tempo_step K E r.2 else (Return tt, r.2) in
  d = the_data (_async_update_data K cfg E st).2
  /\ r.1 = Return tt /\ t.1 = Return tt
  /\ (_async_update_data K cfg E st).2 = (offpeak_step K cfg E t.2).2
  /\ (offpeak_step K cfg E t.2).1 = Return tt.
Proof.
  intros Hret. cbv zeta.
  destruct (cycle_state K cfg E st)
    as [(e & Hres & _)
       |(Hr & [(e & Hres & _)|(Ht & [(e & Hres & _)|[Hres Ho]])])];
    rewrite Hres in Hret; try discriminate.
  injection Hret as <-. by rewrite Hres.
Qed.

Lemma tempo_step_returns_days (E : env) (st : coordinator) :
  (tempo_step K E st).1 = Return tt ->
  exists yesterday tomorrow,
    date_sub_day (dt_date (now_tempo E)) = Some yesterday
    /\ date_add_day (dt_date (now_tempo E)) = Some tomorrow.
Proof.
  unfold tempo_step.
  destruct (date_sub_day _) as [y|]; [|discriminate].
  destruct (date_add_day _) as [t|]; [|discriminate].
  by exists y, t.
Qed.

(** X24: the four colour sensors of a tempo contract.  After a cycle that
    returns, from a state that cycles have reached, each of the fields
    [tempo_couleur], [tempo_couleur_hier], [tempo_couleur_aujourdhui] and
    [tempo_couleur_demain] of the snapshot holds one of the four names of
    the colour table, also when the colour of today comes from a stored
    fallback; the sensor of the field is available. *)
Theorem tempo_colour_sensors (cfg : config) (E : env) (st : coordinator)
    (d : gmap string value) (k : string) :
  reachable K st ->
  contract_type cfg = CONTRACT_TYPE_TEMPO ->
  (_async_update_data K cfg E st).1 = Return d ->
  k ∈ COLOR_FIELDS ->
  color_name (sensor.native_value d k) = true
  /\ sensor.available true d k = true.
Proof.
  intros Hreach Htype Hret Hk.
  assert (color_name (dget d k) = true) as Hname; last first.
  { split; [done|]. by apply color_name_not_none. }
  destruct (cycle_returns cfg E st d Hret) as (-> & Hr & Ht & _ & _).
  rewrite Htype in Ht. rewrite String.eqb_refl in Ht.
  destruct (tempo_step_returns_days _ _ Ht) as (y & t & Hy & Hyt).
  destruct (tempo_cycle K cfg E st y t Htype Hr Hy Hyt)
    as (ty & tt_ & tm & st1 & st2 & st3 & _ & _ & _ & Hs & _ & Hdata).
  assert (k ∉ OFFPEAK_WRITTEN) as Hko.
  { clear -Hk. unfold COLOR_FIELDS in Hk. unfold OFFPEAK_WRITTEN.
    repeat (apply elem_of_cons in Hk as [->|Hk]; [notin_list|]).
    by apply elem_of_nil in Hk. }
  rewrite (lookup_dget _ _ _ (Hdata k Hko)).
  apply tempo_resolve_colours; [|done].
  rewrite (fallback_ok_same_store _ _ Hs).
  by apply fallback_ok_refresh_step, reachable_fallback.
Qed.

(** *** The sensor of the current rate *)

Lemma offpeak_step_tempo_rate (cfg : config) (E : env) (st : coordinator) :
  contract_type cfg = CONTRACT_TYPE_TEMPO ->
  (offpeak_step K cfg E st).1 = Return tt ->
  the_data (offpeak_step K cfg E st).2 !! "tarif_actuel_ttc"
  = Some (dget (the_data st) "tempo_variable_hc_ttc")
  \/ the_data (offpeak_step K cfg E st).2 !! "tarif_actuel_ttc"
     = Some (dget (the_data st) "tempo_variable_hp_ttc").
Proof.
  intros Htype. unfold offpeak_step. rewrite Htype.
  cbv [CONTRACT_TYPE_BASE CONTRACT_TYPE_HPHC CONTRACT_TYPE_TEMPO].
  cbn [String.eqb Ascii.eqb Bool.eqb orb].
  cbv [String.append].
  repeat case_match; simpl; try discriminate; intros _;
    rewrite the_data_set_data;
    rewrite lookup_insert_ne by done; rewrite lookup_insert_eq; auto.
Qed.

(** X25: the sensor of the current rate of a tempo contract.  When the
    snapshot has no current Tempo rate yet, as before the first cycle, and
    the cycle ends with the current colour ["indéterminé"], the current rate
    [tarif_actuel_ttc] is [None] after the cycle, within and outside the
    off-peak hours; [async_setup_entry] of the sensors then creates no
    sensor for it. *)
Theorem no_current_rate_sensor (cfg : config) (E : env) (st : coordinator)
    (d : gmap string value) :
  contract_type cfg = CONTRACT_TYPE_TEMPO ->
  dget (the_data st) "tempo_variable_hp_ttc" = VNone ->
  dget (the_data st) "tempo_variable_hc_ttc" = VNone ->
  (_async_update_data K cfg E st).1 = Return d ->
  dget d "tempo_couleur" = VStr INDETERMINE ->
  dget d "tarif_actuel_ttc" = VNone
  /\ forall keys,
       sensor.async_setup_entry (_async_update_data K cfg E st).2
       = Return keys ->
       "tarif_actuel_ttc" ∉ keys.
Proof.
  intros Htype Hhp Hhc Hret Hcol.
  assert (dget d "tarif_actuel_ttc" = VNone) as Hnone.
  { destruct (cycle_returns cfg E st d Hret) as (-> & Hr & Ht & Hst & Ho).
    rewrite Htype, String.eqb_refl in Ht, Hst, Ho.
    destruct (tempo_step_returns_days _ _ Ht) as (y & t & Hy & Hyt).
    destruct (tempo_cycle K cfg E st y t Htype Hr Hy Hyt)
      as (ty & tt_ & tm & st1 & st2 & st3 & H1 & H2 & H3 & Hs & _ & Hdata).
    assert ((tempo_step K E (refresh_step K cfg E (ensure_data cfg st)).2).2
            = tempo_resolve K E (dt_date (now_tempo E)) t ty tt_ tm st3)
      as Hstep.
    { unfold tempo_step. rewrite Hy, Hyt. unfold tempo_body.
      by rewrite H1, H2, H3. }
    rewrite Hstep in Hst, Ho.
    rewrite (lookup_dget _ _ _ (Hdata "tempo_couleur"
                                  ltac:(unfold OFFPEAK_WRITTEN; notin_list)))
      in Hcol.
    revert Hcol. rewrite tempo_resolve_unfold. cbv zeta.
    rewrite the_data_set_data, set_current_rates_couleur.
    destruct (in_123 _) eqn:Hcode.
    { intros [= Hc]. apply in_123_known in Hcode.
      by apply color_known in Hcode. }
    intros _.
    assert (~ known
              (effective_code K E
                 (resolve_today (dt_date (now_tempo E))
                    (get_tempo_color_from_code (code_of tt_)) st3) ty))
      as Hunknown.
    { intros Hk. apply in_123_known in Hk. congruence. }
    destruct (set_current_rates_unknown _
                (the_data
                   (store_fallback t (get_tempo_color_from_code (code_of tm))
                      (set_data
                         (colours_written (dt_date (now_tempo E)) ty tt_ tm
                            st3) st3))) Hunknown)
      as (_ & Hp & Hc & _ & _).
    assert (forall k,
              k ∈ ["tempo_variable_hp_ttc"; "tempo_variable_hc_ttc"] ->
              dget (the_data
                      (store_fallback t
                         (get_tempo_color_from_code (code_of tm))
                         (set_data
                            (colours_written (dt_date (now_tempo E)) ty tt_
                               tm st3) st3))) k
              = dget (the_data st) k) as Hkeep.
    { intros k Hk. apply lookup_dget.
      rewrite store_fallback_frame;
        [|intros ->; revert Hk; notin_list..].
      rewrite the_data_set_data. unfold colours_written.
      rewrite !lookup_insert_ne
        by (intros <-; revert Hk; notin_list).
      rewrite (same_store_the_data _ _ Hs).
      apply elem_of_cons in Hk as [->|Hk];
        [|apply list_elem_of_singleton in Hk as ->];
        (rewrite (refresh_step_keeps K) by in_list);
        apply ensure_data_keeps; unfold WATCHED; in_list. }
    rewrite Hkeep in Hp by (by left).
    rewrite Hkeep in Hc by (right; by left).
    rewrite Hhp in Hp. rewrite Hhc in Hc.
    rewrite Hst. unfold dget at 1.
    destruct (offpeak_step_tempo_rate cfg E _ Htype Ho) as [-> | ->]; simpl.
    - by rewrite tempo_resolve_unfold, the_data_set_data.
    - by rewrite tempo_resolve_unfold, the_data_set_data. }
  split; [done|].
  intros keys. unfold sensor.async_setup_entry.
  destruct (cycle_returns cfg E st d Hret) as (Hd & _).
  unfold the_data in Hd.
  destruct (data (_async_update_data K cfg E st).2) as [d'|]; [|discriminate].
  simpl in Hd. subst d'.
  destruct (d !! "contract_type") as [ct|]; [|discriminate].
  destruct (d !! "contract_power") as [cp|]; [|discriminate].
  rewrite Hnone. simpl.
  unfold sensor.BASE_SENSORS, sensor.HPHC_SENSORS, sensor.TEMPO_SENSORS.
  repeat case_match; intros [= <-]; simpl; notin_list.
Qed.

(** *** The unique ids *)

Lemma unique_id_inj (contract_type contract_power : string) :
  Inj eq eq (unique_id contract_type contract_power).
Proof.
  intros k1 k2 H. unfold unique_id in H.
  by repeat apply String.app_inj in H.
Qed.

(** X26: the entities of one contract have distinct unique ids.  The keys of
    the sensors that [async_setup_entry] of [sensor.py] creates are pairwise
    distinct, and none is the key of the off-peak sensor that
    [async_setup_entry] of [binary_sensor.py] creates; the unique id holds
    the key after a prefix that is the same for all, so that no two
    entities of the two platforms share a unique id. *)
Theorem unique_ids_distinct (st : coordinator) (keys binary_keys : list string)
    (contract_type contract_power : string) :
  sensor.async_setup_entry st = Return keys ->
  binary_sensor.async_setup_entry st = Return binary_keys ->
  NoDup (unique_id contract_type contract_power
         <$> (keys ++ binary_keys)%list).
Proof.
  intros Hkeys Hbinary.
  apply NoDup_fmap_2; [apply unique_id_inj|].
  assert (binary_keys = [] \/ binary_keys = ["is_off_peak"]) as Hb.
  { revert Hbinary. unfold binary_sensor.async_setup_entry.
    destruct (data st) as [d|]; [|discriminate].
    destruct (d !! "contract_type") as [ct|]; [|discriminate].
    destruct (_ || _); intros [= <-]; auto. }
  assert (NoDup keys /\ "is_off_peak" ∉ keys) as [Hnd Hnot].
  { revert Hkeys. unfold sensor.async_setup_entry.
    destruct (data st) as [d|]; [|discriminate].
    destruct (d !! "contract_type") as [ct|]; [|discriminate].
    destruct (d !! "contract_power") as [cp|]; [|discriminate].
    unfold sensor.BASE_SENSORS, sensor.HPHC_SENSORS, sensor.TEMPO_SENSORS.
    repeat case_match; intros [= <-]; simpl;
      (split; [|notin_list]);
      repeat (apply NoDup_cons; split; [notin_list|]); apply NoDup_nil_2. }
  destruct Hb as [-> | ->]; [by rewrite app_nil_r|].
  apply NoDup_app. split_and!; [done| |apply NoDup_singleton].
  intros k Hk Hk'. apply list_elem_of_singleton in Hk' as ->. done.
Qed.

End Entities.

Lemma tempo_colour_sensors_witness :
  reachable (F := F0) K0 after_noon
  /\ (_async_update_data (F := F0) K0 cfg_tempo env_night after_noon).1
     = Return
         (the_data
            (_async_update_data (F := F0) K0 cfg_tempo env_night
               after_noon).2)
  /\ color_name
       (sensor.native_value
          (the_data
             (_async_update_data (F := F0) K0 cfg_tempo env_night
                after_noon).2)
          "tempo_couleur_aujourdhui") = true
  /\ sensor.available true
       (the_data
          (_async_update_data (F := F0) K0 cfg_tempo env_night after_noon).2)
       "tempo_couleur_aujourdhui" = true.
Proof.
  assert (reachable (F := F0) K0 after_noon) as Hreach.
  { exact (reachable_cycle K0 cfg_tempo _ after_morning
             (reachable_cycle K0 cfg_tempo _ init_coordinator
                (reachable_init K0))). }
  assert ((_async_update_data (F := F0) K0 cfg_tempo env_night after_noon).1
          = Return
              (the_data
                 (_async_update_data (F := F0) K0 cfg_tempo env_night
                    after_noon).2)) as Hret.
  { apply cycle_return_data. vm_refl. }
  split; [exact Hreach|]. split; [exact Hret|].
  refine (tempo_colour_sensors K0 cfg_tempo env_night after_noon _
            "tempo_couleur_aujourdhui" Hreach eq_refl Hret _).
  unfold COLOR_FIELDS. in_list.
Defined.

Lemma no_current_rate_sensor_witness :
  (_async_update_data (F := F0) K0 cfg_tempo
     (env_at (at_time day1 12 0) tempo_csv no_api) init_coordinator).1
  = Return
      (the_data
         (_async_update_data (F := F0) K0 cfg_tempo
            (env_at (at_time day1 12 0) tempo_csv no_api)
            init_coordinator).2)
  /\ dget
       (the_data
          (_async_update_data (F := F0) K0 cfg_tempo
             (env_at (at_time day1 12 0) tempo_csv no_api)
             init_coordinator).2)
       "tarif_actuel_ttc" = VNone.
Proof.
  assert ((_async_update_data (F := F0) K0 cfg_tempo
             (env_at (at_time day1 12 0) tempo_csv no_api)
             init_coordinator).1
          = Return
              (the_data
                 (_async_update_data (F := F0) K0 cfg_tempo
                    (env_at (at_time day1 12 0) tempo_csv no_api)
                    init_coordinator).2)) as Hret.
  { apply cycle_return_data. vm_refl. }
  split; [exact Hret|].
  refine (proj1 (no_current_rate_sensor K0 cfg_tempo
                   (env_at (at_time day1 12 0) tempo_csv no_api)
                   init_coordinator _ eq_refl eq_refl eq_refl Hret _)).
  vm_refl.
Defined.

Lemma unique_ids_distinct_witness :
  sensor.async_setup_entry after_noon
  = Return (["contract_power"] ++ sensor.TEMPO_SENSORS
            ++ ["tarif_actuel_ttc"])%list
  /\ binary_sensor.async_setup_entry after_noon = Return ["is_off_peak"]
  /\ NoDup (unique_id "tempo" "6"
            <$> ((["contract_power"] ++ sensor.TEMPO_SENSORS
                  ++ ["tarif_actuel_ttc"]) ++ ["is_off_peak"])%list).
Proof.
  assert (sensor.async_setup_entry after_noon
          = Return (["contract_power"] ++ sensor.TEMPO_SENSORS
                    ++ ["tarif_actuel_ttc"])%list) as Hkeys by vm_refl.
  assert (binary_sensor.async_setup_entry after_noon
          = Return ["is_off_peak"]) as Hbinary by vm_refl.
  split; [exact Hkeys|]. split; [exact Hbinary|].
  exact (unique_ids_distinct after_noon _ _ "tempo" "6" Hkeys Hbinary).
Defined.

(** ** From one day to the next *)

Section Days.

Context {F : PyFloat} (K : Const).

(** *** The colour table *)

Lemma mapping_get_elem (m : list (Z * string)) (code : Z) (name : string) :
  mapping_get m code = Some name -> (code, name) ∈ m.
Proof.
  induction m as [|[c n] m IH]; simpl; [discriminate|].
  destruct (Z.eqb_spec c code) as [->|Hne].
  - intros [= ->]. by left.
  - intros H. right. by apply IH.
Qed.

Lemma code_from_name_elem (m : list (Z * string)) (name : string) :
  name ∈ m.*2 -> (code_from_name m (VStr name), name) ∈ m.
Proof.
  induction m as [|[c n] m IH]; simpl; [by intros H; apply elem_of_nil in H|].
  destruct (String.eqb_spec name n) as [->|Hne]; [by left|].
  intros H. apply elem_of_cons in H as [H|H]; [done|]. right. by apply IH.
Qed.

(** X27: the two readings of the colour table are inverse to each other.
    For any table of codes and names, as a [dict] with pairwise distinct
    names: the name that [get_tempo_color_from_code] finds for a code leads
    [_get_color_code_from_name] back to that code, and the code that
    [_get_color_code_from_name] finds for a name of the table leads back
    to that name. *)
Theorem colour_table_inverse (m : list (Z * string)) :
  NoDup m.*1 -> NoDup m.*2 ->
  (forall code name,
     mapping_get m code = Some name ->
     code_from_name m (VStr name) = code)
  /\ (forall name,
        name ∈ m.*2 ->
        mapping_get m (code_from_name m (VStr name)) = Some name).
Proof.
  induction m as [|[c n] m IH]; simpl; intros Hcodes Hnames.
  - split; [discriminate|]. by intros name H; apply elem_of_nil in H.
  - apply NoDup_cons in Hcodes as [Hc Hcodes].
    apply NoDup_cons in Hnames as [Hn Hnames].
    destruct (IH Hcodes Hnames) as [IH1 IH2]. split.
    + intros code name.
      destruct (Z.eqb_spec c code) as [->|Hne].
      * intros [= ->]. by rewrite String.eqb_refl.
      * intros H. destruct (String.eqb_spec name n) as [->|Hne'].
        -- exfalso. apply Hn. apply mapping_get_elem in H.
           by apply (list_elem_of_fmap_2 snd) in H.
        -- by apply IH1.
    + intros name Hin.
      destruct (String.eqb_spec name n) as [->|Hne].
      * by rewrite Z.eqb_refl.
      * apply elem_of_cons in Hin as [Hin|Hin]; [done|].
        destruct (Z.eqb_spec c (code_from_name m (VStr name))) as [Heq|Hne'].
        -- exfalso. apply Hc. apply code_from_name_elem in Hin.
           apply (list_elem_of_fmap_2 fst) in Hin. by rewrite Heq.
        -- by apply IH2.
Qed.

(** *** The day before and the day after *)

(** X28: the three days of a Tempo cycle.  On a day of the calendar that is
    neither its first nor its last, the cycle asks for the colours of three
    days: the day before, on whose morrow today falls, today, and the day
    after, on whose eve today falls; the day before is earlier than today
    and the day after is later. *)
Theorem tempo_days_around (E : env) :
  let today_date := dt_date (now_tempo E) in
  is_calendar_day today_date ->
  today_date <> mk_date MINYEAR 1 1 ->
  today_date <> mk_date MAXYEAR 12 31 ->
  exists yesterday tomorrow,
    tempo_days E = [yesterday; today_date; tomorrow]
    /\ date_add_day yesterday = Some today_date
    /\ date_sub_day tomorrow = Some today_date
    /\ date_lt yesterday today_date
    /\ date_lt today_date tomorrow
    /\ is_calendar_day yesterday
    /\ is_calendar_day tomorrow.
Proof.
  cbv zeta. unfold tempo_days, is_calendar_day, MINYEAR, MAXYEAR.
  destruct (dt_date (now_tempo E)) as [y m d]. simpl.
  intros (Hy & Hm & Hd) Hmin Hmax.
  pose proof (days_in_month_range y m) as Hdim.
  pose proof (days_in_month_range y (m - 1)) as Hdim'.
  assert (days_in_month y 12 = 31) as H12 by reflexivity.
  assert (forall y', days_in_month y' 1 = 31) as H1 by reflexivity.
  unfold date_sub_day, date_add_day, date_lt, date_ltb, date_cmp,
    MINYEAR, MAXYEAR. simpl.
  destruct (Z.ltb_spec 1 d) as [Hd1|Hd1];
    [|destruct (Z.ltb_spec 1 m) as [Hm1|Hm1];
      [|destruct (Z.ltb_spec 1 y) as [Hy1|Hy1];
        [|exfalso; apply Hmin; f_equal; lia]]];
    (destruct (Z.ltb_spec d (days_in_month y m)) as [Hd2|Hd2];
     [|destruct (Z.ltb_spec m 12) as [Hm2|Hm2];
       [|destruct (Z.ltb_spec y 9999) as [Hy2|Hy2];
         [|exfalso; apply Hmax;
           assert (m = 12) as -> by lia; rewrite H12 in *;
           f_equal; lia]]]);
    eexists _, _; (split; [reflexivity|]); simpl;
    repeat match goal with
      | |- context [?a <? ?b] => destruct (Z.ltb_spec a b); try lia
      end;
    repeat match goal with
      | |- context [?a ?= ?b] =>
          destruct (Z.compare_spec a b); try lia
      end;
    try (assert (m = 12) as -> by lia; rewrite ?H12 in * );
    try (assert (m = 1) as -> by lia; rewrite ?H1 in * );
    rewrite ?Z.compare_refl, ?H1, ?H12;
    repeat match goal with
      | |- context [?a ?= ?b] =>
          destruct (Z.compare_spec a b); try lia
      end;
    split_and!; try done; try lia; try (f_equal; lia);
    try (f_equal; f_equal; lia);
    try (pose proof (days_in_month_range (y - 1) 12); lia);
    try (pose proof (days_in_month_range (y + 1) 1); lia);
    try (pose proof (days_in_month_range y (m + 1)); lia);
    try (replace (m + 1 - 1) with m by lia; f_equal; f_equal; lia).
Qed.

(** *** Tomorrow's colour, the day after *)

(** X29: the colour announced for tomorrow is today's colour on the next
    day.  When a cycle of a tempo contract has shown a colour other than
    ["indéterminé"] for tomorrow, and the next cycle runs on that next day,
    the colour it shows for today is the colour of the record it gets for
    that day when that colour is known, and otherwise the colour that the
    first cycle had shown for tomorrow; in both cases it is not
    ["indéterminé"]. *)
Theorem demain_becomes_aujourdhui (cfg1 cfg2 : config) (E1 E2 : env)
    (st : coordinator) (c : string) (y1 t1 y2 t2 : date) :
  contract_type cfg1 = CONTRACT_TYPE_TEMPO ->
  contract_type cfg2 = CONTRACT_TYPE_TEMPO ->
  (refresh_step K cfg1 E1 (ensure_data cfg1 st)).1 = Return tt ->
  date_sub_day (dt_date (now_tempo E1)) = Some y1 ->
  date_add_day (dt_date (now_tempo E1)) = Some t1 ->
  dget (the_data (_async_update_data K cfg1 E1 st).2) "tempo_couleur_demain"
  = VStr c ->
  c <> INDETERMINE ->
  dt_date (now_tempo E2) = t1 ->
  (refresh_step K cfg2 E2
     (ensure_data cfg2 (_async_update_data K cfg1 E1 st).2)).1 = Return tt ->
  date_sub_day t1 = Some y2 ->
  date_add_day t1 = Some t2 ->
  exists ty sa tt_ sb,
    get_tempo_day K E2 (now_cache_yesterday E2) y2
      (refresh_step K cfg2 E2
         (ensure_data cfg2 (_async_update_data K cfg1 E1 st).2)).2
    = (Return ty, sa)
    /\ get_tempo_day K E2 (now_cache_today E2) t1 sa = (Return tt_, sb)
    /\ dget
         (the_data
            (_async_update_data K cfg2 E2
               (_async_update_data K cfg1 E1 st).2).2)
         "tempo_couleur_aujourdhui"
       = VStr (if in_123 (code_of tt_)
               then get_tempo_color_from_code (code_of tt_) else c)
    /\ (if in_123 (code_of tt_)
        then get_tempo_color_from_code (code_of tt_) else c) <> INDETERMINE.
Proof.
  intros Ht1 Ht2 Hr1 Hy1 Hyt1 Hdemain Hc Htoday Hr2 Hy2 Hyt2.
  set (st1 := (_async_update_data K cfg1 E1 st).2) in *.
  (* the first cycle *)
  destruct (tempo_cycle K cfg1 E1 st y1 t1 Ht1 Hr1 Hy1 Hyt1)
    as (ty1 & tt1 & tm1 & s1 & s2 & s3 & _ & _ & _ & _ & Hmem1 & Hdata1).
  fold st1 in Hmem1, Hdata1.
  assert (get_tempo_color_from_code (code_of tm1) = c) as Htm.
  { unfold dget in Hdemain.
    rewrite Hdata1 in Hdemain by (unfold OFFPEAK_WRITTEN; notin_list).
    rewrite tempo_resolve_unfold in Hdemain. cbv zeta in Hdemain.
    rewrite the_data_set_data in Hdemain.
    rewrite set_current_rates_writes in Hdemain by done.
    rewrite store_fallback_frame in Hdemain by done.
    rewrite the_data_set_data in Hdemain. unfold colours_written in Hdemain.
    rewrite lookup_insert_ne in Hdemain by done.
    rewrite lookup_insert_eq in Hdemain. simpl in Hdemain.
    by injection Hdemain. }
  assert (_previous_demain_color st1 = Some c
          /\ _previous_demain_date st1 = Some t1) as [Hpc Hpd].
  { destruct Hmem1 as [Mc Md]. rewrite Mc, Md.
    rewrite tempo_resolve_unfold. cbv zeta. unfold store_fallback.
    rewrite Htm.
    destruct (String.eqb_spec c INDETERMINE) as [Heq|_]; [done|].
    by simpl. }
  (* the second cycle *)
  rewrite <- Htoday in Hy2, Hyt2.
  destruct (tempo_cycle K cfg2 E2 st1 y2 t2 Ht2 Hr2 Hy2 Hyt2)
    as (ty & tt_ & tm & sa & sb & sc & H1 & H2 & H3 & Hs & _ & Hdata2).
  rewrite Htoday in H2.
  exists ty, sa, tt_, sb. split; [done|]. split; [done|].
  split; last first.
  { destruct (in_123 (code_of tt_)) eqn:Hcode; [|done].
    by apply color_known, in_123_known. }
  unfold dget.
  rewrite Hdata2 by (unfold OFFPEAK_WRITTEN; notin_list).
  rewrite tempo_resolve_unfold. cbv zeta. rewrite the_data_set_data.
  rewrite set_current_rates_writes by done.
  rewrite store_fallback_frame by done.
  rewrite the_data_set_data. unfold colours_written.
  rewrite lookup_insert_eq. simpl.
  assert (_previous_demain_color sc = Some c
          /\ _previous_demain_date sc = Some t1) as [Hqc Hqd].
  { destruct Hs as (_ & [Sc Sd]).
    destruct (refresh_step_data K cfg2 E2 (ensure_data cfg2 st1))
      as ([Rc Rd] & _).
    destruct (ensure_data_lists cfg2 st1) as (_ & _ & [Ec Ed]).
    split; congruence. }
  unfold resolve_today. rewrite Hqc, Hqd, Htoday.
  destruct (in_123 (code_of tt_)) eqn:Hcode.
  - apply in_123_known, color_known in Hcode.
    by destruct (String.eqb_spec (get_tempo_color_from_code (code_of tt_))
                   INDETERMINE).
  - destruct (String.eqb_spec (get_tempo_color_from_code (code_of tt_))
                INDETERMINE) as [_|Hne].
    + rewrite (proj2 (date_eqb_eq t1 t1) eq_refl).
      by destruct (String.eqb_spec c INDETERMINE).
    + apply color_known, in_123_known in Hne. congruence.
Qed.

(** *** The rates after a refresh *)

Lemma extract_rates_sensors (bm : row) (type : string)
    (rates : gmap string value) (k : string) :
  extract_rates bm type = Return rates ->
  k ∈ rate_sensors type ->
  exists x, rates !! k = Some (VFloat x).
Proof.
  intros Hrates Hk.
  assert (is_Some (rates !! k)) as [v Hv]; last first.
  { destruct (extract_rates_dom _ _ _ _ _ Hrates Hv) as (_ & x & ->).
    by exists x. }
  revert Hrates Hk. unfold extract_rates, rate_sensors.
  destruct (String.eqb type CONTRACT_TYPE_BASE);
    [|destruct (String.eqb type CONTRACT_TYPE_HPHC);
      [|destruct (String.eqb type CONTRACT_TYPE_TEMPO)]].
  - destruct (parse_fields bm BASE_FIELDS ∅) as [r|] eqn:Hr; [|discriminate].
    intros [= <-] Hk.
    destruct (extract_rates_of bm (tail BASE_FIELDS) "PART_FIXE_TTC"
                "base_fixe_ttc" "base_abonnement_ttc" _ r Hr eq_refl)
      as (x & _ & _ & Habo & _); [notin_list|done|].
    unfold sensor.BASE_SENSORS in Hk.
    repeat (apply elem_of_cons in Hk as [->|Hk];
            [first [by eexists
                   |apply add_abonnement_some;
                    apply (parse_fields_some _ _ _ _ _ Hr); left; in_list]|]).
    by apply elem_of_nil in Hk.
  - destruct (parse_fields bm HPHC_FIELDS ∅) as [r|] eqn:Hr; [|discriminate].
    intros [= <-] Hk.
    destruct (extract_rates_of bm (tail HPHC_FIELDS) "PART_FIXE_TTC"
                "hphc_fixe_ttc" "hphc_abonnement_ttc" _ r Hr eq_refl)
      as (x & _ & _ & Habo & _); [notin_list|done|].
    unfold sensor.HPHC_SENSORS in Hk.
    repeat (apply elem_of_cons in Hk as [->|Hk];
            [first [by eexists
                   |apply add_abonnement_some;
                    apply (parse_fields_some _ _ _ _ _ Hr); left; in_list]|]).
    by apply elem_of_nil in Hk.
  - destruct (parse_fields bm TEMPO_FIELDS ∅) as [r|] eqn:Hr; [|discriminate].
    intros [= <-] Hk.
    destruct (extract_rates_of bm (tail TEMPO_FIELDS) "PART_FIXE_TTC"
                "tempo_fixe_ttc" "tempo_abonnement_ttc" _ r Hr eq_refl)
      as (x & _ & _ & Habo & _); [notin_list|done|].
    unfold sensor.TEMPO_SENSORS in Hk. cbn [drop] in Hk.
    repeat (apply elem_of_cons in Hk as [->|Hk];
            [first [by eexists
                   |apply add_abonnement_some;
                    apply (parse_fields_some _ _ _ _ _ Hr); left; in_list]|]).
    by apply elem_of_nil in Hk.
  - intros _ Hk. by apply elem_of_nil in Hk.
Qed.

Lemma rate_sensors_table (type : string) (k : string) :
  k ∈ rate_sensors type -> k ∈ TABLE_FIELDS.
Proof.
  unfold rate_sensors, TABLE_FIELDS, sensor.BASE_SENSORS, sensor.HPHC_SENSORS,
    sensor.TEMPO_SENSORS.
  repeat case_match; cbn [drop]; intros Hk;
    repeat (apply elem_of_cons in Hk as [->|Hk];
            [cbv [BASE_FIELDS HPHC_FIELDS TEMPO_FIELDS]; in_list|]);
    by apply elem_of_nil in Hk.
Qed.

Lemma rate_sensors_not_stamp (type : string) :
  "last_refresh_at" ∉ rate_sensors type.
Proof.
  unfold rate_sensors, sensor.BASE_SENSORS, sensor.HPHC_SENSORS,
    sensor.TEMPO_SENSORS.
  repeat case_match; cbn [drop]; notin_list.
Qed.

(** X30: the rate sensors after a refresh.  When a cycle returns and has
    set the time of the last refresh, each sensor of the contract type that
    shows a rate of the tariff table, variable rate or subscription, finds a
    float under its key in the snapshot, and is available: the sensors of
    [sensor.py] and the resolver of the table use the same field names. *)
Theorem rate_sensors_available (cfg : config) (E : env) (st : coordinator)
    (d : gmap string value) (k : string) :
  (_async_update_data K cfg E st).1 = Return d ->
  d !! "last_refresh_at" <> the_data (ensure_data cfg st) !! "last_refresh_at" ->
  k ∈ rate_sensors (contract_type cfg) ->
  (exists x, sensor.native_value d k = VFloat x)
  /\ sensor.available true d k = true.
Proof.
  intros Hret Hstamp Hk.
  assert (exists x, dget d k = VFloat x) as (x & Hx); last first.
  { split; [by exists x|]. unfold sensor.available. by rewrite Hx. }
  destruct (cycle_returns K cfg E st d Hret) as (-> & _).
  pose proof (rate_sensors_table _ _ Hk) as Hkt.
  destruct (table_field_not_written k Hkt) as [Hk1 Hk2].
  destruct (table_field_not_written "last_refresh_at" ltac:(by left))
    as [Hs1 Hs2].
  rewrite cycle_frame in Hstamp by done.
  unfold dget. rewrite cycle_frame by done.
  destruct (refresh_step_data K cfg E (ensure_data cfg st))
    as (_ & [Hd|(url & rows & r & rates & _ & _ & _ & Hrates & Hd)]);
    rewrite Hd in *; [done|].
  destruct (extract_rates_sensors _ _ _ _ Hrates Hk) as (x & Hx).
  exists x. rewrite lookup_insert_ne.
  - by rewrite (lookup_union_Some_l _ _ _ _ Hx).
  - intros <-. by apply (rate_sensors_not_stamp (contract_type cfg)).
Qed.

End Days.

Lemma colour_table_inverse_witness :
  NoDup TEMPO_COLORS_MAPPING.*1
  /\ NoDup TEMPO_COLORS_MAPPING.*2
  /\ (forall code name,
        mapping_get TEMPO_COLORS_MAPPING code = Some name ->
        code_from_name (F := F0) TEMPO_COLORS_MAPPING (VStr name) = code)
  /\ (forall name,
        name ∈ TEMPO_COLORS_MAPPING.*2 ->
        mapping_get TEMPO_COLORS_MAPPING
          (code_from_name (F := F0) TEMPO_COLORS_MAPPING (VStr name))
        = Some name).
Proof.
  assert (NoDup TEMPO_COLORS_MAPPING.*1) as Hcodes.
  { unfold TEMPO_COLORS_MAPPING. cbn [fmap list_fmap fst].
    repeat (apply NoDup_cons; split; [notin_list|]). apply NoDup_nil_2. }
  assert (NoDup TEMPO_COLORS_MAPPING.*2) as Hnames.
  { unfold TEMPO_COLORS_MAPPING. cbn [fmap list_fmap snd].
    repeat (apply NoDup_cons; split; [notin_list|]). apply NoDup_nil_2. }
  split; [exact Hcodes|]. split; [exact Hnames|].
  exact (colour_table_inverse (F := F0) TEMPO_COLORS_MAPPING Hcodes Hnames).
Defined.

Lemma tempo_days_around_witness :
  is_calendar_day (dt_date (now_tempo env_night))
  /\ exists yesterday tomorrow,
       tempo_days env_night
       = [yesterday; dt_date (now_tempo env_night); tomorrow]
       /\ date_add_day yesterday = Some (dt_date (now_tempo env_night))
       /\ date_sub_day tomorrow = Some (dt_date (now_tempo env_night))
       /\ date_lt yesterday (dt_date (now_tempo env_night))
       /\ date_lt (dt_date (now_tempo env_night)) tomorrow
       /\ is_calendar_day yesterday
       /\ is_calendar_day tomorrow.
Proof.
  assert (is_calendar_day (dt_date (now_tempo env_night))) as Hday.
  { unfold is_calendar_day, MINYEAR, MAXYEAR. simpl.
    split_and!; try lia; by vm_compute. }
  split; [exact Hday|].
  refine (tempo_days_around env_night Hday _ _); discriminate.
Defined.

Lemma demain_becomes_aujourdhui_witness :
  dget (the_data after_noon) "tempo_couleur_demain" = @VStr F0 "rouge"
  /\ dt_date (now_tempo env_night) = day1
  /\ exists ty sa tt_ sb,
       get_tempo_day (F := F0) K0 env_night (now_cache_yesterday env_night)
         day0
         (refresh_step K0 cfg_tempo env_night
            (ensure_data cfg_tempo after_noon)).2
       = (Return ty, sa)
       /\ get_tempo_day K0 env_night (now_cache_today env_night) day1 sa
          = (Return tt_, sb)
       /\ dget
            (the_data
               (_async_update_data K0 cfg_tempo env_night after_noon).2)
            "tempo_couleur_aujourdhui"
          = VStr (if in_123 (code_of tt_)
                  then get_tempo_color_from_code (code_of tt_) else "rouge")
       /\ (if in_123 (code_of tt_)
           then get_tempo_color_from_code (code_of tt_) else "rouge")
          <> INDETERMINE.
Proof.
  assert (dget (the_data after_noon) "tempo_couleur_demain"
          = @VStr F0 "rouge") as Hdemain by vm_refl.
  assert (dt_date (now_tempo env_night) = day1) as Htoday by reflexivity.
  split; [exact Hdemain|]. split; [exact Htoday|].
  refine (demain_becomes_aujourdhui (F := F0) K0 cfg_tempo cfg_tempo
            (env_at (at_time day0 12 0) tempo_csv api_noon) env_night
            after_morning "rouge" (mk_date 2024 6 29) day1 day0 day2
            eq_refl eq_refl _ _ _ Hdemain _ Htoday _ _ _).
  - vm_refl.
  - vm_refl.
  - vm_refl.
  - discriminate.
  - vm_refl.
  - vm_refl.
  - vm_refl.
Defined.

Lemma rate_sensors_available_witness :
  (_async_update_data (F := F0) K0 cfg_hphc
     (env_at (at_time day1 23 0) hphc_csv no_api) init_coordinator).1
  = Return
      (the_data
         (_async_update_data (F := F0) K0 cfg_hphc
            (env_at (at_time day1 23 0) hphc_csv no_api)
            init_coordinator).2)
  /\ (exists x,
        sensor.native_value
          (the_data
             (_async_update_data (F := F0) K0 cfg_hphc
                (env_at (at_time day1 23 0) hphc_csv no_api)
                init_coordinator).2)
          "hphc_abonnement_ttc" = @VFloat F0 x)
  /\ sensor.available true
       (the_data
          (_async_update_data (F := F0) K0 cfg_hphc
             (env_at (at_time day1 23 0) hphc_csv no_api)
             init_coordinator).2)
       "hphc_abonnement_ttc" = true.
Proof.
  assert ((_async_update_data (F := F0) K0 cfg_hphc
             (env_at (at_time day1 23 0) hphc_csv no_api) init_coordinator).1
          = Return
              (the_data
                 (_async_update_data (F := F0) K0 cfg_hphc
                    (env_at (at_time day1 23 0) hphc_csv no_api)
                    init_coordinator).2)) as Hret.
  { apply cycle_return_data. vm_refl. }
  split; [exact Hret|].
  refine (rate_sensors_available (F := F0) K0 cfg_hphc
            (env_at (at_time day1 23 0) hphc_csv no_api) init_coordinator _
            "hphc_abonnement_ttc" Hret _ _).
  - vm_compute. discriminate.
  - change (rate_sensors (contract_type cfg_hphc))
      with sensor.HPHC_SENSORS.
    unfold sensor.HPHC_SENSORS. in_list.
Defined.

Lemma scan_ranges_first_match_witness :
  scan_ranges (mk_time 23 0 0 0) (["nuit"] ++ "22:00-06:00" :: ["22:00-06:00x"])
  = Return true.
Proof.
  refine (scan_ranges_first_match (mk_time 23 0 0 0) ["nuit"]
            ["22:00-06:00x"] "22:00-06:00" (mk_time 22 0 0 0)
            (mk_time 6 0 0 0) _ _ _ _).
  - constructor; [left; reflexivity|constructor].
  - intros (e & s & t & Hin & (Hm & _) & _).
    apply list_elem_of_singleton in Hin as ->. discriminate Hm.
  - split; [reflexivity|].
    exists "22:00", "06:00", []. split_and!; reflexivity.
  - reflexivity.
Defined.
